(** * CHIP-8 interpreter core: a shallow embedding of [Chip8] and its
    properties.

    The machine of [src/chip8.cpp] / [chip8.hpp] is embedded as a record of
    its fields; every member function becomes a function on that record.
    Unsigned 8 and 16 bit integers are [Z] with the wrap-around written out
    ([u8], [u16]).  [std::array] and [std::bitset] are lists indexed through
    [Z.to_nat]; the places where the C++ code can leave the defined language
    (an index past the end of [ram], [std::unreachable()], [top()] of an
    empty [std::stack], a failing [assert], the [std::out_of_range] thrown by
    [bitset::test]) are results of their own, see [fault]. *)

From stdpp Require Import base numbers list.

Local Open Scope Z_scope.

(** ** Results of a member function *)

Inductive fault : Type :=
  | unreachable_reached     (* control reached std::unreachable() *)
  | array_out_of_bounds     (* std::array::operator[] past the end *)
  | empty_stack_top         (* std::stack::top() on an empty stack *)
  | bitset_out_of_range     (* std::bitset::test/flip threw std::out_of_range *)
  | assertion_failed.       (* assert(...) failed: the process is aborted *)

Inductive outcome (A : Type) : Type :=
  | Done (a : A)
  | Fault (f : fault).
Arguments Done {A} a.
Arguments Fault {A} f.

Definition bind {A B} (m : outcome A) (k : A -> outcome B) : outcome B :=
  match m with
  | Done a => k a
  | Fault f => Fault f
  end.

Notation "x <- m ;; k" := (bind m (fun x => k))
  (at level 100, m at next level, right associativity).

(** The C++ standard gives no meaning to a program after these three; the
    other two are defined (an exception, a call of [abort]). *)
Definition undefined_behaviour (f : fault) : bool :=
  match f with
  | unreachable_reached | array_out_of_bounds | empty_stack_top => true
  | bitset_out_of_range | assertion_failed => false
  end.

(** A failure a caller of the member function can tell apart and handle:
    the call ends with a fault, and that fault is defined behaviour other
    than the abort of the process. *)
Definition reportable_failure {A} (o : outcome A) : Prop :=
  exists f, o = Fault f /\ undefined_behaviour f = false /\ f <> assertion_failed.

(** ** Fixed-width integers *)

Definition u8 (z : Z) : Z := z mod 256.
Definition u16 (z : Z) : Z := z mod 65536.
Definition of_bool (b : bool) : Z := if b then 1 else 0.

Definition is_u8 (z : Z) : bool := (0 <=? z) && (z <? 256).
Definition is_u16 (z : Z) : bool := (0 <=? z) && (z <? 65536).

(** ** Constants of the class *)

Definition RAM_SIZE : Z := 4096.
Definition MAX_PROG_SIZE : Z := 4096 - 0x200.
Definition GPREG_NUM : Z := 16.
Definition PC_RESET_VALUE : Z := 0x200.
Definition SCREEN_SIZE : Z := 64 * 32.
Definition KEYBOARD_SIZE : Z := 16.

(** The initializer of [ram]: sixteen glyphs of five bytes. *)
Definition font : list Z :=
  [ 0xF0; 0x90; 0x90; 0x90; 0xF0;
    0x20; 0x60; 0x20; 0x20; 0x70;
    0xF0; 0x10; 0xF0; 0x80; 0xF0;
    0xF0; 0x10; 0xF0; 0x10; 0xF0;
    0x90; 0x90; 0xF0; 0x10; 0x10;
    0xF0; 0x80; 0xF0; 0x10; 0xF0;
    0xF0; 0x80; 0xF0; 0x90; 0xF0;
    0xF0; 0x10; 0x20; 0x40; 0x40;
    0xF0; 0x90; 0xF0; 0x90; 0xF0;
    0xF0; 0x90; 0xF0; 0x10; 0xF0;
    0xF0; 0x90; 0xF0; 0x90; 0x90;
    0xE0; 0x90; 0xE0; 0x90; 0xE0;
    0xF0; 0x80; 0x80; 0x80; 0xF0;
    0xE0; 0x90; 0x90; 0x90; 0xE0;
    0xF0; 0x80; 0xF0; 0x80; 0xF0;
    0xF0; 0x80; 0xF0; 0x80; 0x80 ].

(** ** Decoded instruction ([instruction_t]) *)

Record instruction_t : Type := mk_instr {
  X : Z;
  Y : Z;
  N : Z;
  NN : Z;
  NNN : Z
}.

Definition decode (n : Z) : instruction_t :=
  {| X := Z.land (Z.shiftr n 8) 0xF;
     Y := Z.land (Z.shiftr n 4) 0xF;
     N := Z.land n 0xF;
     NN := Z.land n 0xFF;
     NNN := Z.land n 0xFFF |}.

(** ** Machine state ([class Chip8]) *)

Record Chip8 : Type := mk_chip8 {
  copy_vy_to_vx_in_shift : bool;
  make_BNNN_into_BXNN : bool;
  FX55_FX65_modify_I : bool;
  ram : list Z;
  PC : Z;
  I : Z;
  V : list Z;
  stack : list Z;          (* top of the stack first *)
  delay_timer : Z;
  sound_timer : Z;
  screen : list bool;
  keyboard : list bool
}.

Definition with_ram (m : list Z) (s : Chip8) : Chip8 :=
  mk_chip8 (copy_vy_to_vx_in_shift s) (make_BNNN_into_BXNN s) (FX55_FX65_modify_I s)
    m (PC s) (I s) (V s) (stack s) (delay_timer s) (sound_timer s) (screen s) (keyboard s).
Definition with_PC (pc : Z) (s : Chip8) : Chip8 :=
  mk_chip8 (copy_vy_to_vx_in_shift s) (make_BNNN_into_BXNN s) (FX55_FX65_modify_I s)
    (ram s) pc (I s) (V s) (stack s) (delay_timer s) (sound_timer s) (screen s) (keyboard s).
Definition with_I (i : Z) (s : Chip8) : Chip8 :=
  mk_chip8 (copy_vy_to_vx_in_shift s) (make_BNNN_into_BXNN s) (FX55_FX65_modify_I s)
    (ram s) (PC s) i (V s) (stack s) (delay_timer s) (sound_timer s) (screen s) (keyboard s).
Definition with_V (v : list Z) (s : Chip8) : Chip8 :=
  mk_chip8 (copy_vy_to_vx_in_shift s) (make_BNNN_into_BXNN s) (FX55_FX65_modify_I s)
    (ram s) (PC s) (I s) v (stack s) (delay_timer s) (sound_timer s) (screen s) (keyboard s).
Definition with_stack (st : list Z) (s : Chip8) : Chip8 :=
  mk_chip8 (copy_vy_to_vx_in_shift s) (make_BNNN_into_BXNN s) (FX55_FX65_modify_I s)
    (ram s) (PC s) (I s) (V s) st (delay_timer s) (sound_timer s) (screen s) (keyboard s).
Definition with_delay_timer (t : Z) (s : Chip8) : Chip8 :=
  mk_chip8 (copy_vy_to_vx_in_shift s) (make_BNNN_into_BXNN s) (FX55_FX65_modify_I s)
    (ram s) (PC s) (I s) (V s) (stack s) t (sound_timer s) (screen s) (keyboard s).
Definition with_sound_timer (t : Z) (s : Chip8) : Chip8 :=
  mk_chip8 (copy_vy_to_vx_in_shift s) (make_BNNN_into_BXNN s) (FX55_FX65_modify_I s)
    (ram s) (PC s) (I s) (V s) (stack s) (delay_timer s) t (screen s) (keyboard s).
Definition with_screen (scr : list bool) (s : Chip8) : Chip8 :=
  mk_chip8 (copy_vy_to_vx_in_shift s) (make_BNNN_into_BXNN s) (FX55_FX65_modify_I s)
    (ram s) (PC s) (I s) (V s) (stack s) (delay_timer s) (sound_timer s) scr (keyboard s).
Definition with_keyboard (k : list bool) (s : Chip8) : Chip8 :=
  mk_chip8 (copy_vy_to_vx_in_shift s) (make_BNNN_into_BXNN s) (FX55_FX65_modify_I s)
    (ram s) (PC s) (I s) (V s) (stack s) (delay_timer s) (sound_timer s) (screen s) k.

(** A state of the right shape: the containers have their declared sizes
    and every integer fits its declared width. *)
Definition wf_b (s : Chip8) : bool :=
  (length (ram s) =? 4096)%nat && forallb is_u8 (ram s)
  && is_u16 (PC s) && is_u16 (I s)
  && (length (V s) =? 16)%nat && forallb is_u8 (V s)
  && forallb is_u16 (stack s)
  && is_u8 (delay_timer s) && is_u8 (sound_timer s)
  && (length (screen s) =? 2048)%nat
  && (length (keyboard s) =? 16)%nat.

Definition wf (s : Chip8) : Prop := wf_b s = true.

(** ** Container accesses *)

(** [a[i]] on a [std::array]: no bounds check, so an index past the end is
    undefined. *)
Definition array_get (a : list Z) (i : Z) : outcome Z :=
  if (0 <=? i) && (i <? Z.of_nat (length a))
  then Done (a !!! Z.to_nat i)
  else Fault array_out_of_bounds.

Definition array_set (a : list Z) (i : Z) (v : Z) : outcome (list Z) :=
  if (0 <=? i) && (i <? Z.of_nat (length a))
  then Done (<[Z.to_nat i := v]> a)
  else Fault array_out_of_bounds.

Definition ram_get (s : Chip8) (i : Z) : outcome Z := array_get (ram s) i.
Definition ram_set (i v : Z) (s : Chip8) : outcome Chip8 :=
  m <- array_set (ram s) i v ;; Done (with_ram m s).

(** [V[i]]: every index the code uses is a 4-bit field, the constant [0xF]
    or a loop counter bounded by a 4-bit field, so the access is total on a
    register file of sixteen entries. *)
Definition getV (s : Chip8) (i : Z) : Z := V s !!! Z.to_nat i.
Definition setV (i v : Z) (s : Chip8) : Chip8 := with_V (<[Z.to_nat i := v]> (V s)) s.

(** [bitset::test(pos)] and [bitset::flip(pos)] check [pos] and throw. *)
Definition bitset_test (b : list bool) (pos : Z) : outcome bool :=
  if (0 <=? pos) && (pos <? Z.of_nat (length b))
  then Done (b !!! Z.to_nat pos)
  else Fault bitset_out_of_range.

Definition bitset_flip (b : list bool) (pos : Z) : outcome (list bool) :=
  if (0 <=? pos) && (pos <? Z.of_nat (length b))
  then Done (<[Z.to_nat pos := negb (b !!! Z.to_nat pos)]> b)
  else Fault bitset_out_of_range.

(** [bitset::reset()] *)
Definition bitset_reset (b : list bool) : list bool := replicate (length b) false.

(** [for (int i = from; i < from + count && cond(i); ++i) body(i);] *)
Fixpoint for_loop {S : Type} (idx : list Z) (cond : Z -> bool)
    (body : Z -> S -> outcome S) (s : S) : outcome S :=
  match idx with
  | [] => Done s
  | i :: rest =>
      if cond i then s' <- body i s ;; for_loop rest cond body s'
      else Done s
  end.

(** ** [Chip8::load] *)

Definition load (prog : list Z) (s : Chip8) : outcome Chip8 :=
  if Z.of_nat (length prog) <? MAX_PROG_SIZE
  then Done (with_ram (list_inserts (Z.to_nat PC_RESET_VALUE) prog (ram s)) s)
  else Fault assertion_failed.

(** ** Opcode handlers *)

Definition handle_0_instr (instr : instruction_t) (s : Chip8) : outcome Chip8 :=
  match instr.(NNN) with
  | 0x0E0 => Done (with_screen (bitset_reset (screen s)) s)
  | 0x0EE =>
      match stack s with
      | [] => Fault empty_stack_top
      | top :: rest => Done (with_stack rest (with_PC top s))
      end
  | _ => Fault unreachable_reached
  end.

Definition handle_1_instr (instr : instruction_t) (s : Chip8) : outcome Chip8 :=
  Done (with_PC instr.(NNN) s).

Definition handle_2_instr (instr : instruction_t) (s : Chip8) : outcome Chip8 :=
  Done (with_PC instr.(NNN) (with_stack (PC s :: stack s) s)).

Definition skip_if (b : bool) (s : Chip8) : Chip8 :=
  if b then with_PC (u16 (PC s + 2)) s else s.

Definition handle_3_instr (instr : instruction_t) (s : Chip8) : outcome Chip8 :=
  Done (skip_if (getV s instr.(X) =? instr.(NN)) s).

Definition handle_4_instr (instr : instruction_t) (s : Chip8) : outcome Chip8 :=
  Done (skip_if (negb (getV s instr.(X) =? instr.(NN))) s).

Definition handle_5_instr (instr : instruction_t) (s : Chip8) : outcome Chip8 :=
  Done (skip_if (getV s instr.(X) =? getV s instr.(Y)) s).

Definition handle_6_instr (instr : instruction_t) (s : Chip8) : outcome Chip8 :=
  Done (setV instr.(X) instr.(NN) s).

Definition handle_7_instr (instr : instruction_t) (s : Chip8) : outcome Chip8 :=
  Done (setV instr.(X) (u8 (getV s instr.(X) + instr.(NN))) s).

Definition handle_8_instr (instr : instruction_t) (s : Chip8) : outcome Chip8 :=
  let x := instr.(X) in
  let y := instr.(Y) in
  match instr.(N) with
  | 0x0 => Done (setV x (getV s y) s)
  | 0x1 => Done (setV x (Z.lor (getV s x) (getV s y)) s)
  | 0x2 => Done (setV x (Z.land (getV s x) (getV s y)) s)
  | 0x3 => Done (setV x (Z.lxor (getV s x) (getV s y)) s)
  | 0x4 =>
      let tmp := getV s x in
      let s1 := setV x (u8 (getV s x + getV s y)) s in
      Done (setV 0xF (of_bool (getV s1 x <? tmp)) s1)
  | 0x5 =>
      let tmp := getV s x in
      let s1 := setV x (u8 (getV s x - getV s y)) s in
      Done (setV 0xF (of_bool (negb (getV s1 x >? tmp))) s1)
  | 0x6 =>
      let s1 := if copy_vy_to_vx_in_shift s then setV x (getV s y) s else s in
      let tmp := Z.land (getV s1 x) 0x1 in
      let s2 := setV x (Z.shiftr (getV s1 x) 1) s1 in
      Done (setV 0xF tmp s2)
  | 0x7 =>
      let s1 := setV x (u8 (getV s y - getV s x)) s in
      Done (setV 0xF (of_bool (negb (getV s1 x >? getV s1 y))) s1)
  | 0xE =>
      let s1 := if copy_vy_to_vx_in_shift s then setV x (getV s y) s else s in
      let tmp := Z.shiftr (getV s1 x) 7 in
      let s2 := setV x (u8 (Z.shiftl (getV s1 x) 1)) s1 in
      Done (setV 0xF tmp s2)
  | _ => Fault unreachable_reached
  end.

Definition handle_9_instr (instr : instruction_t) (s : Chip8) : outcome Chip8 :=
  Done (skip_if (negb (getV s instr.(X) =? getV s instr.(Y))) s).

Definition handle_A_instr (instr : instruction_t) (s : Chip8) : outcome Chip8 :=
  Done (with_I instr.(NNN) s).

Definition handle_B_instr (instr : instruction_t) (s : Chip8) : outcome Chip8 :=
  let reg := if make_BNNN_into_BXNN s then instr.(X) else 0 in
  Done (with_PC (u16 (getV s reg + instr.(NNN))) s).

(** [rnd] is the value [distrib(gen)] returns at this call. *)
Definition handle_C_instr (rnd : Z) (instr : instruction_t) (s : Chip8) : outcome Chip8 :=
  Done (setV instr.(X) (u8 (Z.land rnd instr.(NN))) s).

(** The body of the inner loop of [handle_D_instr]: one sprite bit. *)
Definition draw_bit (x y r : Z) (sprite_row : Z) (c : Z) (s : Chip8) : outcome Chip8 :=
  let screen_pix := (y + r) * 64 + x + c in
  if Z.testbit sprite_row (7 - c) then
    lit <- bitset_test (screen s) screen_pix ;;
    let s1 := if lit then setV 0xF 1 s else s in
    scr <- bitset_flip (screen s1) screen_pix ;;
    Done (with_screen scr s1)
  else Done s.

(** The body of the outer loop: one sprite row. *)
Definition draw_row (x y : Z) (r : Z) (s : Chip8) : outcome Chip8 :=
  sprite_row <- ram_get s (I s + r) ;;
  for_loop (seqZ 0 8) (fun c => x + c <? 64) (draw_bit x y r sprite_row) s.

Definition handle_D_instr (instr : instruction_t) (s : Chip8) : outcome Chip8 :=
  let x := getV s instr.(X) mod 64 in
  let y := getV s instr.(Y) mod 32 in
  let s0 := setV 0xF 0 s in
  for_loop (seqZ 0 instr.(N)) (fun r => y + r <? 32) (draw_row x y) s0.

Definition handle_E_instr (instr : instruction_t) (s : Chip8) : outcome Chip8 :=
  match instr.(NN) with
  | 0x9E =>
      pressed <- bitset_test (keyboard s) (getV s instr.(X)) ;;
      Done (skip_if pressed s)
  | 0xA1 =>
      pressed <- bitset_test (keyboard s) (getV s instr.(X)) ;;
      Done (skip_if (negb pressed) s)
  | _ => Fault unreachable_reached
  end.

(** The loop of [FX0A]: the first [i] with [keyboard.test(i)], if any. *)
Fixpoint scan_keys (idx : list Z) (kb : list bool) : outcome (option Z) :=
  match idx with
  | [] => Done None
  | i :: rest =>
      pressed <- bitset_test kb i ;;
      if pressed then Done (Some i) else scan_keys rest kb
  end.

(** The bodies of the loops of [FX55] and [FX65]. *)
Definition store_reg (i : Z) (s : Chip8) : outcome Chip8 :=
  ram_set (I s + i) (getV s i) s.

Definition load_reg (i : Z) (s : Chip8) : outcome Chip8 :=
  b <- ram_get s (I s + i) ;; Done (setV i b s).

Definition bump_I (instr : instruction_t) (s : Chip8) : Chip8 :=
  if FX55_FX65_modify_I s then with_I (u16 (I s + (instr.(X) + 1))) s else s.

Definition handle_F_instr (instr : instruction_t) (s : Chip8) : outcome Chip8 :=
  let x := instr.(X) in
  match instr.(NN) with
  | 0x7 => Done (setV x (delay_timer s) s)
  | 0xA =>
      k <- scan_keys (seqZ 0 KEYBOARD_SIZE) (keyboard s) ;;
      match k with
      | Some i => Done (setV x i s)
      | None => Done (with_PC (u16 (PC s - 2)) s)
      end
  | 0x15 => Done (with_delay_timer (getV s x) s)
  | 0x18 => Done (with_sound_timer (getV s x) s)
  | 0x1E => Done (with_I (u16 (I s + getV s x)) s)
  | 0x29 =>
      b <- ram_get s (Z.land (getV s x) 0xF) ;;
      Done (with_I b s)
  | 0x33 =>
      s1 <- ram_set (I s + 2) (getV s x mod 10) s ;;
      s2 <- ram_set (I s1 + 1) ((getV s1 x / 10) mod 10) s1 ;;
      ram_set (I s2) ((getV s2 x / 100) mod 10) s2
  | 0x55 =>
      s1 <- for_loop (seqZ 0 (x + 1)) (fun _ => true) store_reg s ;;
      Done (bump_I instr s1)
  | 0x65 =>
      s1 <- for_loop (seqZ 0 (x + 1)) (fun _ => true) load_reg s ;;
      Done (bump_I instr s1)
  | _ => Done s
  end.

(** The [FX1E] case as the header with the inline handlers has it: there
    the line [V[0xF] = (I > 0xFFF);] is not commented out. *)
Definition FX1E_with_flag (instr : instruction_t) (s : Chip8) : outcome Chip8 :=
  let s1 := with_I (u16 (I s + getV s instr.(X))) s in
  Done (setV 0xF (of_bool (I s1 >? 0xFFF)) s1).

(** ** [Chip8::cpu_next_instr] *)

Definition fetch (s : Chip8) : outcome (Z * Chip8) :=
  hi <- ram_get s (PC s) ;;
  let s1 := with_PC (u16 (PC s + 1)) s in
  let tmp := u16 (Z.shiftl hi 8) in
  lo <- ram_get s1 (PC s1) ;;
  let s2 := with_PC (u16 (PC s1 + 1)) s1 in
  Done (u16 (Z.lor tmp lo), s2).

Definition dispatch (rnd : Z) (tmp : Z) (s : Chip8) : outcome Chip8 :=
  let instr := decode tmp in
  match Z.shiftr tmp 12 with
  | 0x0 => handle_0_instr instr s
  | 0x1 => handle_1_instr instr s
  | 0x2 => handle_2_instr instr s
  | 0x3 => handle_3_instr instr s
  | 0x4 => handle_4_instr instr s
  | 0x5 => handle_5_instr instr s
  | 0x6 => handle_6_instr instr s
  | 0x7 => handle_7_instr instr s
  | 0x8 => handle_8_instr instr s
  | 0x9 => handle_9_instr instr s
  | 0xA => handle_A_instr instr s
  | 0xB => handle_B_instr instr s
  | 0xC => handle_C_instr rnd instr s
  | 0xD => handle_D_instr instr s
  | 0xE => handle_E_instr instr s
  | 0xF => handle_F_instr instr s
  | _ => Done s
  end.

Definition cpu_next_instr (rnd : Z) (s : Chip8) : outcome Chip8 :=
  f <- fetch s ;;
  dispatch rnd (fst f) (snd f).

(** ** Timers *)

Definition get_delay_timer (s : Chip8) : Z := delay_timer s.
Definition get_sound_timer (s : Chip8) : Z := sound_timer s.

Definition decrement_delay_timer (s : Chip8) : Chip8 :=
  with_delay_timer (u8 (delay_timer s - 1)) s.

Definition decrement_sound_timer (s : Chip8) : Chip8 :=
  with_sound_timer (u8 (sound_timer s - 1)) s.

(** The end of one frame of the loop of [main]: each timer is decremented
    only when its value is above zero. *)
Definition main_timer_tick (c : Chip8) : Chip8 :=
  let c1 := if get_delay_timer c >? 0 then decrement_delay_timer c else c in
  if get_sound_timer c1 >? 0 then decrement_sound_timer c1 else c1.

(** ** A concrete machine

    [ram] as its initializer leaves it (the font, then zeros), [PC] at its
    reset value, no key pressed, a dark screen and the default switches.
    [I] and [V] have no initializer in the class; they are given here. *)
Definition machine (i : Z) (v : list Z) : Chip8 :=
  {| copy_vy_to_vx_in_shift := false;
     make_BNNN_into_BXNN := false;
     FX55_FX65_modify_I := false;
     ram := font ++ replicate (4096 - 80) 0;
     PC := PC_RESET_VALUE;
     I := i;
     V := v;
     stack := [];
     delay_timer := 0;
     sound_timer := 0;
     screen := replicate 2048 false;
     keyboard := replicate 16 false |}.

Definition zero_regs : list Z := replicate 16 0.

(** The machine with a program loaded by [load]; a failed load leaves the
    machine as it was. *)
Definition machine_with (prog : list Z) (i : Z) (v : list Z) : Chip8 :=
  match load prog (machine i v) with
  | Done s => s
  | Fault _ => machine i v
  end.

(** ** Vocabulary of the statements *)

Record shape (s : Chip8) : Prop := {
  shape_ram : length (ram s) = 4096%nat;
  shape_ram_bytes : forall i, (i < 4096)%nat -> 0 <= ram s !!! i < 256;
  shape_PC : 0 <= PC s < 65536;
  shape_I : 0 <= I s < 65536;
  shape_V : length (V s) = 16%nat;
  shape_V_bytes : forall i, (i < 16)%nat -> 0 <= V s !!! i < 256;
  shape_delay : 0 <= delay_timer s < 256;
  shape_sound : 0 <= sound_timer s < 256;
  shape_screen : length (screen s) = 2048%nat;
  shape_keyboard : length (keyboard s) = 16%nat
}.

(** The instruction words the handlers have no case for, in the families
    whose [switch] ends in [std::unreachable()]. *)
Definition outside_instruction_set (w : Z) : bool :=
  let instr := decode w in
  let family := Z.shiftr w 12 in
  ((family =? 0x0) && negb (NNN instr =? 0x0E0) && negb (NNN instr =? 0x0EE))
  || ((family =? 0x8) && negb ((N instr <=? 0x7) || (N instr =? 0xE)))
  || ((family =? 0xE) && negb (NN instr =? 0x9E) && negb (NN instr =? 0xA1)).

(** The loop of [main] that calls [cpu_next_instr] repeatedly; [rnds] are
    the values the random source hands out, one per step. *)
Fixpoint run (rnds : list Z) (s : Chip8) : outcome Chip8 :=
  match rnds with
  | [] => Done s
  | rnd :: rest => s' <- cpu_next_instr rnd s ;; run rest s'
  end.

Definition pressed (s : Chip8) (i : Z) : bool := keyboard s !!! Z.to_nat i.

Definition monotone_exit (cond : Z -> bool) : Prop :=
  forall i j, i <= j -> cond i = false -> cond j = false.

(** The effect of one set sprite bit that lands on pixel [p]: a lit pixel
    raises the collision flag, and the pixel is flipped. *)
Definition plot (p : Z) (s : Chip8) : Chip8 :=
  let s1 := if (screen s !!! Z.to_nat p : bool) then setV 0xF 1 s else s in
  with_screen (<[Z.to_nat p := negb (screen s1 !!! Z.to_nat p)]> (screen s1)) s1.

Definition plots (ps : list Z) (s : Chip8) : Chip8 :=
  foldl (fun s p => plot p s) s ps.

(** The pixels one sprite row plots, in the order of the inner loop. *)
Definition row_pixels (x y r : Z) (sprite_row : Z) : list Z :=
  mbind (fun c : Z => if x + c <? 64
                      then (if Z.testbit sprite_row (7 - c)
                            then [(y + r) * 64 + x + c] else [])
                      else [] : list Z)
        (seqZ 0 8).

(** The pixels a whole sprite plots, in the order of the two loops. *)
Definition sprite_pixels (m : list Z) (base x y : Z) (n : Z) : list Z :=
  mbind (fun r : Z => if y + r <? 32
                      then row_pixels x y r (m !!! Z.to_nat (base + r))
                      else [] : list Z)
        (seqZ 0 n).

(** What a drawing loop leaves alone. *)
Definition same_frame (s0 s : Chip8) : Prop :=
  ram s = ram s0 /\ I s = I s0 /\ length (screen s) = length (screen s0).

Definition pixel (s : Chip8) (q : Z) : bool := screen s !!! Z.to_nat q.

(** Which pixels a sprite plots: bit [7 - c] of row [r], for the rows and
    columns that stay on the screen. *)
Definition plotted (m : list Z) (base x y n : Z) (q : Z) : Prop :=
  exists r c, 0 <= r < n /\ y + r < 32 /\ 0 <= c < 8 /\ x + c < 64 /\
    Z.testbit (m !!! Z.to_nat (base + r)) (7 - c) = true /\
    q = (y + r) * 64 + x + c.

Definition origin_x (instr : instruction_t) (s : Chip8) : Z := getV s (X instr) mod 64.
Definition origin_y (instr : instruction_t) (s : Chip8) : Z := getV s (Y instr) mod 32.

(** The sprite rows the outer loop reads all lie inside [ram]. *)
Definition rows_in_ram (instr : instruction_t) (s : Chip8) : Prop :=
  forall r, 0 <= r < N instr -> origin_y instr s + r < 32 ->
    I s + r < Z.of_nat (length (ram s)).

(** The pixels of the draw that [instr] asks for in state [s]. *)
Definition drawn (instr : instruction_t) (s : Chip8) (q : Z) : Prop :=
  plotted (ram s) (I s) (origin_x instr s) (origin_y instr s) (N instr) q.

Definition drawn_pixels (instr : instruction_t) (s : Chip8) : list Z :=
  sprite_pixels (ram s) (I s) (origin_x instr s) (origin_y instr s) (N instr).

(** What the loops of [FX55] and [FX65] keep: the size of [ram] and [I]. *)
Definition same_index (s0 s : Chip8) : Prop :=
  length (ram s) = length (ram s0) /\ I s = I s0.

(** ** Vocabulary of the further properties *)

Definition byte (z : Z) : Prop := 0 <= z < 256.
Definition word16 (z : Z) : Prop := 0 <= z < 65536.

(** [wf] spelled out as a proposition. *)
Record sound (s : Chip8) : Prop := {
  sound_ram_size : length (ram s) = 4096%nat;
  sound_ram : Forall byte (ram s);
  sound_PC : word16 (PC s);
  sound_I : word16 (I s);
  sound_V_size : length (V s) = 16%nat;
  sound_V : Forall byte (V s);
  sound_stack : Forall word16 (stack s);
  sound_delay : byte (delay_timer s);
  sound_sound : byte (sound_timer s);
  sound_screen : length (screen s) = 2048%nat;
  sound_keyboard : length (keyboard s) = 16%nat
}.

(** The instruction word with the given family and operand nibbles: what
    the constructor of [instruction_t] takes apart. *)
Definition opcode (family x y n : Z) : Z := 4096 * family + 256 * x + 16 * y + n.

(** A run of subroutine calls followed by a run of returns. *)
Fixpoint calls (targets : list instruction_t) (s : Chip8) : outcome Chip8 :=
  match targets with
  | [] => Done s
  | instr :: rest => s' <- handle_2_instr instr s ;; calls rest s'
  end.

Fixpoint returns (n : nat) (s : Chip8) : outcome Chip8 :=
  match n with
  | O => Done s
  | S m => s' <- handle_0_instr (decode 0x00EE) s ;; returns m s'
  end.

(** [main], the lines that read the program: a vector of [1 << 10] zero
    bytes, filled by [fread] with at most that many bytes of the file, is
    handed to [load] whole.  [file] is the content of the file. *)
Definition read_rom (file : list Z) : list Z := take 1024 (file ++ replicate 1024 0).

Definition main_load (file : list Z) (c : Chip8) : outcome Chip8 :=
  load (read_rom file) c.

(** [main], the rendering loop: bit [i] of the screen is painted in the
    cell of column [i % 64] and row [i / 64]. *)
Definition render_cell (i : Z) : Z * Z := (i mod 64, i / 64).

(** [n] passes through the timer lines at the end of the loop of [main]. *)
Definition timer_ticks (n : nat) (c : Chip8) : Chip8 := Nat.iter n main_timer_tick c.

(** * Properties *)

(** ** Shape of a state *)

Lemma is_u8_spec z : is_u8 z = true <-> 0 <= z < 256.
Proof. unfold is_u8. rewrite andb_true_iff, Z.leb_le, Z.ltb_lt. tauto. Qed.

Lemma is_u16_spec z : is_u16 z = true <-> 0 <= z < 65536.
Proof. unfold is_u16. rewrite andb_true_iff, Z.leb_le, Z.ltb_lt. tauto. Qed.

Lemma forallb_lookup_total (P : Z -> bool) (l : list Z) (i : nat) :
  forallb P l = true -> (i < length l)%nat -> P (l !!! i) = true.
Proof.
  intros Hall Hi. rewrite forallb_forall in Hall. apply Hall.
  apply list_elem_of_In, list_elem_of_lookup. exists i.
  by apply list_lookup_lookup_total_lt.
Qed.

Lemma wf_shape s : wf s -> shape s.
Proof.
  unfold wf, wf_b. rewrite !andb_true_iff, !Nat.eqb_eq, !is_u8_spec, !is_u16_spec.
  intros [[[[[[[[[[Hr Hrb] Hpc] Hi] Hv] Hvb] _] Hd] Hs] Hscr] Hk].
  split; try done.
  - intros i Hlt. apply is_u8_spec, forallb_lookup_total; [done | lia].
  - intros i Hlt. apply is_u8_spec, forallb_lookup_total; [done | lia].
Qed.

Lemma getV_byte s i : wf s -> 0 <= i < 16 -> 0 <= getV s i < 256.
Proof. intros Hwf Hi. apply (shape_V_bytes s (wf_shape s Hwf)). lia. Qed.

Lemma field_X_range w : 0 <= X (decode w) < 16.
Proof.
  unfold decode; simpl. change 15 with (Z.ones 4). rewrite Z.land_ones by lia.
  apply Z.mod_pos_bound. lia.
Qed.

Lemma field_Y_range w : 0 <= Y (decode w) < 16.
Proof.
  unfold decode; simpl. change 15 with (Z.ones 4). rewrite Z.land_ones by lia.
  apply Z.mod_pos_bound. lia.
Qed.

Lemma field_N_range w : 0 <= N (decode w) < 16.
Proof.
  unfold decode; simpl. change 15 with (Z.ones 4). rewrite Z.land_ones by lia.
  apply Z.mod_pos_bound. lia.
Qed.

(** ** [FX29]: the index register after a font lookup *)

(** What the handler does for [FX29], for every state: [I] receives the
    byte stored in [ram] at the low nibble of [V[X]]. *)
Lemma FX29_reads_ram instr s :
  wf s -> NN instr = 0x29 ->
  handle_F_instr instr s =
    Done (with_I (ram s !!! Z.to_nat (Z.land (getV s (X instr)) 0xF)) s).
Proof.
  intros Hwf HNN. unfold handle_F_instr. rewrite HNN.
  unfold ram_get, array_get. rewrite (shape_ram s (wf_shape s Hwf)).
  assert (0 <= Z.land (getV s (X instr)) 15 < 16) as Hn.
  { change 15 with (Z.ones 4). rewrite Z.land_ones by lia.
    apply Z.mod_pos_bound. lia. }
  replace ((0 <=? Z.land (getV s (X instr)) 15) &&
           (Z.land (getV s (X instr)) 15 <? Z.of_nat 4096)) with true; [done |].
  symmetry. apply andb_true_iff. rewrite Z.leb_le, Z.ltb_lt. lia.
Qed.

(** C1, at the failing input.  With [V[0] = 1], the step that executes
    [F029] leaves [I = 0x90], the second byte of the glyph of 0, and not
    [5 * (V[0] & 0xF) = 5], the address of the glyph of 1. *)
Theorem FX29_loads_glyph_byte_not_address (rnd : Z) :
  let s := machine_with [0xF0; 0x29] 0 (<[0%nat := 1]> zero_regs) in
  getV s 0 = 1 /\
  (exists s', cpu_next_instr rnd s = Done s' /\ I s' = 0x90) /\
  5 * Z.land (getV s 0) 0xF = 5.
Proof.
  cbv zeta. split; [reflexivity |]. split; [| reflexivity].
  eexists. split; [vm_compute; reflexivity | reflexivity].
Qed.

(** ** Timers *)

(** C2, refuted as stated: decrementing a timer that holds 0 gives 255. *)
Lemma decrement_timer_wraps_at_zero :
  delay_timer (machine 0 zero_regs) = 0 /\
  sound_timer (machine 0 zero_regs) = 0 /\
  delay_timer (decrement_delay_timer (machine 0 zero_regs)) = 255 /\
  sound_timer (decrement_sound_timer (machine 0 zero_regs)) = 255.
Proof. repeat split; reflexivity. Qed.

(** C2, amended.  Each decrement subtracts one modulo 256 and touches no
    other field, so at 0 it wraps to 255; the floor at 0 is kept by the
    caller: one timer tick of the loop of [main] decrements a timer only
    when it is above 0, leaving a timer at 0 at 0. *)
Theorem timers_wrap_and_main_guards (s : Chip8) :
  wf s ->
  delay_timer (decrement_delay_timer s)
    = (if delay_timer s =? 0 then 255 else delay_timer s - 1) /\
  sound_timer (decrement_sound_timer s)
    = (if sound_timer s =? 0 then 255 else sound_timer s - 1) /\
  decrement_delay_timer s = with_delay_timer (delay_timer (decrement_delay_timer s)) s /\
  decrement_sound_timer s = with_sound_timer (sound_timer (decrement_sound_timer s)) s /\
  delay_timer (main_timer_tick s) = Z.max 0 (delay_timer s - 1) /\
  sound_timer (main_timer_tick s) = Z.max 0 (sound_timer s - 1).
Proof.
  intros Hwf. destruct (wf_shape s Hwf) as [_ _ _ _ _ _ Hd Hs _ _].
  assert (forall t, 0 <= t < 256 -> u8 (t - 1) = if t =? 0 then 255 else t - 1) as Hdec.
  { intros t Ht. unfold u8. destruct (Z.eqb_spec t 0) as [-> | Hne]; [reflexivity |].
    apply Z.mod_small. lia. }
  repeat split.
  - simpl. by apply Hdec.
  - simpl. by apply Hdec.
  - unfold main_timer_tick, get_delay_timer, get_sound_timer.
    assert (forall c, delay_timer (if sound_timer c >? 0 then decrement_sound_timer c else c)
                      = delay_timer c) as Hsame by (intros c; by destruct (sound_timer c >? 0)).
    rewrite Hsame.
    destruct (Z.gtb_spec (delay_timer s) 0) as [Hgt | Hle]; [| lia].
    simpl. rewrite Hdec by done. destruct (Z.eqb_spec (delay_timer s) 0); lia.
  - unfold main_timer_tick, get_delay_timer, get_sound_timer.
    assert (sound_timer (if delay_timer s >? 0 then decrement_delay_timer s else s)
            = sound_timer s) as Hsame by (by destruct (delay_timer s >? 0)).
    rewrite Hsame.
    destruct (Z.gtb_spec (sound_timer s) 0) as [Hgt | Hle].
    + destruct (delay_timer s >? 0); simpl;
        rewrite Hdec by done; destruct (Z.eqb_spec (sound_timer s) 0); lia.
    + rewrite Hsame. lia.
Qed.

Lemma timers_wrap_and_main_guards_witness :
  wf (machine 0 zero_regs) /\
  delay_timer (main_timer_tick (machine 0 zero_regs)) = Z.max 0 (0 - 1).
Proof.
  split; [vm_compute; reflexivity |].
  apply (timers_wrap_and_main_guards (machine 0 zero_regs)). vm_compute; reflexivity.
Defined.

(** ** [load] *)

(** What [load] does: the assertion passes exactly for programs shorter
    than [MAX_PROG_SIZE]; then the bytes land at [0x200] and the rest of
    [ram], like every other field, is left alone. *)
Lemma load_accepts_below_budget (prog : list Z) (s : Chip8) :
  wf s -> Z.of_nat (length prog) < MAX_PROG_SIZE ->
  load prog s = Done (with_ram (list_inserts 512 prog (ram s)) s) /\
  (forall i, (i < length prog)%nat ->
     list_inserts 512 prog (ram s) !! (512 + i)%nat = prog !! i) /\
  (forall a, (a < 512 \/ 512 + length prog <= a)%nat ->
     list_inserts 512 prog (ram s) !! a = ram s !! a).
Proof.
  intros Hwf Hlen. pose proof (shape_ram s (wf_shape s Hwf)) as Hram.
  unfold MAX_PROG_SIZE in Hlen. split; [| split].
  - unfold load. change (Z.to_nat PC_RESET_VALUE) with 512%nat.
    destruct (Z.ltb_spec (Z.of_nat (length prog)) MAX_PROG_SIZE) as [_ | Hge]; [done |].
    unfold MAX_PROG_SIZE in Hge. lia.
  - intros i Hi. rewrite list_lookup_inserts by lia.
    by replace (512 + i - 512)%nat with i by lia.
  - intros a [Ha | Ha].
    + by apply list_lookup_inserts_lt.
    + apply list_lookup_inserts_ge. lia.
Qed.

Lemma load_fails_from_budget (prog : list Z) (s : Chip8) :
  MAX_PROG_SIZE <= Z.of_nat (length prog) -> load prog s = Fault assertion_failed.
Proof.
  intros Hlen. unfold load.
  destruct (Z.ltb_spec (Z.of_nat (length prog)) MAX_PROG_SIZE); [lia | done].
Qed.

(** C3, at the failing input.  A program of exactly [4096 - 0x200 = 3584]
    bytes fills [ram] from [0x200] to its last byte, and [load] still
    rejects it: the assertion compares with [<]. *)
Theorem load_rejects_program_of_exact_budget (s : Chip8) :
  let prog := replicate 3584 0 in
  Z.of_nat (length prog) = 4096 - 0x200 /\
  PC_RESET_VALUE + Z.of_nat (length prog) = RAM_SIZE /\
  load prog s = Fault assertion_failed.
Proof.
  cbv zeta. rewrite length_replicate. split; [reflexivity |]. split; [reflexivity |].
  apply load_fails_from_budget. rewrite length_replicate. unfold MAX_PROG_SIZE. lia.
Qed.

(** ** Register file *)

Lemma getV_setV s i j v :
  length (V s) = 16%nat -> 0 <= i < 16 -> 0 <= j ->
  getV (setV i v s) j = if i =? j then v else getV s j.
Proof.
  intros Hlen Hi Hj. unfold getV, setV; simpl.
  rewrite list_lookup_total_insert.
  destruct (Z.eqb_spec i j) as [-> | Hne].
  - rewrite decide_True; [done | split; [done | lia]].
  - rewrite decide_False; [done | intros [Heq _]; lia].
Qed.

Lemma length_V_setV s i v : length (V (setV i v s)) = length (V s).
Proof. unfold setV; simpl. apply length_insert. Qed.

(** ** [FX1E] *)

(** The header that defines the handlers inline keeps the flag: there
    [FX1E] overwrites [V[0xF]] with [I > 0xFFF]. *)
Lemma FX1E_with_flag_sets_VF (instr : instruction_t) (s : Chip8) :
  length (V s) = 16%nat ->
  exists s', FX1E_with_flag instr s = Done s' /\
    I s' = (I s + getV s (X instr)) mod 65536 /\
    getV s' 0xF = if I s' >? 0xFFF then 1 else 0.
Proof.
  intros Hlen. unfold FX1E_with_flag. eexists. split; [reflexivity |].
  split; [reflexivity |]. rewrite getV_setV by (done || lia). reflexivity.
Qed.

(** C4, refuted as stated.  The header with the inline handlers has the
    assignment [V[0xF] = (I > 0xFFF);] in force, with no switch around it:
    on a machine with the three switches at their defaults and 7 in every
    register, [FX1E] takes [V[0xF]] from 7 to 1 when [I] was [0xFFF] and
    from 7 to 0 when [I] was 0. *)
Lemma FX1E_inline_header_overwrites_VF :
  copy_vy_to_vx_in_shift (machine 0xFFF (replicate 16 7)) = false /\
  make_BNNN_into_BXNN (machine 0xFFF (replicate 16 7)) = false /\
  FX55_FX65_modify_I (machine 0xFFF (replicate 16 7)) = false /\
  getV (machine 0xFFF (replicate 16 7)) 0xF = 7 /\
  (exists s', FX1E_with_flag (decode 0xF31E) (machine 0xFFF (replicate 16 7)) = Done s' /\
     I s' = 0x1006 /\ getV s' 0xF = 1) /\
  (exists s', FX1E_with_flag (decode 0xF31E) (machine 0 (replicate 16 7)) = Done s' /\
     I s' = 7 /\ getV s' 0xF = 0).
Proof.
  repeat (split; [reflexivity |]).
  split; eexists; (split; [reflexivity |]); split; reflexivity.
Qed.

(** C4, amended.  [FX1E] adds [V[X]] to [I] modulo [2^16], and whether it
    also writes the flag is fixed by the source and not by a switch: the
    handler of [chip8.cpp], where the assignment is commented out, leaves
    the whole register file, [V[0xF]] in it, as it was; the handler of the
    header with the inline handlers always sets [V[0xF]] to 1 when the new
    [I] is above [0xFFF] and to 0 otherwise, and leaves the other registers
    alone.  Both hold for every state, so for every setting of the three
    switches. *)
Theorem FX1E_flag_is_fixed_by_the_source (instr : instruction_t) (s : Chip8) :
  wf s -> NN instr = 0x1E ->
  let sum := (I s + getV s (X instr)) mod 65536 in
  (exists s', handle_F_instr instr s = Done s' /\
     I s' = sum /\
     getV s' 0xF = getV s 0xF /\
     V s' = V s /\
     s' = with_I sum s) /\
  (exists s', FX1E_with_flag instr s = Done s' /\
     I s' = sum /\
     getV s' 0xF = (if sum >? 0xFFF then 1 else 0) /\
     (forall j, 0 <= j < 15 -> getV s' j = getV s j) /\
     s' = with_V (V s') (with_I sum s)).
Proof.
  intros Hwf HNN sum.
  pose proof (shape_V s (wf_shape s Hwf)) as Hlen.
  split.
  - unfold handle_F_instr. rewrite HNN. eexists. split; [reflexivity |].
    repeat split.
  - unfold FX1E_with_flag. eexists. split; [reflexivity |].
    split; [reflexivity |]. split; [| split].
    + rewrite getV_setV by (done || lia). reflexivity.
    + intros j Hj. rewrite getV_setV by (done || lia).
      destruct (Z.eqb_spec 15 j); [lia | reflexivity].
    + by destruct s.
Qed.

Lemma FX1E_flag_is_fixed_by_the_source_witness :
  wf (machine 0xFFF (replicate 16 7)) /\
  NN (decode 0xF31E) = 0x1E /\
  (exists s', handle_F_instr (decode 0xF31E) (machine 0xFFF (replicate 16 7)) = Done s' /\
     I s' = 0x1006 /\ getV s' 0xF = 7) /\
  (exists s', FX1E_with_flag (decode 0xF31E) (machine 0xFFF (replicate 16 7)) = Done s' /\
     I s' = 0x1006 /\ getV s' 0xF = 1).
Proof.
  assert (wf (machine 0xFFF (replicate 16 7))) as Hwf by (vm_compute; reflexivity).
  split; [exact Hwf |]. split; [reflexivity |].
  destruct (FX1E_flag_is_fixed_by_the_source (decode 0xF31E)
              (machine 0xFFF (replicate 16 7)) Hwf eq_refl)
    as [(s1 & Hrun1 & HI1 & HF1 & _) (s2 & Hrun2 & HI2 & HF2 & _)].
  split.
  - exists s1. split; [exact Hrun1 |]. split; [exact HI1 | exact HF1].
  - exists s2. split; [exact Hrun2 |]. split; [exact HI2 | exact HF2].
Defined.

(** ** [8XY5] and [8XY7] *)

Lemma sub_no_borrow a b :
  0 <= a < 256 -> 0 <= b < 256 ->
  negb (u8 (a - b) >? a) = (b <=? a).
Proof.
  intros Ha Hb. unfold u8. rewrite Z.gtb_ltb.
  destruct (Z.leb_spec b a) as [Hle | Hlt].
  - rewrite Z.mod_small by lia. destruct (Z.ltb_spec a (a - b)); [lia | done].
  - replace ((a - b) mod 256) with (a - b + 256).
    + destruct (Z.ltb_spec a (a - b + 256)); [done | lia].
    + symmetry. rewrite <- (Z.mod_add _ 1) by lia. apply Z.mod_small. lia.
Qed.

(** C7.  [8XY5] and [8XY7] on any state of the right shape, for all
    register indices: [VF] ends as the no-borrow flag of the operands as
    they were before the instruction, also when [X] or [Y] is [0xF] (the
    flag is written last and so wins over the difference when [X = 0xF]);
    when [X] is not [0xF], [V[X]] ends as the difference modulo 256. *)
Theorem sub_flag_after_result (instr : instruction_t) (s : Chip8) :
  wf s -> 0 <= X instr < 16 -> 0 <= Y instr < 16 ->
  (N instr = 0x5 ->
     exists s', handle_8_instr instr s = Done s' /\
       getV s' 0xF = (if getV s (Y instr) <=? getV s (X instr) then 1 else 0) /\
       (X instr <> 0xF ->
          getV s' (X instr) = (getV s (X instr) - getV s (Y instr)) mod 256)) /\
  (N instr = 0x7 ->
     exists s', handle_8_instr instr s = Done s' /\
       getV s' 0xF = (if getV s (X instr) <=? getV s (Y instr) then 1 else 0) /\
       (X instr <> 0xF ->
          getV s' (X instr) = (getV s (Y instr) - getV s (X instr)) mod 256)).
Proof.
  intros Hwf HX HY.
  pose proof (shape_V s (wf_shape s Hwf)) as Hlen.
  pose proof (getV_byte s (X instr) Hwf HX) as Hx.
  pose proof (getV_byte s (Y instr) Hwf HY) as Hy.
  split; intros HN; unfold handle_8_instr; rewrite HN; cbv zeta;
    eexists; (split; [reflexivity |]).
  - rewrite !getV_setV by (rewrite ?length_V_setV; done || lia).
    rewrite !Z.eqb_refl.
    rewrite sub_no_borrow by done. split; [done |].
    intros Hne. destruct (Z.eqb_spec 15 (X instr)); [lia | reflexivity].
  - rewrite !getV_setV by (rewrite ?length_V_setV; done || lia).
    rewrite !Z.eqb_refl.
    split.
    + destruct (Z.eqb_spec (X instr) (Y instr)) as [Heq | Hne].
      * rewrite Heq, Z.sub_diag. change (u8 0) with 0.
        rewrite Z.leb_refl. reflexivity.
      * rewrite sub_no_borrow by done. reflexivity.
    + intros Hne. destruct (Z.eqb_spec 15 (X instr)); [lia | reflexivity].
Qed.

Lemma sub_flag_after_result_witness :
  exists s', handle_8_instr (decode 0x8F15) (machine 0 (seqZ 1 16)) = Done s' /\
    getV s' 0xF = 1.
Proof.
  destruct (sub_flag_after_result (decode 0x8F15) (machine 0 (seqZ 1 16)))
    as [H5 _];
    [ vm_compute; reflexivity
    | vm_compute; split; [discriminate | reflexivity]
    | vm_compute; split; [discriminate | reflexivity] |].
  destruct (H5 eq_refl) as (s' & Hrun & Hflag & _).
  exists s'. split; [exact Hrun | exact Hflag].
Defined.

(** ** Encodings outside the instruction set *)

Ltac case_literal z :=
  destruct z as [| p | p]; try reflexivity; try lia;
  repeat (match goal with
          | |- context [match ?q with xH => _ | xO _ => _ | xI _ => _ end] =>
              destruct q; try reflexivity; try lia
          end).

Lemma handle_0_default instr s :
  NNN instr <> 0x0E0 -> NNN instr <> 0x0EE ->
  handle_0_instr instr s = Fault unreachable_reached.
Proof.
  intros H1 H2. unfold handle_0_instr.
  generalize dependent (NNN instr). intros z H1 H2. case_literal z.
Qed.

Lemma handle_8_default instr s :
  0 <= N instr < 16 -> ~ N instr <= 0x7 -> N instr <> 0xE ->
  handle_8_instr instr s = Fault unreachable_reached.
Proof.
  intros Hr H1 H2. unfold handle_8_instr.
  generalize dependent (N instr). intros z Hr H1 H2. case_literal z.
Qed.

Lemma handle_E_default instr s :
  NN instr <> 0x9E -> NN instr <> 0xA1 ->
  handle_E_instr instr s = Fault unreachable_reached.
Proof.
  intros H1 H2. unfold handle_E_instr.
  generalize dependent (NN instr). intros z H1 H2. case_literal z.
Qed.

(** C5, refuted as stated.  The word at [0x200] of a machine without a
    program is [0x0000], family 0 with [NNN = 0]: the step runs into
    [std::unreachable()], which is undefined behaviour and no failure a
    caller could observe; [00EE] on the empty stack is [top()] of an empty
    [std::stack], undefined as well. *)
Lemma invalid_instruction_is_not_reported :
  outside_instruction_set 0x0000 = true /\
  cpu_next_instr 0 (machine 0 zero_regs) = Fault unreachable_reached /\
  ~ reportable_failure (cpu_next_instr 0 (machine 0 zero_regs)) /\
  stack (machine_with [0x00; 0xEE] 0 zero_regs) = [] /\
  ~ reportable_failure (cpu_next_instr 0 (machine_with [0x00; 0xEE] 0 zero_regs)).
Proof.
  split; [reflexivity |]. split; [vm_compute; reflexivity |].
  split; [| split; [reflexivity |]].
  - intros (f & Hf & Hub & _).
    assert (f = unreachable_reached) as ->
      by (vm_compute in Hf; congruence).
    discriminate Hub.
  - intros (f & Hf & Hub & _).
    assert (f = empty_stack_top) as ->
      by (vm_compute in Hf; congruence).
    discriminate Hub.
Qed.

(** C5, amended.  For every fetched word outside the instruction set in
    the families 0, 8 and E the step reaches [std::unreachable()], and
    [00EE] on an empty stack calls [top()] on it; both are undefined
    behaviour in C++: the step has no error result, and nothing about what
    happens next is promised. *)
Theorem invalid_instruction_reaches_unreachable (rnd : Z) (s s1 : Chip8) (w : Z) :
  fetch s = Done (w, s1) ->
  (outside_instruction_set w = true ->
     cpu_next_instr rnd s = Fault unreachable_reached) /\
  (w = 0x00EE -> stack s = [] ->
     cpu_next_instr rnd s = Fault empty_stack_top) /\
  undefined_behaviour unreachable_reached = true /\
  undefined_behaviour empty_stack_top = true.
Proof.
  intros Hfetch. unfold cpu_next_instr. rewrite Hfetch. simpl.
  split; [| split; [| split; reflexivity]].
  - unfold outside_instruction_set, dispatch.
    rewrite !orb_true_iff, !andb_true_iff, !negb_true_iff, !Z.eqb_eq,
      !Z.eqb_neq, orb_false_iff, Z.leb_gt, Z.eqb_neq.
    intros [[[[Hf H1] H2] | [Hf [H1 H2]]] | [[Hf H1] H2]]; rewrite Hf.
    + by apply handle_0_default.
    + apply handle_8_default; [apply field_N_range | lia | done].
    + by apply handle_E_default.
  - intros -> Hstack. unfold dispatch. simpl.
    assert (stack s1 = stack s) as Hsame.
    { unfold fetch in Hfetch.
      destruct (ram_get s (PC s)) as [hi | f]; [simpl in Hfetch | discriminate].
      destruct (ram_get (with_PC (u16 (PC s + 1)) s) (u16 (PC s + 1)))
        as [lo | f]; [simpl in Hfetch | discriminate].
      injection Hfetch as _ <-. reflexivity. }
    unfold handle_0_instr. simpl. by rewrite Hsame, Hstack.
Qed.

Lemma invalid_instruction_reaches_unreachable_witness :
  fetch (machine_with [0x8A; 0xB9] 0 zero_regs)
    = Done (0x8AB9, with_PC 0x202 (machine_with [0x8A; 0xB9] 0 zero_regs)) /\
  outside_instruction_set 0x8AB9 = true /\
  cpu_next_instr 0 (machine_with [0x8A; 0xB9] 0 zero_regs) = Fault unreachable_reached.
Proof.
  assert (fetch (machine_with [0x8A; 0xB9] 0 zero_regs)
    = Done (0x8AB9, with_PC 0x202 (machine_with [0x8A; 0xB9] 0 zero_regs))) as Hfetch
    by (vm_compute; reflexivity).
  split; [exact Hfetch |]. split; [reflexivity |].
  destruct (invalid_instruction_reaches_unreachable 0 _ _ _ Hfetch) as [Hbad _].
  apply Hbad. reflexivity.
Defined.

(** ** [FX0A]: waiting for a key *)

Lemma bitset_test_in_range (b : list bool) (pos : Z) :
  0 <= pos < Z.of_nat (length b) -> bitset_test b pos = Done (b !!! Z.to_nat pos).
Proof.
  intros Hpos. unfold bitset_test.
  destruct (Z.leb_spec 0 pos); [| lia].
  destruct (Z.ltb_spec pos (Z.of_nat (length b))); [done | lia].
Qed.

Lemma scan_keys_none (idx : list Z) (kb : list bool) :
  (forall i, i ∈ idx -> 0 <= i < Z.of_nat (length kb) /\ kb !!! Z.to_nat i = false) ->
  scan_keys idx kb = Done None.
Proof.
  induction idx as [| i rest IH]; intros Hall; [done |]. simpl.
  destruct (Hall i) as [Hi Hoff]; [left |].
  rewrite bitset_test_in_range by done. simpl. rewrite Hoff.
  apply IH. intros j Hj. apply Hall. by right.
Qed.

Lemma scan_keys_first (before after : list Z) (k : Z) (kb : list bool) :
  (forall i, i ∈ before -> 0 <= i < Z.of_nat (length kb) /\ kb !!! Z.to_nat i = false) ->
  0 <= k < Z.of_nat (length kb) -> kb !!! Z.to_nat k = true ->
  scan_keys (before ++ k :: after) kb = Done (Some k).
Proof.
  intros Hall Hk Hon. induction before as [| i rest IH]; simpl.
  - rewrite bitset_test_in_range by done. simpl. by rewrite Hon.
  - destruct (Hall i) as [Hi Hoff]; [left |].
    rewrite bitset_test_in_range by done. simpl. rewrite Hoff.
    apply IH. intros j Hj. apply Hall. by right.
Qed.

(** Below any bound, either some key is the lowest pressed one or no key
    is pressed. *)
Lemma lowest_pressed_or_none (s : Chip8) (n : nat) :
  (exists k, 0 <= k < Z.of_nat n /\ pressed s k = true /\
     forall j, 0 <= j < k -> pressed s j = false)
  \/ (forall j, 0 <= j < Z.of_nat n -> pressed s j = false).
Proof.
  induction n as [| n [(k & Hk & Hon & Hlow) | Hnone]].
  - right. intros j Hj. lia.
  - left. exists k. split; [lia | done].
  - destruct (pressed s (Z.of_nat n)) eqn:Hn.
    + left. exists (Z.of_nat n). split; [lia |]. split; [done |].
      intros j Hj. apply Hnone. lia.
    + right. intros j Hj.
      destruct (decide (j = Z.of_nat n)) as [-> | Hne]; [done |].
      apply Hnone. lia.
Qed.

(** The word assembled by the fetch from the bytes [0xF0 + x] and [0x0A]. *)
Lemma FX0A_word (x : Z) :
  0 <= x < 16 ->
  let w := u16 (Z.lor (u16 (Z.shiftl (0xF0 + x) 8)) 0x0A) in
  Z.shiftr w 12 = 0xF /\ X (decode w) = x /\ NN (decode w) = 0x0A.
Proof.
  intros Hx.
  assert (x = 0 \/ x = 1 \/ x = 2 \/ x = 3 \/ x = 4 \/ x = 5 \/ x = 6 \/ x = 7 \/
          x = 8 \/ x = 9 \/ x = 10 \/ x = 11 \/ x = 12 \/ x = 13 \/ x = 14 \/ x = 15)
    as Hcases by lia.
  repeat (destruct Hcases as [-> | Hcases]; [by vm_compute |]).
  subst x. by vm_compute.
Qed.

Section FX0A.
Variables (rnd : Z) (s : Chip8) (x : Z).
Hypothesis Hwf : wf s.
Hypothesis Hx : 0 <= x < 16.
Hypothesis Hpc : PC s + 1 < 4096.
Hypothesis Hhi : ram s !!! Z.to_nat (PC s) = 0xF0 + x.
Hypothesis Hlo : ram s !!! Z.to_nat (PC s + 1) = 0x0A.

Lemma FX0A_fetch :
  fetch s = Done (u16 (Z.lor (u16 (Z.shiftl (0xF0 + x) 8)) 0x0A),
                  with_PC (PC s + 2) s).
Proof using Hwf Hpc Hhi Hlo.
  destruct (wf_shape s Hwf) as [Hram _ HPC _ _ _ _ _ _ _].
  unfold fetch, ram_get, array_get. simpl. rewrite Hram.
  assert (u16 (PC s + 1) = PC s + 1) as -> by (apply Z.mod_small; lia).
  assert (u16 (PC s + 1 + 1) = PC s + 2) as ->
    by (unfold u16; rewrite Z.mod_small by lia; lia).
  destruct (Z.leb_spec 0 (PC s)); [| lia].
  destruct (Z.ltb_spec (PC s) (Z.of_nat 4096)); [| lia].
  destruct (Z.leb_spec 0 (PC s + 1)); [| lia].
  destruct (Z.ltb_spec (PC s + 1) (Z.of_nat 4096)); [| lia].
  simpl. by rewrite Hhi, Hlo.
Qed.

Lemma FX0A_step :
  cpu_next_instr rnd s =
    (k <- scan_keys (seqZ 0 KEYBOARD_SIZE) (keyboard s) ;;
     match k with
     | Some i => Done (setV x i (with_PC (PC s + 2) s))
     | None => Done (with_PC (u16 (PC s + 2 - 2)) (with_PC (PC s + 2) s))
     end).
Proof using Hwf Hx Hpc Hhi Hlo.
  unfold cpu_next_instr. rewrite FX0A_fetch. simpl.
  destruct (FX0A_word x Hx) as (Hfam & HX & HNN). cbv zeta in Hfam, HX, HNN.
  unfold dispatch. rewrite Hfam. unfold handle_F_instr. rewrite HNN, HX.
  reflexivity.
Qed.
End FX0A.

(** C10.  A step that fetches [FX0A]: with no key pressed it gives back
    the state it started from, [PC] included, so any number of further
    steps on an empty keypad do the same; with some key pressed it stores
    the lowest pressed key in [V[X]] and leaves [PC] two past the
    instruction. *)
Theorem FX0A_waits_or_stores_lowest_key (s : Chip8) (x : Z) :
  wf s -> 0 <= x < 16 -> PC s + 1 < 4096 ->
  ram s !!! Z.to_nat (PC s) = 0xF0 + x ->
  ram s !!! Z.to_nat (PC s + 1) = 0x0A ->
  ((forall i, 0 <= i < 16 -> pressed s i = false) ->
     (forall rnd, cpu_next_instr rnd s = Done s) /\
     (forall rnds, run rnds s = Done s)) /\
  ((exists i, 0 <= i < 16 /\ pressed s i = true) ->
     exists k, 0 <= k < 16 /\ pressed s k = true /\
       (forall j, 0 <= j < k -> pressed s j = false) /\
       forall rnd, exists s', cpu_next_instr rnd s = Done s' /\
         getV s' x = k /\ PC s' = PC s + 2 /\
         s' = setV x k (with_PC (PC s + 2) s)).
Proof.
  intros Hwf Hx Hpc Hhi Hlo.
  destruct (wf_shape s Hwf) as [_ _ HPC _ HV _ _ _ _ Hkb].
  split.
  - intros Hnone.
    assert (forall rnd, cpu_next_instr rnd s = Done s) as Hstep.
    { intros rnd. rewrite (FX0A_step rnd s x) by done.
      rewrite scan_keys_none.
      - simpl. f_equal. replace (PC s + 2 - 2) with (PC s) by lia.
        unfold u16. rewrite Z.mod_small by lia. by destruct s.
      - intros i Hi%elem_of_seqZ. unfold KEYBOARD_SIZE in Hi.
        rewrite Hkb. split; [lia |]. apply Hnone. lia. }
    split; [done |].
    induction rnds as [| rnd rest IH]; [done |].
    simpl. rewrite Hstep. simpl. exact IH.
  - intros (i & Hi & Hon).
    destruct (lowest_pressed_or_none s 16) as [(k & Hk & Hkon & Hlow) | Hnone].
    + exists k. split; [lia |]. split; [done |]. split; [done |].
      intros rnd. eexists. split.
      * rewrite (FX0A_step rnd s x) by done.
        assert (seqZ 0 KEYBOARD_SIZE = seqZ 0 k ++ k :: seqZ (k + 1) (15 - k)) as ->.
        { unfold KEYBOARD_SIZE. replace 16 with (k + (16 - k)) by lia.
          rewrite seqZ_app by lia. f_equal.
          rewrite seqZ_cons by lia. f_equal. f_equal; lia. }
        rewrite scan_keys_first; [reflexivity | | rewrite Hkb; lia | done].
        intros j Hj%elem_of_seqZ. rewrite Hkb. split; [lia |]. apply Hlow. lia.
      * split; [| done]. rewrite getV_setV by (done || lia).
        by rewrite Z.eqb_refl.
    + rewrite Hnone in Hon by lia. discriminate.
Qed.

Lemma FX0A_waits_or_stores_lowest_key_witness :
  let s := machine_with [0xF3; 0x0A] 0 zero_regs in
  let s2 := with_keyboard (<[9%nat := true]> (<[4%nat := true]> (keyboard s))) s in
  wf s /\ wf s2 /\ run [0; 1; 2] s = Done s /\
  exists s', cpu_next_instr 0 s2 = Done s' /\ PC s' = PC s2 + 2.
Proof.
  cbv zeta.
  set (s := machine_with [0xF3; 0x0A] 0 zero_regs).
  set (s2 := with_keyboard (<[9%nat := true]> (<[4%nat := true]> (keyboard s))) s).
  assert (wf s) as Hwf by (vm_compute; reflexivity).
  assert (wf s2) as Hwf2 by (vm_compute; reflexivity).
  split; [exact Hwf |]. split; [exact Hwf2 |]. split.
  - destruct (FX0A_waits_or_stores_lowest_key s 3) as [Hwait _];
      [ exact Hwf | lia | vm_compute; reflexivity | vm_compute; reflexivity
      | vm_compute; reflexivity |].
    apply Hwait. intros i Hi.
    assert (i = 0 \/ i = 1 \/ i = 2 \/ i = 3 \/ i = 4 \/ i = 5 \/ i = 6 \/ i = 7 \/
            i = 8 \/ i = 9 \/ i = 10 \/ i = 11 \/ i = 12 \/ i = 13 \/ i = 14 \/ i = 15)
      as Hcases by lia.
    repeat (destruct Hcases as [-> | Hcases]; [reflexivity |]).
    subst i. reflexivity.
  - destruct (FX0A_waits_or_stores_lowest_key s2 3) as [_ Hkey];
      [ exact Hwf2 | lia | vm_compute; reflexivity | vm_compute; reflexivity
      | vm_compute; reflexivity |].
    destruct Hkey as (k & _ & _ & _ & Hstep).
    + exists 9. split; [lia | reflexivity].
    + destruct (Hstep 0) as (s' & Hrun & _ & Hpc' & _).
      exists s'. split; [exact Hrun | exact Hpc'].
Defined.

(** ** Loops *)

Lemma bind_all_nil {A B} (f : A -> list B) (l : list A) :
  (forall a, a ∈ l -> f a = []) -> mbind f l = [].
Proof.
  induction l as [| a l IH]; intros Hall; [done |].
  rewrite bind_cons, (Hall a) by left. simpl. apply IH.
  intros b Hb. apply Hall. by right.
Qed.

(** A counting loop whose body replays a list of pure updates: the loop
    equals the fold of the updates of the iterations it runs.  Once the
    exit test fails it fails for every later counter, so leaving the loop
    and skipping the remaining iterations are the same. *)
Lemma for_loop_fold {St U : Type} (upd : U -> St -> St) (Inv : St -> Prop)
    (cond : Z -> bool) (body : Z -> St -> outcome St) (todo : Z -> list U)
    (n : nat) (a : Z) (s : St) :
  monotone_exit cond ->
  (forall i s, a <= i < a + Z.of_nat n -> cond i = true -> Inv s ->
     body i s = Done (foldl (fun s u => upd u s) s (todo i))
     /\ Inv (foldl (fun s u => upd u s) s (todo i))) ->
  Inv s ->
  let final := foldl (fun s u => upd u s) s
                 (mbind (fun i => if cond i then todo i else []) (seqZ a (Z.of_nat n))) in
  for_loop (seqZ a (Z.of_nat n)) cond body s = Done final /\ Inv final.
Proof.
  intros Hmono. revert a s. induction n as [| n IH]; intros a s Hbody Hinv.
  - by rewrite seqZ_nil by lia.
  - rewrite seqZ_cons by lia. replace (Z.pred (Z.of_nat (S n))) with (Z.of_nat n) by lia.
    cbv zeta. rewrite bind_cons. simpl for_loop.
    destruct (cond a) eqn:Hc.
    + destruct (Hbody a s) as [Hrun Hinv1]; [lia | done | done |].
      rewrite Hrun. simpl bind. rewrite foldl_app.
      apply IH; [| done].
      intros i s2 Hi. apply Hbody. lia.
    + rewrite bind_all_nil; [done |].
      intros i Hi%elem_of_seqZ. rewrite (Hmono a i); [done | lia | done].
Qed.

(** A loop that runs into a fault: the iterations before [k] complete, the
    one at [k] faults. *)
Lemma for_loop_fault {St : Type} (Inv : St -> Prop) (cond : Z -> bool)
    (body : Z -> St -> outcome St) (f : fault) (a k : Z) (n : nat) (s : St) :
  a <= k < a + Z.of_nat n ->
  (forall i, a <= i <= k -> cond i = true) ->
  (forall i s, a <= i < k -> Inv s -> exists s', body i s = Done s' /\ Inv s') ->
  (forall s, Inv s -> body k s = Fault f) ->
  Inv s ->
  for_loop (seqZ a (Z.of_nat n)) cond body s = Fault f.
Proof.
  revert a s. induction n as [| n IH]; intros a s Hk Hcond Hpre Hbad Hinv; [lia |].
  rewrite seqZ_cons by lia. replace (Z.pred (Z.of_nat (S n))) with (Z.of_nat n) by lia.
  simpl. rewrite Hcond by lia.
  destruct (decide (a = k)) as [-> | Hne].
  - by rewrite Hbad.
  - destruct (Hpre a s) as (s' & Hrun & Hinv'); [lia | done |].
    rewrite Hrun. simpl. apply IH; try done; [lia | |].
    + intros i Hi. apply Hcond. lia.
    + intros i s2 Hi. apply Hpre. lia.
Qed.

(** ** Sprite drawing as a list of plotted pixels *)

Lemma same_frame_refl s : same_frame s s.
Proof. by repeat split. Qed.

Lemma plot_same_frame s0 s p : same_frame s0 s -> same_frame s0 (plot p s).
Proof.
  intros (Hram & HI & Hscr). unfold plot, same_frame.
  destruct (screen s !!! Z.to_nat p); simpl; rewrite length_insert; done.
Qed.

Lemma plots_same_frame s0 ps s : same_frame s0 s -> same_frame s0 (plots ps s).
Proof.
  revert s. induction ps as [| p ps IH]; intros s Hs; [done |].
  apply IH. by apply plot_same_frame.
Qed.

Lemma bitset_flip_in_range (b : list bool) (pos : Z) :
  0 <= pos < Z.of_nat (length b) ->
  bitset_flip b pos = Done (<[Z.to_nat pos := negb (b !!! Z.to_nat pos)]> b).
Proof.
  intros Hpos. unfold bitset_flip.
  destruct (Z.leb_spec 0 pos); [| lia].
  destruct (Z.ltb_spec pos (Z.of_nat (length b))); [done | lia].
Qed.

Lemma draw_bit_plots (x y r b c : Z) (s : Chip8) :
  0 <= (y + r) * 64 + x + c < Z.of_nat (length (screen s)) ->
  draw_bit x y r b c s =
    Done (plots (if Z.testbit b (7 - c) then [(y + r) * 64 + x + c] else []) s).
Proof.
  intros Hpix. unfold draw_bit. destruct (Z.testbit b (7 - c)); [| done].
  rewrite bitset_test_in_range by done. simpl.
  rewrite bitset_flip_in_range; [done |].
  by destruct (screen s !!! Z.to_nat ((y + r) * 64 + x + c)).
Qed.

Lemma exit_at_bound (k bound : Z) : monotone_exit (fun i => k + i <? bound).
Proof.
  intros i j Hij Hi. apply Z.ltb_ge. apply Z.ltb_ge in Hi. lia.
Qed.

Lemma draw_row_plots (s0 : Chip8) (x y r : Z) (s : Chip8) :
  length (screen s0) = 2048%nat -> same_frame s0 s ->
  0 <= x < 64 -> 0 <= y + r < 32 ->
  0 <= I s0 + r < Z.of_nat (length (ram s0)) ->
  draw_row x y r s
    = Done (plots (row_pixels x y r (ram s0 !!! Z.to_nat (I s0 + r))) s)
  /\ same_frame s0 (plots (row_pixels x y r (ram s0 !!! Z.to_nat (I s0 + r))) s).
Proof.
  intros Hscr Hs Hx Hy Hmem. pose proof Hs as (Hram & HI & Hlen).
  unfold draw_row, ram_get, array_get. rewrite Hram, HI.
  destruct (Z.leb_spec 0 (I s0 + r)); [| lia].
  destruct (Z.ltb_spec (I s0 + r) (Z.of_nat (length (ram s0)))); [| lia].
  simpl.
  apply (for_loop_fold plot (same_frame s0) (fun c => x + c <? 64) _
           (fun c => if Z.testbit (ram s0 !!! Z.to_nat (I s0 + r)) (7 - c)
                     then [(y + r) * 64 + x + c] else []) 8 0 s).
  - apply exit_at_bound.
  - intros c s2 Hc Hin Hs2. apply Z.ltb_lt in Hin.
    destruct Hs2 as (Hram2 & HI2 & Hlen2).
    rewrite draw_bit_plots by (rewrite Hlen2, Hscr; lia).
    split; [done |]. by apply plots_same_frame.
  - done.
Qed.

Lemma draw_rows_plots (n : nat) (x y : Z) (s : Chip8) :
  length (screen s) = 2048%nat ->
  0 <= x < 64 -> 0 <= y < 32 -> 0 <= I s ->
  (forall r, 0 <= r < Z.of_nat n -> y + r < 32 ->
     I s + r < Z.of_nat (length (ram s))) ->
  for_loop (seqZ 0 (Z.of_nat n)) (fun r => y + r <? 32) (draw_row x y) s
    = Done (plots (sprite_pixels (ram s) (I s) x y (Z.of_nat n)) s).
Proof.
  intros Hscr Hx Hy HI Hmem.
  apply (for_loop_fold plot (same_frame s) (fun r => y + r <? 32) _
           (fun r => row_pixels x y r (ram s !!! Z.to_nat (I s + r))) n 0 s).
  - apply exit_at_bound.
  - intros r s2 Hr Hin Hs2. apply Z.ltb_lt in Hin.
    apply draw_row_plots; try done; [lia |].
    split; [lia |]. apply Hmem; lia.
  - apply same_frame_refl.
Qed.

Lemma existsb_ext_elem {A} (f g : A -> bool) (l : list A) :
  (forall a, a ∈ l -> f a = g a) -> existsb f l = existsb g l.
Proof.
  induction l as [| a l IH]; intros Hfg; [done |]. simpl.
  rewrite (Hfg a) by left. f_equal. apply IH. intros b Hb. apply Hfg. by right.
Qed.

Lemma existsb_elem {A} (f : A -> bool) (l : list A) :
  existsb f l = true <-> exists a, a ∈ l /\ f a = true.
Proof.
  rewrite existsb_exists. split; intros (a & Ha & Hf); exists a; split;
    try done; by apply list_elem_of_In.
Qed.

Lemma plot_screen (p : Z) (s : Chip8) :
  screen (plot p s) = <[Z.to_nat p := negb (pixel s p)]> (screen s).
Proof.
  unfold plot, pixel.
  destruct (screen s !!! Z.to_nat p) eqn:E; simpl; by rewrite ?E.
Qed.

Lemma plot_V (p : Z) (s : Chip8) :
  V (plot p s) = if pixel s p then <[15%nat := 1]> (V s) else V s.
Proof. unfold plot, pixel. by destruct (screen s !!! Z.to_nat p). Qed.

Lemma plot_rest (p : Z) (s : Chip8) :
  plot p s = with_screen (screen (plot p s)) (with_V (V (plot p s)) s).
Proof. unfold plot. destruct (screen s !!! Z.to_nat p); by destruct s. Qed.

(** The effect of a list of plots on distinct pixels of the screen: each
    plotted pixel is flipped once, the flag is raised exactly when one of
    them was lit before, and nothing but [screen] and [V] moves. *)
Lemma plots_effect (ps : list Z) (s : Chip8) :
  NoDup ps ->
  (forall p, p ∈ ps -> 0 <= p < Z.of_nat (length (screen s))) ->
  (forall q, 0 <= q ->
     pixel (plots ps s) q = xorb (pixel s q) (bool_decide (q ∈ ps))) /\
  V (plots ps s) = (if existsb (pixel s) ps then <[15%nat := 1]> (V s) else V s) /\
  length (screen (plots ps s)) = length (screen s) /\
  plots ps s = with_screen (screen (plots ps s)) (with_V (V (plots ps s)) s).
Proof.
  revert s. induction ps as [| p ps IH]; intros s Hnd Hin.
  - repeat split; [| by destruct s].
    intros q _. rewrite bool_decide_eq_false_2 by apply not_elem_of_nil.
    by rewrite xorb_false_r.
  - apply NoDup_cons in Hnd as [Hp Hnd].
    assert (0 <= p < Z.of_nat (length (screen s))) as Hpr by (apply Hin; left).
    assert (length (screen (plot p s)) = length (screen s)) as Hlen1
      by (rewrite plot_screen; apply length_insert).
    destruct (IH (plot p s) Hnd) as (Hpix & HV & Hlen & Hrest).
    { intros p' Hp'. rewrite Hlen1. apply Hin. by right. }
    assert (forall q, 0 <= q ->
              pixel (plot p s) q = if decide (q = p) then negb (pixel s q) else pixel s q)
      as Hone.
    { intros q Hq. unfold pixel at 1. rewrite plot_screen.
      destruct (decide (q = p)) as [-> | Hne].
      - rewrite list_lookup_total_insert_eq by lia. done.
      - rewrite list_lookup_total_insert_ne by lia. done. }
    change (plots (p :: ps) s) with (plots ps (plot p s)).
    split; [| split; [| split]].
    + intros q Hq. rewrite Hpix, Hone by done.
      destruct (decide (q = p)) as [-> | Hne].
      * rewrite (bool_decide_eq_false_2 (p ∈ ps)) by done.
        rewrite (bool_decide_eq_true_2 (p ∈ p :: ps)) by left.
        by destruct (pixel s p).
      * destruct (decide (q ∈ ps)) as [Hq' | Hq'].
        -- rewrite !bool_decide_eq_true_2; [done | by right | done].
        -- rewrite !bool_decide_eq_false_2; [done | | done].
           intros [? | ?]%elem_of_cons; done.
    + rewrite HV. simpl existsb.
      rewrite (existsb_ext_elem (pixel (plot p s)) (pixel s)).
      * rewrite plot_V. destruct (pixel s p), (existsb (pixel s) ps); simpl; try done.
        apply list_insert_insert_eq.
      * intros q Hq. rewrite Hone by (apply Hin; by right).
        rewrite decide_False; [done |]. by intros ->.
    + by rewrite Hlen.
    + etrans; [exact Hrest |]. generalize (plots ps (plot p s)). intros s'.
      rewrite (plot_rest p s). by destruct s.
Qed.

Lemma elem_of_row_pixels (x y r b q : Z) :
  q ∈ row_pixels x y r b <->
  exists c, 0 <= c < 8 /\ x + c < 64 /\ Z.testbit b (7 - c) = true /\
    q = (y + r) * 64 + x + c.
Proof.
  unfold row_pixels. rewrite list_elem_of_bind. split.
  - intros (c & Hq & Hc%elem_of_seqZ). exists c.
    destruct (Z.ltb_spec (x + c) 64); [| by apply elem_of_nil in Hq].
    destruct (Z.testbit b (7 - c)); [| by apply elem_of_nil in Hq].
    apply list_elem_of_singleton in Hq. repeat split; (done || lia).
  - intros (c & Hc & Hx & Hbit & ->). exists c. split; [| apply elem_of_seqZ; lia].
    destruct (Z.ltb_spec (x + c) 64); [| lia]. rewrite Hbit.
    by apply list_elem_of_singleton.
Qed.

Lemma elem_of_sprite_pixels (m : list Z) (base x y n q : Z) :
  q ∈ sprite_pixels m base x y n <-> plotted m base x y n q.
Proof.
  unfold sprite_pixels, plotted. rewrite list_elem_of_bind. split.
  - intros (r & Hq & Hr%elem_of_seqZ). exists r.
    destruct (Z.ltb_spec (y + r) 32); [| by apply elem_of_nil in Hq].
    apply elem_of_row_pixels in Hq as (c & Hc & Hx & Hbit & ->).
    exists c. repeat split; (done || lia).
  - intros (r & c & Hr & Hy & Hc & Hx & Hbit & ->). exists r.
    split; [| apply elem_of_seqZ; lia].
    destruct (Z.ltb_spec (y + r) 32); [| lia].
    apply elem_of_row_pixels. by exists c.
Qed.

Lemma NoDup_row_pixels (x y r b : Z) : NoDup (row_pixels x y r b).
Proof.
  unfold row_pixels. apply NoDup_bind; [| | apply NoDup_seqZ].
  - intros c1 c2 q _ _ H1 H2.
    destruct (x + c1 <? 64), (Z.testbit b (7 - c1));
      try (by apply elem_of_nil in H1).
    destruct (x + c2 <? 64), (Z.testbit b (7 - c2));
      try (by apply elem_of_nil in H2).
    apply list_elem_of_singleton in H1, H2. lia.
  - intros c _. destruct (x + c <? 64), (Z.testbit b (7 - c));
      (apply NoDup_nil_2 || apply NoDup_singleton).
Qed.

Lemma NoDup_sprite_pixels (m : list Z) (base x y n : Z) :
  0 <= x -> NoDup (sprite_pixels m base x y n).
Proof.
  intros Hx. unfold sprite_pixels. apply NoDup_bind; [| | apply NoDup_seqZ].
  - intros r1 r2 q _ _ H1 H2.
    destruct (y + r1 <? 32); [| by apply elem_of_nil in H1].
    destruct (y + r2 <? 32); [| by apply elem_of_nil in H2].
    apply elem_of_row_pixels in H1 as (c1 & ? & ? & _ & ->).
    apply elem_of_row_pixels in H2 as (c2 & ? & ? & _ & ?). lia.
  - intros r _. destruct (y + r <? 32); [apply NoDup_row_pixels | apply NoDup_nil_2].
Qed.

Lemma plotted_on_screen (m : list Z) (base x y n q : Z) :
  0 <= x -> 0 <= y -> plotted m base x y n q -> 0 <= q < 2048.
Proof. intros Hx Hy (r & c & ? & ? & ? & ? & _ & ->). lia. Qed.

(** ** [DXYN] *)

Lemma elem_of_drawn_pixels (instr : instruction_t) (s : Chip8) (q : Z) :
  q ∈ drawn_pixels instr s <-> drawn instr s q.
Proof. apply elem_of_sprite_pixels. Qed.

(** What a draw that stays inside [ram] does: every drawn pixel is
    flipped, [V[0xF]] ends as 1 when a drawn pixel was lit before and as 0
    otherwise, and only [screen] and [V[0xF]] change. *)
Lemma handle_D_effect (instr : instruction_t) (s : Chip8) :
  length (screen s) = 2048%nat -> length (V s) = 16%nat -> 0 <= I s ->
  rows_in_ram instr s ->
  exists s', handle_D_instr instr s = Done s' /\
    (forall q, 0 <= q ->
       pixel s' q = xorb (pixel s q) (bool_decide (q ∈ drawn_pixels instr s))) /\
    V s' = <[15%nat := of_bool (existsb (pixel s) (drawn_pixels instr s))]> (V s) /\
    length (screen s') = 2048%nat /\
    s' = with_screen (screen s') (with_V (V s') s).
Proof.
  intros Hscr HV HI Hmem.
  assert (0 <= origin_x instr s < 64) as Hx by (apply Z.mod_pos_bound; lia).
  assert (0 <= origin_y instr s < 32) as Hy by (apply Z.mod_pos_bound; lia).
  set (s0 := setV 0xF 0 s).
  pose proof (NoDup_sprite_pixels (ram s) (I s) (origin_x instr s)
                (origin_y instr s) (N instr) (proj1 Hx)) as Hnd.
  destruct (plots_effect (drawn_pixels instr s) s0 Hnd) as (Hpix & HVs & Hlen & Hrest).
  { intros p Hp%elem_of_sprite_pixels.
    apply plotted_on_screen in Hp; [| lia | lia].
    change (screen s0) with (screen s). rewrite Hscr. lia. }
  exists (plots (drawn_pixels instr s) s0). split; [| split; [| split; [| split]]].
  - unfold handle_D_instr. fold (origin_x instr s) (origin_y instr s). fold s0.
    destruct (Z.le_gt_cases 0 (N instr)) as [Hn | Hn].
    + rewrite <- (Z2Nat.id (N instr)) at 1 by done.
      rewrite (draw_rows_plots _ _ _ s0); try done.
      * by rewrite Z2Nat.id by done.
      * intros r Hr. rewrite Z2Nat.id in Hr by done. by apply Hmem.
    + unfold drawn_pixels, sprite_pixels. by rewrite seqZ_nil by lia.
  - intros q Hq. by rewrite Hpix.
  - rewrite HVs. change (V s0) with (<[15%nat := 0]> (V s)).
    rewrite list_insert_insert_eq.
    change (pixel s0) with (pixel s).
    by destruct (existsb (pixel s) (drawn_pixels instr s)).
  - by rewrite Hlen.
  - rewrite Hrest at 1. by destruct s.
Qed.

(** ** The index register as an unmasked address *)

Lemma for_loop_done {St : Type} (Inv : St -> Prop) (cond : Z -> bool)
    (body : Z -> St -> outcome St) (idx : list Z) (s : St) :
  (forall i s, i ∈ idx -> Inv s -> exists s', body i s = Done s' /\ Inv s') ->
  Inv s ->
  exists s', for_loop idx cond body s = Done s' /\ Inv s'.
Proof.
  revert s. induction idx as [| i idx IH]; intros s Hbody Hinv; [by exists s |].
  simpl. destruct (cond i); [| by exists s].
  destruct (Hbody i s) as (s1 & Hrun & Hinv1); [left | done |].
  rewrite Hrun. simpl. apply IH; [| done].
  intros j s2 Hj. apply Hbody. by right.
Qed.

Lemma array_get_inside (a : list Z) (i : Z) :
  0 <= i < Z.of_nat (length a) -> array_get a i = Done (a !!! Z.to_nat i).
Proof.
  intros Hi. unfold array_get.
  destruct (Z.leb_spec 0 i); [| lia].
  destruct (Z.ltb_spec i (Z.of_nat (length a))); [done | lia].
Qed.

Lemma array_get_outside (a : list Z) (i : Z) :
  Z.of_nat (length a) <= i -> array_get a i = Fault array_out_of_bounds.
Proof.
  intros Hi. unfold array_get.
  destruct (Z.ltb_spec i (Z.of_nat (length a))); [lia |]. by rewrite andb_false_r.
Qed.

Lemma ram_set_inside (i v : Z) (s : Chip8) :
  0 <= i < Z.of_nat (length (ram s)) ->
  ram_set i v s = Done (with_ram (<[Z.to_nat i := v]> (ram s)) s).
Proof.
  intros Hi. unfold ram_set, array_set.
  destruct (Z.leb_spec 0 i); [| lia].
  destruct (Z.ltb_spec i (Z.of_nat (length (ram s)))); [done | lia].
Qed.

Lemma ram_set_outside (i v : Z) (s : Chip8) :
  Z.of_nat (length (ram s)) <= i -> ram_set i v s = Fault array_out_of_bounds.
Proof.
  intros Hi. unfold ram_set, array_set.
  destruct (Z.ltb_spec i (Z.of_nat (length (ram s)))); [lia |]. by rewrite andb_false_r.
Qed.

Lemma FX33_bounds (instr : instruction_t) (s : Chip8) :
  length (ram s) = 4096%nat -> 0 <= I s -> NN instr = 0x33 ->
  (I s + 2 < 4096 -> exists s', handle_F_instr instr s = Done s') /\
  (4096 <= I s + 2 -> handle_F_instr instr s = Fault array_out_of_bounds).
Proof.
  intros Hram HI HNN. unfold handle_F_instr. rewrite HNN. split; intros Hb.
  - rewrite ram_set_inside by (rewrite Hram; lia). simpl.
    rewrite ram_set_inside by (simpl; rewrite length_insert, Hram; lia). simpl.
    rewrite ram_set_inside by (simpl; rewrite !length_insert, Hram; lia).
    by eexists.
  - rewrite ram_set_outside by (rewrite Hram; lia). done.
Qed.

Lemma block_transfer_bounds (body : Z -> Chip8 -> outcome Chip8) (x : Z) (s : Chip8) :
  length (ram s) = 4096%nat -> 0 <= I s -> 0 <= x ->
  (forall i s1, 0 <= i -> same_index s s1 -> I s + i < 4096 ->
     exists s', body i s1 = Done s' /\ same_index s s') ->
  (forall i s1, same_index s s1 -> 4096 <= I s + i ->
     body i s1 = Fault array_out_of_bounds) ->
  (I s + x < 4096 ->
     exists s', for_loop (seqZ 0 (x + 1)) (fun _ => true) body s = Done s') /\
  (4096 <= I s + x ->
     for_loop (seqZ 0 (x + 1)) (fun _ => true) body s = Fault array_out_of_bounds).
Proof.
  intros Hram HI Hx Hin Hout. split; intros Hb.
  - destruct (for_loop_done (same_index s) (fun _ => true) body (seqZ 0 (x + 1)) s)
      as (s' & Hrun & _); [| done | by exists s'].
    intros i s1 Hi%elem_of_seqZ Hs1. apply Hin; (done || lia).
  - rewrite <- (Z2Nat.id (x + 1)) by lia.
    apply (for_loop_fault (same_index s) _ _ _ 0 (Z.max 0 (4096 - I s))); try done.
    + lia.
    + intros i s1 Hi Hs1. apply Hin; (done || lia).
    + intros s1 Hs1. apply Hout; (done || lia).
Qed.

Lemma FX55_bounds (instr : instruction_t) (s : Chip8) :
  length (ram s) = 4096%nat -> 0 <= I s -> 0 <= X instr -> NN instr = 0x55 ->
  (I s + X instr < 4096 -> exists s', handle_F_instr instr s = Done s') /\
  (4096 <= I s + X instr -> handle_F_instr instr s = Fault array_out_of_bounds).
Proof.
  intros Hram HI HX HNN. unfold handle_F_instr. rewrite HNN.
  destruct (block_transfer_bounds store_reg (X instr) s Hram HI HX) as [Hdone Hbad].
  - intros i s1 Hi [Hlen HI1] Hb. unfold store_reg.
    rewrite ram_set_inside by (rewrite Hlen, HI1, Hram; lia).
    eexists. split; [done |]. split; [simpl; by rewrite length_insert | done].
  - intros i s1 [Hlen HI1] Hb. unfold store_reg.
    apply ram_set_outside. rewrite Hlen, HI1, Hram. lia.
  - split; intros Hb.
    + destruct (Hdone Hb) as (s' & ->). by eexists.
    + by rewrite (Hbad Hb).
Qed.

Lemma FX65_bounds (instr : instruction_t) (s : Chip8) :
  length (ram s) = 4096%nat -> 0 <= I s -> 0 <= X instr -> NN instr = 0x65 ->
  (I s + X instr < 4096 -> exists s', handle_F_instr instr s = Done s') /\
  (4096 <= I s + X instr -> handle_F_instr instr s = Fault array_out_of_bounds).
Proof.
  intros Hram HI HX HNN. unfold handle_F_instr. rewrite HNN.
  destruct (block_transfer_bounds load_reg (X instr) s Hram HI HX) as [Hdone Hbad].
  - intros i s1 Hi [Hlen HI1] Hb. unfold load_reg, ram_get.
    rewrite array_get_inside by (rewrite Hlen, HI1, Hram; lia).
    eexists. split; [done |]. by split.
  - intros i s1 [Hlen HI1] Hb. unfold load_reg, ram_get.
    rewrite array_get_outside; [done |]. rewrite Hlen, HI1, Hram. lia.
  - split; intros Hb.
    + destruct (Hdone Hb) as (s' & ->). by eexists.
    + by rewrite (Hbad Hb).
Qed.

Lemma DXYN_bounds (instr : instruction_t) (s : Chip8) :
  length (ram s) = 4096%nat -> length (screen s) = 2048%nat ->
  length (V s) = 16%nat -> 0 <= I s ->
  let rows := Z.min (N instr) (32 - origin_y instr s) in
  (rows <= 0 \/ I s + rows <= 4096 -> exists s', handle_D_instr instr s = Done s') /\
  (0 < rows /\ 4096 < I s + rows ->
     handle_D_instr instr s = Fault array_out_of_bounds).
Proof.
  intros Hram Hscr HV HI rows.
  assert (0 <= origin_x instr s < 64) as Hx by (apply Z.mod_pos_bound; lia).
  assert (0 <= origin_y instr s < 32) as Hy by (apply Z.mod_pos_bound; lia).
  split.
  - intros Hb. destruct (handle_D_effect instr s) as (s' & Hrun & _); try done.
    + intros r Hr Hyr. rewrite Hram. lia.
    + by exists s'.
  - intros [Hrows Hb]. unfold handle_D_instr.
    fold (origin_x instr s) (origin_y instr s).
    set (s0 := setV 0xF 0 s).
    rewrite <- (Z2Nat.id (N instr)) by lia.
    apply (for_loop_fault (same_frame s0) _ _ _ 0 (Z.max 0 (4096 - I s))).
    + lia.
    + intros i Hi. apply Z.ltb_lt. lia.
    + intros r s1 Hr Hs1.
      destruct (draw_row_plots s0 (origin_x instr s) (origin_y instr s) r s1)
        as [Hrun Hframe]; try done; [lia | |].
      * change (ram s0) with (ram s). change (I s0) with (I s). rewrite Hram. lia.
      * eexists. by split.
    + intros s1 (Hram1 & HI1 & _). unfold draw_row, ram_get.
      rewrite array_get_outside; [done |].
      rewrite Hram1, HI1. change (ram s0) with (ram s). change (I s0) with (I s).
      rewrite Hram. lia.
    + apply same_frame_refl.
Qed.

(** C6, refuted as stated.  With [I = 0x1000], one past the 12-bit range,
    each of [FX33], [FX55], [FX65] and [DXYN] indexes [ram] past its end. *)
Lemma index_beyond_ram_is_out_of_bounds :
  wf (machine 0x1000 zero_regs) /\
  handle_F_instr (decode 0xF033) (machine 0x1000 zero_regs) = Fault array_out_of_bounds /\
  handle_F_instr (decode 0xF055) (machine 0x1000 zero_regs) = Fault array_out_of_bounds /\
  handle_F_instr (decode 0xF065) (machine 0x1000 zero_regs) = Fault array_out_of_bounds /\
  handle_D_instr (decode 0xD001) (machine 0x1000 zero_regs) = Fault array_out_of_bounds /\
  cpu_next_instr 0 (machine_with [0xF0; 0x33] 0x1000 zero_regs)
    = Fault array_out_of_bounds.
Proof. repeat split; vm_compute; reflexivity. Qed.

(** C6, amended.  The handlers use [I] as it is, with no mask and no
    check, so whether they stay inside [ram] depends on [I]: [FX33]
    completes when [I + 2 < 4096], [FX55] and [FX65] when [I + X < 4096],
    [DXYN] when the rows it reads ([min N (32 - y)] of them) end by 4096
    or there are none; in every other case the handler indexes [ram] past
    its end, which is undefined behaviour. *)
Theorem memory_opcodes_trust_I (instr : instruction_t) (s : Chip8) :
  wf s -> 0 <= X instr < 16 ->
  (NN instr = 0x33 ->
     (I s + 2 < 4096 -> exists s', handle_F_instr instr s = Done s') /\
     (4096 <= I s + 2 -> handle_F_instr instr s = Fault array_out_of_bounds)) /\
  (NN instr = 0x55 \/ NN instr = 0x65 ->
     (I s + X instr < 4096 -> exists s', handle_F_instr instr s = Done s') /\
     (4096 <= I s + X instr -> handle_F_instr instr s = Fault array_out_of_bounds)) /\
  (let rows := Z.min (N instr) (32 - origin_y instr s) in
   (rows <= 0 \/ I s + rows <= 4096 -> exists s', handle_D_instr instr s = Done s') /\
   (0 < rows /\ 4096 < I s + rows ->
      handle_D_instr instr s = Fault array_out_of_bounds)) /\
  undefined_behaviour array_out_of_bounds = true.
Proof.
  intros Hwf HX.
  destruct (wf_shape s Hwf) as [Hram _ _ HI HV _ _ _ Hscr _].
  split; [| split; [| split; [| reflexivity]]].
  - intros HNN. apply FX33_bounds; (done || lia).
  - intros [HNN | HNN]; [apply FX55_bounds | apply FX65_bounds]; (done || lia).
  - apply DXYN_bounds; (done || lia).
Qed.

Lemma memory_opcodes_trust_I_witness :
  wf (machine 0xFFD zero_regs) /\
  (exists s', handle_F_instr (decode 0xF233) (machine 0xFFD zero_regs) = Done s') /\
  wf (machine 0xFFE zero_regs) /\
  handle_F_instr (decode 0xF233) (machine 0xFFE zero_regs) = Fault array_out_of_bounds.
Proof.
  assert (wf (machine 0xFFD zero_regs)) as Hwf1 by (vm_compute; reflexivity).
  assert (wf (machine 0xFFE zero_regs)) as Hwf2 by (vm_compute; reflexivity).
  split; [exact Hwf1 |]. split; [| split; [exact Hwf2 |]].
  - destruct (memory_opcodes_trust_I (decode 0xF233) (machine 0xFFD zero_regs) Hwf1)
      as [H33 _]; [vm_compute; split; [discriminate | reflexivity] |].
    destruct (H33 eq_refl) as [Hin _]. apply Hin. vm_compute. reflexivity.
  - destruct (memory_opcodes_trust_I (decode 0xF233) (machine 0xFFE zero_regs) Hwf2)
      as [H33 _]; [vm_compute; split; [discriminate | reflexivity] |].
    destruct (H33 eq_refl) as [_ Hout]. apply Hout. vm_compute. discriminate.
Defined.

(** ** Clipping and drawing twice *)

Lemma rows_in_ram_of_bound (instr : instruction_t) (s : Chip8) :
  length (ram s) = 4096%nat ->
  I s + Z.min (N instr) (32 - origin_y instr s) <= 4096 ->
  rows_in_ram instr s.
Proof. intros Hram Hb r Hr Hy. rewrite Hram. lia. Qed.

Lemma getV_flag_value (v : list Z) (b : bool) (s' : Chip8) :
  length v = 16%nat -> V s' = <[15%nat := of_bool b]> v ->
  getV s' 0xF = of_bool b.
Proof.
  intros Hlen HV. unfold getV. rewrite HV.
  apply list_lookup_total_insert_eq. simpl. lia.
Qed.

(** C9.  Every draw that completes is clipped at the right and bottom
    edges, and a draw whose sprite rows lie in [ram] does complete: with
    the origin [(x, y) = (V[X] mod 64, V[Y] mod 32)], a pixel of the screen
    can differ afterwards only in columns [x .. min (x+7) 63] and rows
    [y .. min (y+N-1) 31]; [V[0xF]] ends as 1 exactly when a set sprite bit
    that falls on the screen hits a pixel that was lit, and as 0 otherwise,
    so bits beyond the edges count for nothing. *)
Theorem draw_clips_at_edges (instr : instruction_t) (s : Chip8) :
  wf s ->
  let x := origin_x instr s in
  let y := origin_y instr s in
  (I s + Z.min (N instr) (32 - y) <= 4096 ->
     exists s', handle_D_instr instr s = Done s') /\
  forall s', handle_D_instr instr s = Done s' ->
    length (screen s') = 2048%nat /\
    (forall q, 0 <= q < 2048 ->
       ~ (x <= q mod 64 <= Z.min (x + 7) 63 /\ y <= q / 64 <= Z.min (y + N instr - 1) 31) ->
       pixel s' q = pixel s q) /\
    (getV s' 0xF = 1 <->
       exists r c, 0 <= r < N instr /\ y + r < 32 /\ 0 <= c < 8 /\ x + c < 64 /\
         Z.testbit (ram s !!! Z.to_nat (I s + r)) (7 - c) = true /\
         pixel s ((y + r) * 64 + x + c) = true) /\
    (getV s' 0xF = 0 \/ getV s' 0xF = 1).
Proof.
  intros Hwf x y.
  destruct (wf_shape s Hwf) as [Hram _ _ HI HV _ _ _ Hscr _].
  assert (0 <= x < 64) as Hx by (apply Z.mod_pos_bound; lia).
  assert (0 <= y < 32) as Hy by (apply Z.mod_pos_bound; lia).
  destruct (DXYN_bounds instr s) as [Hdone Hbad]; [done | done | done | lia |].
  fold y in Hdone, Hbad. split; [intros Hmem; apply Hdone; by right |].
  intros s1 Hrun1.
  assert (rows_in_ram instr s) as Hrows.
  { intros r Hr Hyr. fold y in Hyr. rewrite Hram.
    destruct (Z.le_gt_cases (I s + Z.min (N instr) (32 - y)) 4096); [lia |].
    rewrite Hbad in Hrun1 by lia. discriminate. }
  destruct (handle_D_effect instr s) as (s' & Hrun & Hpix & HVs & Hlen & _);
    [done | done | lia | done |].
  rewrite Hrun in Hrun1. injection Hrun1 as <-.
  split; [done |].
  pose proof (getV_flag_value _ _ _ HV HVs) as Hflag.
  split; [| split].
  - intros q Hq Hout. rewrite Hpix by lia.
    rewrite bool_decide_eq_false_2; [by rewrite xorb_false_r |].
    intros (r & c & Hr & Hyr & Hc & Hxc & _ & Heq)%elem_of_drawn_pixels.
    fold x y in Hyr, Hxc, Heq. apply Hout.
    assert (q mod 64 = x + c) as ->.
    { rewrite Heq. replace ((y + r) * 64 + x + c) with (x + c + (y + r) * 64) by lia.
      rewrite Z.mod_add by lia. apply Z.mod_small. lia. }
    assert (q / 64 = y + r) as ->.
    { rewrite Heq. replace ((y + r) * 64 + x + c) with (x + c + (y + r) * 64) by lia.
      rewrite Z.div_add by lia. rewrite Z.div_small by lia. lia. }
    lia.
  - rewrite Hflag. split.
    + intros Hone.
      destruct (existsb (pixel s) (drawn_pixels instr s)) eqn:Hex; [| discriminate].
      apply existsb_elem in Hex as (q & Hq%elem_of_drawn_pixels & Hlit).
      destruct Hq as (r & c & Hr & Hyr & Hc & Hxc & Hbit & ->).
      exists r, c. done.
    + intros (r & c & Hr & Hyr & Hc & Hxc & Hbit & Hlit).
      replace (existsb (pixel s) (drawn_pixels instr s)) with true; [done |].
      symmetry. apply existsb_elem. exists ((y + r) * 64 + x + c).
      split; [| done]. apply elem_of_drawn_pixels. exists r, c. done.
  - rewrite Hflag. destruct (existsb (pixel s) (drawn_pixels instr s)); auto.
Qed.

(** The sprite of the glyph of 0 drawn at [(60, 30)] with height 4. *)
Lemma draw_clips_at_edges_witness :
  let s := machine 0 (<[0%nat := 60]> (<[1%nat := 30]> zero_regs)) in
  wf s /\ origin_x (decode 0xD014) s = 60 /\ origin_y (decode 0xD014) s = 30 /\
  exists s', handle_D_instr (decode 0xD014) s = Done s' /\
    forall q, 0 <= q < 2048 ->
      ~ (60 <= q mod 64 <= 63 /\ 30 <= q / 64 <= 31) -> pixel s' q = pixel s q.
Proof.
  cbv zeta. set (s := machine 0 (<[0%nat := 60]> (<[1%nat := 30]> zero_regs))).
  assert (wf s) as Hwf by (vm_compute; reflexivity).
  split; [exact Hwf |]. split; [reflexivity |]. split; [reflexivity |].
  destruct (draw_clips_at_edges (decode 0xD014) s Hwf) as [Hdone Hclip].
  destruct Hdone as (s' & Hrun); [vm_compute; discriminate |].
  exists s'. split; [exact Hrun |].
  destruct (Hclip s' Hrun) as (_ & Hout & _). exact Hout.
Defined.

Lemma list_eq_pointwise (l1 l2 : list bool) (n : nat) :
  length l1 = n -> length l2 = n ->
  (forall i, (i < n)%nat -> l1 !!! i = l2 !!! i) -> l1 = l2.
Proof.
  intros H1 H2 Hpt. apply (list_eq_same_length l1 l2 n); [done | done |].
  intros i a b Hi Ha Hb.
  apply list_lookup_total_correct in Ha, Hb. rewrite <- Ha, <- Hb. by apply Hpt.
Qed.

(** C8.  The same sprite drawn twice at the same origin, with [X] and [Y]
    other than [0xF] and the sprite rows inside [ram]: both draws complete,
    the second one gives back the screen as it was before the first, and
    its [V[0xF]] is 1 exactly when the first draw turned some pixel on
    (0 otherwise). *)
Theorem draw_twice_restores_screen (instr : instruction_t) (s : Chip8) :
  wf s ->
  0 <= X instr < 15 -> 0 <= Y instr < 15 ->
  I s + Z.min (N instr) (32 - origin_y instr s) <= 4096 ->
  exists s1 s2,
    handle_D_instr instr s = Done s1 /\
    handle_D_instr instr s1 = Done s2 /\
    ram s1 = ram s /\ I s1 = I s /\
    getV s1 (X instr) = getV s (X instr) /\ getV s1 (Y instr) = getV s (Y instr) /\
    screen s2 = screen s /\
    (getV s2 0xF = 1 <->
       exists q, 0 <= q < 2048 /\ pixel s q = false /\ pixel s1 q = true) /\
    (getV s2 0xF = 0 \/ getV s2 0xF = 1).
Proof.
  intros Hwf HX HY Hmem.
  destruct (wf_shape s Hwf) as [Hram _ _ HI HV _ _ _ Hscr _].
  destruct (handle_D_effect instr s) as (s1 & Hrun1 & Hpix1 & HV1 & Hlen1 & Hrest1);
    [done | done | lia | by apply rows_in_ram_of_bound |].
  assert (ram s1 = ram s) as Hram1 by (by rewrite Hrest1).
  assert (I s1 = I s) as HI1 by (by rewrite Hrest1).
  assert (length (V s1) = 16%nat) as HVlen1 by (by rewrite HV1, length_insert).
  assert (forall i, 0 <= i < 15 -> getV s1 i = getV s i) as Hregs.
  { intros i Hi. unfold getV. rewrite HV1.
    apply list_lookup_total_insert_ne. lia. }
  assert (origin_x instr s1 = origin_x instr s) as Hox
    by (unfold origin_x; by rewrite Hregs).
  assert (origin_y instr s1 = origin_y instr s) as Hoy
    by (unfold origin_y; by rewrite Hregs).
  assert (drawn_pixels instr s1 = drawn_pixels instr s) as Hsame
    by (unfold drawn_pixels; by rewrite Hram1, HI1, Hox, Hoy).
  destruct (handle_D_effect instr s1) as (s2 & Hrun2 & Hpix2 & HV2 & Hlen2 & _);
    [done | done | lia | |].
  { apply rows_in_ram_of_bound; [by rewrite Hram1 | by rewrite HI1, Hoy]. }
  rewrite Hsame in Hpix2, HV2.
  pose proof (getV_flag_value _ _ _ HVlen1 HV2) as Hflag.
  exists s1, s2. split; [done |]. split; [done |]. split; [done |]. split; [done |].
  split; [by apply Hregs |]. split; [by apply Hregs |].
  assert (0 <= origin_x instr s < 64) as Hx by (apply Z.mod_pos_bound; lia).
  assert (0 <= origin_y instr s < 32) as Hy by (apply Z.mod_pos_bound; lia).
  split; [| split].
  - apply (list_eq_pointwise _ _ 2048); [done | done |].
    intros i Hi. specialize (Hpix2 (Z.of_nat i)). specialize (Hpix1 (Z.of_nat i)).
    unfold pixel in Hpix1, Hpix2. rewrite Nat2Z.id in Hpix1, Hpix2.
    rewrite Hpix2, Hpix1 by lia.
    by destruct (screen s !!! i), (bool_decide (Z.of_nat i ∈ drawn_pixels instr s)).
  - rewrite Hflag. split.
    + intros Hone.
      destruct (existsb (pixel s1) (drawn_pixels instr s)) eqn:Hex; [| discriminate].
      apply existsb_elem in Hex as (q & Hq & Hlit).
      pose proof Hq as Hon%elem_of_drawn_pixels%plotted_on_screen; [| lia | lia].
      exists q. split; [done |]. split; [| done].
      rewrite Hpix1, (bool_decide_eq_true_2 _ Hq) in Hlit by lia.
      by destruct (pixel s q).
    + intros (q & Hq & Hoff & Hlit).
      replace (existsb (pixel s1) (drawn_pixels instr s)) with true; [done |].
      symmetry. apply existsb_elem. exists q. split; [| done].
      rewrite Hpix1, Hoff in Hlit by lia.
      destruct (decide (q ∈ drawn_pixels instr s)) as [Hin | Hnin]; [done |].
      by rewrite (bool_decide_eq_false_2 _ Hnin) in Hlit.
  - rewrite Hflag. destruct (existsb (pixel s1) (drawn_pixels instr s)); auto.
Qed.

(** The glyph of 2 drawn twice at [(10, 5)]: the first draw lights pixels
    of a dark screen, the second one puts them out and reports it. *)
Lemma draw_twice_restores_screen_witness :
  let s := machine 10 (<[0%nat := 10]> (<[1%nat := 5]> zero_regs)) in
  wf s /\
  exists s1 s2,
    handle_D_instr (decode 0xD015) s = Done s1 /\
    handle_D_instr (decode 0xD015) s1 = Done s2 /\
    screen s2 = screen s.
Proof.
  cbv zeta. set (s := machine 10 (<[0%nat := 10]> (<[1%nat := 5]> zero_regs))).
  assert (wf s) as Hwf by (vm_compute; reflexivity).
  split; [exact Hwf |].
  destruct (draw_twice_restores_screen (decode 0xD015) s Hwf)
    as (s1 & s2 & Hrun1 & Hrun2 & _ & _ & _ & _ & Hscreen & _).
  - vm_compute. split; [discriminate | reflexivity].
  - vm_compute. split; [discriminate | reflexivity].
  - vm_compute. discriminate.
  - exists s1, s2. split; [exact Hrun1 |]. split; [exact Hrun2 | exact Hscreen].
Defined.

(** * Further properties of the interpreter *)

(** ** Decoding *)

Lemma nibble_fields (w : Z) :
  0 <= w < 65536 ->
  Z.shiftr w 12 = w / 4096 /\
  X (decode w) = (w / 256) mod 16 /\
  Y (decode w) = (w / 16) mod 16 /\
  N (decode w) = w mod 16 /\
  NN (decode w) = w mod 256 /\
  NNN (decode w) = w mod 4096.
Proof.
  intros Hw. unfold decode; simpl.
  rewrite !Z.shiftr_div_pow2 by lia.
  change 15 with (Z.ones 4). change 255 with (Z.ones 8). change 4095 with (Z.ones 12).
  rewrite !Z.land_ones by lia. done.
Qed.

(** X1.  The fields of a decoded 16-bit word overlap as the layout says and,
    with the family nibble, give the word back: no two words decode to the
    same family and fields. *)
Theorem decode_fields_recompose (w : Z) :
  0 <= w < 65536 ->
  0 <= Z.shiftr w 12 < 16 /\
  0 <= X (decode w) < 16 /\ 0 <= Y (decode w) < 16 /\ 0 <= N (decode w) < 16 /\
  NN (decode w) = 16 * Y (decode w) + N (decode w) /\
  NNN (decode w) = 256 * X (decode w) + NN (decode w) /\
  w = opcode (Z.shiftr w 12) (X (decode w)) (Y (decode w)) (N (decode w)).
Proof.
  intros Hw. destruct (nibble_fields w Hw) as (-> & -> & -> & -> & -> & ->).
  unfold opcode. repeat split; Z.div_mod_to_equations; lia.
Qed.

Lemma decode_fields_recompose_witness :
  0 <= 0xD12A < 65536 /\ 0xD12A = opcode 0xD 1 2 0xA.
Proof.
  split; [lia |].
  destruct (decode_fields_recompose 0xD12A) as (_ & _ & _ & _ & _ & _ & Hw); [lia |].
  exact Hw.
Defined.

(** X2.  Decoding the word built from a family and three nibbles gives those
    nibbles back. *)
Theorem decode_opcode (family x y n : Z) :
  0 <= family < 16 -> 0 <= x < 16 -> 0 <= y < 16 -> 0 <= n < 16 ->
  Z.shiftr (opcode family x y n) 12 = family /\
  X (decode (opcode family x y n)) = x /\
  Y (decode (opcode family x y n)) = y /\
  N (decode (opcode family x y n)) = n /\
  NN (decode (opcode family x y n)) = 16 * y + n /\
  NNN (decode (opcode family x y n)) = 256 * x + 16 * y + n.
Proof.
  intros Hf Hx Hy Hn.
  assert (0 <= opcode family x y n < 65536) as Hw by (unfold opcode; lia).
  destruct (nibble_fields _ Hw) as (-> & -> & -> & -> & -> & ->).
  unfold opcode. repeat split; Z.div_mod_to_equations; lia.
Qed.

Lemma decode_opcode_witness :
  X (decode (opcode 8 3 4 5)) = 3 /\ Y (decode (opcode 8 3 4 5)) = 4.
Proof.
  destruct (decode_opcode 8 3 4 5) as (_ & Hx & Hy & _); [lia | lia | lia | lia |].
  split; [exact Hx | exact Hy].
Defined.

(** ** Well-formed states, as propositions *)

Lemma forallb_is_u8 (l : list Z) : forallb is_u8 l = true <-> Forall byte l.
Proof.
  induction l as [| a l IH]; simpl.
  - split; [constructor | done].
  - rewrite andb_true_iff, is_u8_spec, IH, Forall_cons. done.
Qed.

Lemma forallb_is_u16 (l : list Z) : forallb is_u16 l = true <-> Forall word16 l.
Proof.
  induction l as [| a l IH]; simpl.
  - split; [constructor | done].
  - rewrite andb_true_iff, is_u16_spec, IH, Forall_cons. done.
Qed.

Lemma wf_sound (s : Chip8) : wf s <-> sound s.
Proof.
  unfold wf, wf_b.
  rewrite !andb_true_iff, !Nat.eqb_eq, !is_u8_spec, !is_u16_spec,
    !forallb_is_u8, forallb_is_u16.
  split.
  - intros [[[[[[[[[[? ?] ?] ?] ?] ?] ?] ?] ?] ?] ?]. split. all: done.
  - intros []. unfold byte, word16 in *. repeat split; (done || lia).
Qed.

Lemma byte_lookup_total (l : list Z) (i : nat) : Forall byte l -> byte (l !!! i).
Proof.
  intros Hall. destruct (decide (i < length l)%nat) as [Hi | Hi].
  - by apply Forall_lookup_total_1.
  - rewrite list_lookup_total_alt, lookup_ge_None_2 by lia. simpl. unfold byte. lia.
Qed.

Lemma byte_getV (s : Chip8) (i : Z) : sound s -> byte (getV s i).
Proof. intros Hs. apply byte_lookup_total, (sound_V s Hs). Qed.

Lemma byte_u8 (z : Z) : byte (u8 z).
Proof. apply Z.mod_pos_bound. lia. Qed.

Lemma word16_u16 (z : Z) : word16 (u16 z).
Proof. apply Z.mod_pos_bound. lia. Qed.

Lemma byte_of_bool (b : bool) : byte (of_bool b).
Proof. destruct b; unfold byte; simpl; lia. Qed.

Lemma byte_word16 (z : Z) : byte z -> word16 z.
Proof. unfold byte, word16. lia. Qed.

Lemma below_pow2_log2 (a n : Z) : 0 <= a -> 0 < n -> (a < 2 ^ n <-> Z.log2 a < n).
Proof.
  intros Ha Hn. destruct (decide (a = 0)) as [-> | Hne].
  - split; intros _; [by simpl | by apply Z.pow_pos_nonneg; lia].
  - apply Z.log2_lt_pow2. lia.
Qed.

Lemma byte_lor (a b : Z) : byte a -> byte b -> byte (Z.lor a b).
Proof.
  unfold byte. intros Ha Hb.
  assert (0 <= Z.lor a b) as Hnn by (apply Z.lor_nonneg; lia).
  split; [done |]. change 256 with (2 ^ 8). apply below_pow2_log2; [done | lia |].
  rewrite Z.log2_lor by lia.
  apply Z.max_lub_lt; apply below_pow2_log2; (simpl; lia).
Qed.

Lemma byte_land (a b : Z) : byte a -> byte b -> byte (Z.land a b).
Proof.
  unfold byte. intros Ha Hb.
  assert (0 <= Z.land a b) as Hnn by (apply Z.land_nonneg; lia).
  split; [done |]. change 256 with (2 ^ 8). apply below_pow2_log2; [done | lia |].
  pose proof (Z.log2_land a b ltac:(lia) ltac:(lia)) as Hmin.
  assert (Z.log2 a < 8) by (apply below_pow2_log2; simpl; lia). lia.
Qed.

Lemma byte_lxor (a b : Z) : byte a -> byte b -> byte (Z.lxor a b).
Proof.
  unfold byte. intros Ha Hb.
  assert (0 <= Z.lxor a b) as Hnn by (apply Z.lxor_nonneg; lia).
  split; [done |]. change 256 with (2 ^ 8). apply below_pow2_log2; [done | lia |].
  pose proof (Z.log2_lxor a b ltac:(lia) ltac:(lia)) as Hmax.
  assert (Z.log2 a < 8) by (apply below_pow2_log2; simpl; lia).
  assert (Z.log2 b < 8) by (apply below_pow2_log2; simpl; lia). lia.
Qed.

Lemma byte_shiftr (a n : Z) : byte a -> 0 <= n -> byte (Z.shiftr a n).
Proof.
  unfold byte. intros Ha Hn. rewrite Z.shiftr_div_pow2 by done.
  assert (0 < 2 ^ n) by (apply Z.pow_pos_nonneg; lia).
  split; [apply Z.div_pos; lia |].
  apply Z.le_lt_trans with a; [| lia]. apply Z.div_le_upper_bound; nia.
Qed.

Lemma sound_with_PC (pc : Z) (s : Chip8) : sound s -> word16 pc -> sound (with_PC pc s).
Proof. intros [] Hpc. by split. Qed.

Lemma sound_with_I (i : Z) (s : Chip8) : sound s -> word16 i -> sound (with_I i s).
Proof. intros [] Hi. by split. Qed.

Lemma sound_setV (i v : Z) (s : Chip8) : sound s -> byte v -> sound (setV i v s).
Proof.
  intros [] Hv. split; try done; simpl.
  - by rewrite length_insert.
  - by apply Forall_insert.
Qed.

Lemma sound_with_ram_insert (i : nat) (v : Z) (s : Chip8) :
  sound s -> byte v -> sound (with_ram (<[i := v]> (ram s)) s).
Proof.
  intros [] Hv. split; try done; simpl.
  - by rewrite length_insert.
  - by apply Forall_insert.
Qed.

Lemma sound_with_stack (st : list Z) (s : Chip8) :
  sound s -> Forall word16 st -> sound (with_stack st s).
Proof. intros [] Hst. by split. Qed.

Lemma sound_with_delay_timer (t : Z) (s : Chip8) :
  sound s -> byte t -> sound (with_delay_timer t s).
Proof. intros [] Ht. by split. Qed.

Lemma sound_with_sound_timer (t : Z) (s : Chip8) :
  sound s -> byte t -> sound (with_sound_timer t s).
Proof. intros [] Ht. by split. Qed.

Lemma sound_with_screen (scr : list bool) (s : Chip8) :
  sound s -> length scr = 2048%nat -> sound (with_screen scr s).
Proof. intros [] Hscr. by split. Qed.

Lemma sound_skip_if (b : bool) (s : Chip8) : sound s -> sound (skip_if b s).
Proof.
  intros Hs. unfold skip_if. destruct b; [| done].
  apply sound_with_PC; [done | apply word16_u16].
Qed.

(** ** Every handler keeps a well-formed state well-formed *)

Ltac switch_cases :=
  repeat match goal with
         | |- context [match ?q with xH => _ | xO _ => _ | xI _ => _ end] => destruct q
         | |- context [match ?z with Z0 => _ | Zpos _ => _ | Zneg _ => _ end] => destruct z
         end.

Lemma for_loop_inv {St : Type} (Inv : St -> Prop) (cond : Z -> bool)
    (body : Z -> St -> outcome St) (idx : list Z) (s s' : St) :
  (forall i s1 s2, i ∈ idx -> Inv s1 -> body i s1 = Done s2 -> Inv s2) ->
  Inv s -> for_loop idx cond body s = Done s' -> Inv s'.
Proof.
  revert s. induction idx as [| i idx IH]; intros s Hbody Hinv Hrun; simpl in Hrun.
  - by injection Hrun as <-.
  - destruct (cond i); [| by injection Hrun as <-].
    destruct (body i s) as [s1 | f] eqn:Hstep; [simpl in Hrun | discriminate].
    apply (IH s1); [| | done].
    + intros j s2 s3 Hj. apply Hbody. by right.
    + apply (Hbody i s s1); [left | done | done].
Qed.

Lemma bitset_flip_length (b b' : list bool) (pos : Z) :
  bitset_flip b pos = Done b' -> length b' = length b.
Proof.
  unfold bitset_flip. destruct (_ && _); [| discriminate].
  intros [= <-]. apply length_insert.
Qed.

Lemma ram_set_sound (i v : Z) (s s' : Chip8) :
  sound s -> byte v -> ram_set i v s = Done s' -> sound s'.
Proof.
  intros Hs Hv. unfold ram_set, array_set. destruct (_ && _); [| discriminate].
  intros [= <-]. by apply sound_with_ram_insert.
Qed.

Lemma ram_get_byte (s : Chip8) (i b : Z) : sound s -> ram_get s i = Done b -> byte b.
Proof.
  intros Hs. unfold ram_get, array_get. destruct (_ && _); [| discriminate].
  intros [= <-]. apply byte_lookup_total, (sound_ram s Hs).
Qed.

Lemma handle_0_sound instr s s' :
  sound s -> handle_0_instr instr s = Done s' -> sound s'.
Proof.
  intros Hs. unfold handle_0_instr. generalize (NNN instr). intros z.
  switch_cases; try discriminate.
  - destruct (stack s) as [| top rest] eqn:Hst; [discriminate |].
    intros [= <-]. pose proof (sound_stack s Hs) as Hall. rewrite Hst in Hall.
    apply Forall_cons in Hall as [Htop Hrest].
    apply sound_with_stack; [| done]. by apply sound_with_PC.
  - intros [= <-]. apply sound_with_screen; [done |].
    unfold bitset_reset. rewrite length_replicate. apply (sound_screen s Hs).
Qed.

Lemma handle_8_sound instr s s' :
  sound s -> handle_8_instr instr s = Done s' -> sound s'.
Proof.
  intros Hs. unfold handle_8_instr. generalize (N instr). intros z.
  assert (sound (if copy_vy_to_vx_in_shift s
                 then setV (X instr) (getV s (Y instr)) s else s)) as Hcopy.
  { destruct (copy_vy_to_vx_in_shift s); [| done].
    apply sound_setV; [done | by apply byte_getV]. }
  switch_cases; try discriminate; intros [= <-];
    auto 8 using sound_setV, byte_getV, byte_u8, byte_of_bool, byte_lor, byte_land,
      byte_lxor, byte_shiftr.
  - apply sound_setV; [apply sound_setV; [done |] |].
    + apply byte_u8.
    + apply byte_shiftr; [by apply byte_getV | lia].
  - apply sound_setV; [apply sound_setV; [done |] |].
    + apply byte_shiftr; [by apply byte_getV | lia].
    + apply byte_land; [by apply byte_getV | unfold byte; lia].
Qed.

Lemma draw_bit_sound x y r b c s s' :
  sound s -> draw_bit x y r b c s = Done s' -> sound s'.
Proof.
  intros Hs. unfold draw_bit. destruct (Z.testbit b (7 - c)); [| by intros [= <-]].
  destruct (bitset_test (screen s) ((y + r) * 64 + x + c)) as [lit | f];
    [simpl | discriminate].
  assert (sound (if lit then setV 15 1 s else s)) as Hs1.
  { destruct lit; [| done]. apply sound_setV; [done | unfold byte; lia]. }
  assert (screen (if lit then setV 15 1 s else s) = screen s) as Hscr by (by destruct lit).
  destruct (bitset_flip _ _) as [scr | f] eqn:Hflip; [simpl | discriminate].
  intros [= <-]. apply sound_with_screen; [done |].
  apply bitset_flip_length in Hflip. rewrite Hflip, Hscr. apply (sound_screen s Hs).
Qed.

Lemma handle_D_sound instr s s' :
  sound s -> handle_D_instr instr s = Done s' -> sound s'.
Proof.
  intros Hs. unfold handle_D_instr. apply for_loop_inv.
  - intros r s1 s2 _ Hs1. unfold draw_row.
    destruct (ram_get s1 (I s1 + r)) as [b | f]; [cbn [bind] | discriminate].
    apply for_loop_inv; [| done].
    intros c s3 s4 _. apply draw_bit_sound.
  - apply sound_setV; [done | unfold byte; lia].
Qed.

Lemma handle_E_sound instr s s' :
  sound s -> handle_E_instr instr s = Done s' -> sound s'.
Proof.
  intros Hs. unfold handle_E_instr. generalize (NN instr). intros z.
  switch_cases; try discriminate;
    (destruct (bitset_test _ _); [simpl | discriminate]);
    intros [= <-]; by apply sound_skip_if.
Qed.

Lemma scan_keys_found (idx : list Z) (kb : list bool) (k : Z) :
  scan_keys idx kb = Done (Some k) -> k ∈ idx.
Proof.
  induction idx as [| i idx IH]; simpl; [discriminate |].
  destruct (bitset_test kb i) as [[|] | f]; simpl; try discriminate.
  - intros [= <-]. left.
  - intros Hk. right. by apply IH.
Qed.

Lemma store_reg_sound i s s' : sound s -> store_reg i s = Done s' -> sound s'.
Proof.
  intros Hs. unfold store_reg. apply ram_set_sound; [done | by apply byte_getV].
Qed.

Lemma load_reg_sound i s s' : sound s -> load_reg i s = Done s' -> sound s'.
Proof.
  intros Hs. unfold load_reg.
  destruct (ram_get s (I s + i)) as [b | f] eqn:Hget; [simpl | discriminate].
  intros [= <-]. apply sound_setV; [done | by apply (ram_get_byte s (I s + i))].
Qed.

Lemma bump_I_sound instr s : sound s -> sound (bump_I instr s).
Proof.
  intros Hs. unfold bump_I. destruct (FX55_FX65_modify_I s); [| done].
  apply sound_with_I; [done | apply word16_u16].
Qed.

Lemma byte_digit (z : Z) : byte (z mod 10).
Proof. unfold byte. pose proof (Z.mod_pos_bound z 10). lia. Qed.

Lemma handle_F_sound instr s s' :
  sound s -> handle_F_instr instr s = Done s' -> sound s'.
Proof.
  intros Hs. unfold handle_F_instr. generalize (NN instr). intros z.
  switch_cases; try (by intros [= <-]).
  all: lazymatch goal with
       | |- context [load_reg] =>
           destruct (for_loop (seqZ 0 (X instr + 1)) (fun _ => true) load_reg s)
             as [s1 | f] eqn:Hloop; [simpl | discriminate];
           intros [= <-]; apply bump_I_sound;
           apply (for_loop_inv sound _ _ _ _ _
                    (fun i a b _ Ha => load_reg_sound i a b Ha) Hs Hloop)
       | |- context [store_reg] =>
           destruct (for_loop (seqZ 0 (X instr + 1)) (fun _ => true) store_reg s)
             as [s1 | f] eqn:Hloop; [simpl | discriminate];
           intros [= <-]; apply bump_I_sound;
           apply (for_loop_inv sound _ _ _ _ _
                    (fun i a b _ Ha => store_reg_sound i a b Ha) Hs Hloop)
       | |- context [ram_set] =>
           destruct (ram_set (I s + 2) (getV s (X instr) mod 10) s)
             as [s1 | f] eqn:H1; [simpl | discriminate];
           pose proof (ram_set_sound _ _ _ _ Hs (byte_digit _) H1) as Hs1;
           destruct (ram_set (I s1 + 1) ((getV s1 (X instr) / 10) mod 10) s1)
             as [s2 | f] eqn:H2; [simpl | discriminate];
           pose proof (ram_set_sound _ _ _ _ Hs1 (byte_digit _) H2) as Hs2;
           apply ram_set_sound; [done | apply byte_digit]
       | |- context [ram_get] =>
           destruct (ram_get s (Z.land (getV s (X instr)) 15))
             as [b | f] eqn:Hget; [simpl | discriminate];
           intros [= <-]; apply sound_with_I; [done |];
           apply byte_word16, (ram_get_byte s _ _ Hs Hget)
       | |- context [scan_keys] =>
           destruct (scan_keys (seqZ 0 KEYBOARD_SIZE) (keyboard s))
             as [[k |] | f] eqn:Hscan; simpl; try discriminate; intros [= <-];
           [ apply sound_setV; [done |];
             apply scan_keys_found, elem_of_seqZ in Hscan;
             unfold KEYBOARD_SIZE in Hscan; unfold byte; lia
           | apply sound_with_PC; [done | apply word16_u16] ]
       | |- context [with_delay_timer] =>
           intros [= <-]; apply sound_with_delay_timer; [done | by apply byte_getV]
       | |- context [with_sound_timer] =>
           intros [= <-]; apply sound_with_sound_timer; [done | by apply byte_getV]
       | |- context [with_I] =>
           intros [= <-]; apply sound_with_I; [done | apply word16_u16]
       | |- context [delay_timer] =>
           intros [= <-]; apply sound_setV; [done | apply (sound_delay s Hs)]
       end.
Qed.

Lemma byte_land_mask (z : Z) : byte (Z.land z 0xFF).
Proof.
  change 255 with (Z.ones 8). rewrite Z.land_ones by lia.
  apply Z.mod_pos_bound. lia.
Qed.

Lemma word16_land_mask (z : Z) : word16 (Z.land z 0xFFF).
Proof.
  change 4095 with (Z.ones 12). rewrite Z.land_ones by lia.
  pose proof (Z.mod_pos_bound z (2 ^ 12)). unfold word16. lia.
Qed.

Lemma fetch_sound (s s1 : Chip8) (w : Z) :
  sound s -> fetch s = Done (w, s1) -> sound s1.
Proof.
  intros Hs. unfold fetch.
  destruct (ram_get s (PC s)) as [hi | f]; [simpl | discriminate].
  destruct (ram_get _ _) as [lo | f]; [simpl | discriminate].
  intros [= _ <-]. apply sound_with_PC; [| apply word16_u16].
  apply sound_with_PC; [done | apply word16_u16].
Qed.

Lemma dispatch_sound (rnd w : Z) (s s' : Chip8) :
  sound s -> dispatch rnd w s = Done s' -> sound s'.
Proof.
  intros Hs. unfold dispatch. generalize (Z.shiftr w 12). intros z.
  pose proof (byte_land_mask w) as HNN. pose proof (word16_land_mask w) as HNNN.
  switch_cases; try (by intros [= <-]);
    first
      [ by apply handle_0_sound | by apply handle_8_sound | by apply handle_D_sound
      | by apply handle_E_sound | by apply handle_F_sound
      | intros [= <-];
        auto 8 using sound_setV, sound_with_PC, sound_with_I, sound_skip_if,
          sound_with_stack, byte_u8, word16_u16, byte_getV ].
  - (* 2NNN *)
    apply sound_with_PC; [| done]. apply sound_with_stack; [done |].
    apply Forall_cons. split; [apply (sound_PC s Hs) | apply (sound_stack s Hs)].
Qed.

Lemma step_sound (rnd : Z) (s s' : Chip8) :
  sound s -> cpu_next_instr rnd s = Done s' -> sound s'.
Proof.
  intros Hs. unfold cpu_next_instr.
  destruct (fetch s) as [[w s1] | f] eqn:Hfetch; [simpl | discriminate].
  apply dispatch_sound. by apply (fetch_sound s s1 w).
Qed.

(** X4.  Any number of steps that complete take a well-formed state to a
    well-formed state, whatever bytes the random source hands out: the
    containers keep their sizes, every register, timer and memory cell
    stays a byte, and [PC], [I] and the return addresses stay 16-bit
    values. *)
Theorem run_keeps_wf (rnds : list Z) (s s' : Chip8) :
  wf s -> run rnds s = Done s' -> wf s'.
Proof.
  rewrite !wf_sound. revert s. induction rnds as [| rnd rest IH]; intros s Hs; simpl.
  - by intros [= <-].
  - destruct (cpu_next_instr rnd s) as [s1 | f] eqn:Hstep; [simpl | discriminate].
    apply IH. by apply (step_sound rnd s).
Qed.

Lemma run_keeps_wf_witness :
  exists s', run [0xAB; 0x11] (machine_with [0xC3; 0x0F; 0x83; 0x34] 0 zero_regs) = Done s'
    /\ wf s'.
Proof.
  assert (exists s', run [0xAB; 0x11] (machine_with [0xC3; 0x0F; 0x83; 0x34] 0 zero_regs)
                     = Done s')
    as (s' & Hrun) by (eexists; vm_compute; reflexivity).
  exists s'. split; [exact Hrun |].
  apply (run_keeps_wf [0xAB; 0x11] (machine_with [0xC3; 0x0F; 0x83; 0x34] 0 zero_regs) s');
    [vm_compute; reflexivity | exact Hrun].
Defined.

(** X5.  The operations of the host keep the state well-formed too: [load] of
    a program of bytes, either decrement (also at 0, where it wraps) and
    the timer lines of [main]. *)
Theorem host_operations_keep_wf (prog : list Z) (s s' : Chip8) :
  wf s ->
  (Forall byte prog -> load prog s = Done s' -> wf s') /\
  wf (decrement_delay_timer s) /\
  wf (decrement_sound_timer s) /\
  wf (main_timer_tick s).
Proof.
  rewrite !wf_sound. intros Hs.
  assert (forall c, sound c -> sound (decrement_delay_timer c)) as Hd
    by (intros c Hc; apply sound_with_delay_timer; [done | apply byte_u8]).
  assert (forall c, sound c -> sound (decrement_sound_timer c)) as Hsn
    by (intros c Hc; apply sound_with_sound_timer; [done | apply byte_u8]).
  split; [| split; [| split]].
  - intros Hprog. unfold load. destruct (_ <? _); [| discriminate].
    intros [= <-]. destruct Hs. split; try done; simpl.
    + by rewrite length_inserts.
    + by apply Forall_inserts.
  - by apply Hd.
  - by apply Hsn.
  - unfold main_timer_tick.
    assert (sound (if get_delay_timer s >? 0 then decrement_delay_timer s else s)) as H1
      by (destruct (get_delay_timer s >? 0); auto).
    destruct (get_sound_timer _ >? 0); auto.
Qed.

Lemma host_operations_keep_wf_witness :
  wf (machine 0 zero_regs) /\ wf (decrement_delay_timer (machine 0 zero_regs)).
Proof.
  split; [vm_compute; reflexivity |].
  apply (host_operations_keep_wf [] (machine 0 zero_regs) (machine 0 zero_regs)).
  vm_compute; reflexivity.
Defined.

(** ** Fetching *)

Lemma word_of_bytes (hi lo : Z) :
  byte hi -> byte lo -> u16 (Z.lor (u16 (Z.shiftl hi 8)) lo) = 256 * hi + lo.
Proof.
  unfold byte. intros Hhi Hlo. rewrite Z.shiftl_mul_pow2 by lia.
  change (2 ^ 8) with 256. unfold u16 at 2. rewrite Z.mod_small by lia.
  assert (Z.land (hi * 256) lo = 0) as Hdisjoint.
  { apply Z.bits_inj'. intros n Hn. rewrite Z.land_spec, Z.bits_0.
    destruct (Z.lt_ge_cases n 8) as [Hlt | Hge].
    - change 256 with (2 ^ 8). rewrite Z.mul_pow2_bits_low by done. done.
    - assert (Z.testbit lo n = false) as ->; [| by rewrite andb_false_r].
      destruct (decide (lo = 0)) as [-> | Hne]; [apply Z.bits_0 |].
      apply Z.bits_above_log2; [lia |].
      assert (Z.log2 lo < 8) by (apply Z.log2_lt_pow2; simpl; lia). lia. }
  rewrite <- Z.lxor_lor, <- Z.add_nocarry_lxor by done.
  unfold u16. rewrite Z.mod_small by lia. lia.
Qed.

Lemma fetch_inside (s : Chip8) :
  sound s -> PC s + 1 < 4096 ->
  fetch s = Done (256 * (ram s !!! Z.to_nat (PC s)) + ram s !!! Z.to_nat (PC s + 1),
                  with_PC (PC s + 2) s).
Proof.
  intros Hs Hpc. pose proof (sound_PC s Hs) as HPC. unfold word16 in HPC.
  unfold fetch, ram_get. simpl.
  assert (u16 (PC s + 1) = PC s + 1) as -> by (apply Z.mod_small; lia).
  assert (u16 (PC s + 1 + 1) = PC s + 2) as ->
    by (unfold u16; rewrite Z.mod_small by lia; lia).
  rewrite !array_get_inside by (rewrite (sound_ram_size s Hs); lia). simpl.
  rewrite word_of_bytes by (apply byte_lookup_total, (sound_ram s Hs)).
  by destruct s.
Qed.

(** X3.  The fetch reads the two bytes at [PC] as one big-endian word and moves
    [PC] two further, touching nothing else; it needs both bytes inside
    [ram]: from [PC = 4095] on it indexes [ram] past its end. *)
Theorem fetch_reads_big_endian_word (s : Chip8) :
  wf s ->
  (PC s + 1 < 4096 ->
     fetch s = Done (256 * (ram s !!! Z.to_nat (PC s)) + ram s !!! Z.to_nat (PC s + 1),
                     with_PC (PC s + 2) s)) /\
  (4096 <= PC s + 1 -> fetch s = Fault array_out_of_bounds).
Proof.
  rewrite wf_sound. intros Hs. split; [by apply fetch_inside |].
  intros Hpc. pose proof (sound_PC s Hs) as HPC. unfold word16 in HPC.
  unfold fetch, ram_get.
  destruct (decide (PC s = 4095)) as [Heq | Hne].
  - rewrite array_get_inside by (rewrite (sound_ram_size s Hs); lia). simpl.
    rewrite array_get_outside; [done |].
    rewrite (sound_ram_size s Hs), Heq. by vm_compute.
  - rewrite array_get_outside; [done |]. rewrite (sound_ram_size s Hs). lia.
Qed.

Lemma fetch_reads_big_endian_word_witness :
  fetch (machine_with [0x12; 0x34] 0 zero_regs)
    = Done (0x1234, with_PC 0x202 (machine_with [0x12; 0x34] 0 zero_regs)) /\
  fetch (with_PC 4095 (machine 0 zero_regs)) = Fault array_out_of_bounds.
Proof.
  split.
  - destruct (fetch_reads_big_endian_word (machine_with [0x12; 0x34] 0 zero_regs))
      as [Hin _]; [vm_compute; reflexivity |].
    rewrite Hin by (vm_compute; reflexivity). reflexivity.
  - destruct (fetch_reads_big_endian_word (with_PC 4095 (machine 0 zero_regs)))
      as [_ Hout]; [vm_compute; reflexivity |].
    apply Hout. vm_compute. discriminate.
Defined.

(** A step is the dispatch of the word at [PC] on the state with [PC]
    moved past it. *)
Lemma step_at (rnd : Z) (s : Chip8) :
  sound s -> PC s + 1 < 4096 ->
  cpu_next_instr rnd s =
    dispatch rnd (256 * (ram s !!! Z.to_nat (PC s)) + ram s !!! Z.to_nat (PC s + 1))
      (with_PC (PC s + 2) s).
Proof. intros Hs Hpc. unfold cpu_next_instr. by rewrite fetch_inside. Qed.

(** ** Subroutines *)

Lemma returns_add (n m : nat) (s : Chip8) :
  returns (n + m) s = (s' <- returns n s ;; returns m s').
Proof.
  revert s. induction n as [| n IH]; intros s; [done |]. simpl.
  destruct (handle_0_instr (decode 238) s) as [s1 | f]; [simpl | done]. apply IH.
Qed.

Lemma return_after_call (instr : instruction_t) (s : Chip8) :
  returns 1 (with_PC (NNN instr) (with_stack (PC s :: stack s) s)) = Done s.
Proof. unfold returns, handle_0_instr. simpl. by destruct s. Qed.

(** X6.  Calls nested to any depth and as many returns give back the state
    they started from, [PC] and stack included; a call never fails, and
    the stack grows by one address per call with no bound. *)
Theorem nested_calls_return (targets : list instruction_t) (s : Chip8) :
  exists s1, calls targets s = Done s1 /\
    length (stack s1) = (length targets + length (stack s))%nat /\
    returns (length targets) s1 = Done s.
Proof.
  revert s. induction targets as [| instr rest IH]; intros s.
  - by exists s.
  - change (calls (instr :: rest) s)
      with (calls rest (with_PC (NNN instr) (with_stack (PC s :: stack s) s))).
    set (s2 := with_PC (NNN instr) (with_stack (PC s :: stack s) s)).
    destruct (IH s2) as (s1 & Hcalls & Hdepth & Hreturns).
    exists s1. split; [done |]. split.
    + rewrite Hdepth. simpl. lia.
    + replace (length (instr :: rest)) with (length rest + 1)%nat by (simpl; lia).
      rewrite returns_add, Hreturns. cbn [bind]. apply return_after_call.
Qed.

(** ** [00E0] *)

(** X8.  [00E0] puts out every pixel, keeps the size of the screen and touches
    nothing else. *)
Theorem clear_screen_darkens_all (instr : instruction_t) (s : Chip8) :
  NNN instr = 0x0E0 ->
  exists s', handle_0_instr instr s = Done s' /\
    (forall q, 0 <= q < Z.of_nat (length (screen s)) -> pixel s' q = false) /\
    length (screen s') = length (screen s) /\
    s' = with_screen (screen s') s.
Proof.
  intros HNNN. unfold handle_0_instr. rewrite HNNN. eexists. split; [done |].
  split; [| split; [apply length_replicate | reflexivity]].
  intros q Hq. unfold pixel, bitset_reset. simpl.
  apply lookup_total_replicate_2. lia.
Qed.

Lemma clear_screen_darkens_all_witness :
  exists s', handle_0_instr (decode 0x00E0) (machine 0 zero_regs) = Done s' /\
    forall q, 0 <= q < 2048 -> pixel s' q = false.
Proof.
  destruct (clear_screen_darkens_all (decode 0x00E0) (machine 0 zero_regs))
    as (s' & Hrun & Hdark & _); [reflexivity |].
  exists s'. split; [exact Hrun | exact Hdark].
Defined.

(** ** Skips *)

Lemma fields_of_bytes (hi lo : Z) :
  byte hi -> byte lo ->
  Z.shiftr (256 * hi + lo) 12 = hi / 16 /\
  X (decode (256 * hi + lo)) = hi mod 16 /\
  Y (decode (256 * hi + lo)) = lo / 16 /\
  N (decode (256 * hi + lo)) = lo mod 16 /\
  NN (decode (256 * hi + lo)) = lo /\
  NNN (decode (256 * hi + lo)) = 256 * (hi mod 16) + lo.
Proof.
  unfold byte. intros Hhi Hlo.
  destruct (nibble_fields (256 * hi + lo)) as (-> & -> & -> & -> & -> & ->); [lia |].
  repeat split; Z.div_mod_to_equations; lia.
Qed.

Lemma skip_if_from_fetch (b : bool) (s : Chip8) :
  0 <= PC s -> PC s + 1 < 4096 ->
  skip_if b (with_PC (PC s + 2) s) = with_PC (if b then PC s + 4 else PC s + 2) s.
Proof.
  intros H0 Hpc. unfold skip_if. destruct b; [| done]. simpl.
  unfold u16. rewrite Z.mod_small by lia.
  replace (PC s + 2 + 2) with (PC s + 4) by lia. by destruct s.
Qed.

(** X9.  A step that fetches one of the four skip instructions changes [PC]
    and nothing else: [PC] ends four past the instruction when the
    condition holds and two past it otherwise, with [3XNN]/[4XNN] and
    [5XY0]/[9XY0] testing opposite conditions.  The low nibble of
    [5XY.]/[9XY.] is not looked at. *)
Theorem skip_steps (rnd : Z) (s : Chip8) :
  wf s -> PC s + 1 < 4096 ->
  let hi := ram s !!! Z.to_nat (PC s) in
  let lo := ram s !!! Z.to_nat (PC s + 1) in
  let vx := getV s (hi mod 16) in
  let vy := getV s (lo / 16) in
  (hi / 16 = 0x3 ->
     cpu_next_instr rnd s = Done (with_PC (if vx =? lo then PC s + 4 else PC s + 2) s)) /\
  (hi / 16 = 0x4 ->
     cpu_next_instr rnd s = Done (with_PC (if vx =? lo then PC s + 2 else PC s + 4) s)) /\
  (hi / 16 = 0x5 ->
     cpu_next_instr rnd s = Done (with_PC (if vx =? vy then PC s + 4 else PC s + 2) s)) /\
  (hi / 16 = 0x9 ->
     cpu_next_instr rnd s = Done (with_PC (if vx =? vy then PC s + 2 else PC s + 4) s)).
Proof.
  rewrite wf_sound. intros Hs Hpc hi lo vx vy.
  pose proof (sound_PC s Hs) as HPC. unfold word16 in HPC.
  rewrite (step_at rnd s Hs Hpc). fold hi lo.
  destruct (fields_of_bytes hi lo) as (Hfam & HX & HY & _ & HNN & _);
    [apply byte_lookup_total, (sound_ram s Hs) .. |].
  unfold dispatch. rewrite Hfam.
  repeat split; intros ->;
    unfold handle_3_instr, handle_4_instr, handle_5_instr, handle_9_instr;
    rewrite ?HX, ?HY, ?HNN; change (getV (with_PC (PC s + 2) s)) with (getV s);
    fold vx vy; rewrite skip_if_from_fetch by lia; by destruct (_ =? _).
Qed.

Lemma skip_steps_witness :
  cpu_next_instr 0 (machine_with [0x30; 0x00] 0 zero_regs)
    = Done (with_PC 0x204 (machine_with [0x30; 0x00] 0 zero_regs)).
Proof.
  destruct (skip_steps 0 (machine_with [0x30; 0x00] 0 zero_regs)) as [H3 _];
    [vm_compute; reflexivity | vm_compute; reflexivity |].
  rewrite H3 by (vm_compute; reflexivity). vm_compute. reflexivity.
Defined.

(** ** Arithmetic of family 8 *)

(** X10.  [8XY4] for all register indices: [VF] ends as the carry of the sum of
    the operands as they were before (also when [X] or [Y] is [0xF]),
    [V[X]] as the sum modulo 256 when [X] is not [0xF], and no other
    register moves. *)
Theorem add_sets_carry (instr : instruction_t) (s : Chip8) :
  wf s -> 0 <= X instr < 16 -> 0 <= Y instr < 16 -> N instr = 0x4 ->
  exists s', handle_8_instr instr s = Done s' /\
    getV s' 0xF = (if 255 <? getV s (X instr) + getV s (Y instr) then 1 else 0) /\
    (X instr <> 0xF ->
       getV s' (X instr) = (getV s (X instr) + getV s (Y instr)) mod 256) /\
    (forall j, 0 <= j < 15 -> j <> X instr -> getV s' j = getV s j) /\
    s' = with_V (V s') s.
Proof.
  intros Hwf HX HY HN.
  pose proof (shape_V s (wf_shape s Hwf)) as Hlen.
  pose proof (getV_byte s (X instr) Hwf HX) as Hx.
  pose proof (getV_byte s (Y instr) Hwf HY) as Hy.
  unfold handle_8_instr. rewrite HN. cbv zeta. eexists. split; [reflexivity |].
  split; [| split; [| split; [| by destruct s]]].
  - rewrite !getV_setV by (rewrite ?length_V_setV; done || lia).
    rewrite !Z.eqb_refl. unfold u8.
    destruct (Z.ltb_spec 255 (getV s (X instr) + getV s (Y instr))) as [Hov | Hno].
    + replace ((getV s (X instr) + getV s (Y instr)) mod 256)
        with (getV s (X instr) + getV s (Y instr) - 256).
      * destruct (Z.ltb_spec (getV s (X instr) + getV s (Y instr) - 256) (getV s (X instr)));
          [done | lia].
      * symmetry. rewrite <- (Z.mod_add _ (-1)) by lia. apply Z.mod_small. lia.
    + rewrite Z.mod_small by lia.
      destruct (Z.ltb_spec (getV s (X instr) + getV s (Y instr)) (getV s (X instr)));
        [lia | done].
  - intros Hne. rewrite !getV_setV by (rewrite ?length_V_setV; done || lia).
    rewrite Z.eqb_refl. destruct (Z.eqb_spec 15 (X instr)); [lia | done].
  - intros j Hj Hne. rewrite !getV_setV by (rewrite ?length_V_setV; done || lia).
    destruct (Z.eqb_spec 15 j); [lia |]. destruct (Z.eqb_spec (X instr) j); [lia | done].
Qed.

Lemma add_sets_carry_witness :
  exists s', handle_8_instr (decode 0x8014)
               (machine 0 (<[0%nat := 0xFF]> (<[1%nat := 1]> zero_regs))) = Done s' /\
    getV s' 0xF = 1 /\ getV s' 0 = 0.
Proof.
  destruct (add_sets_carry (decode 0x8014)
              (machine 0 (<[0%nat := 0xFF]> (<[1%nat := 1]> zero_regs))))
    as (s' & Hrun & Hflag & Hsum & _);
    [ vm_compute; reflexivity
    | vm_compute; split; [discriminate | reflexivity]
    | vm_compute; split; [discriminate | reflexivity]
    | reflexivity |].
  exists s'. split; [exact Hrun |]. split; [exact Hflag |].
  apply Hsum. vm_compute. discriminate.
Defined.

(** X11.  The two shifts, for [X] other than [0xF]: the operand is [V[Y]] when
    the copy switch is on and [V[X]] when it is off; [8XY6] halves it and
    puts its bit 0 in [VF], [8XYE] doubles it modulo 256 and puts its bit 7
    in [VF]; no other register moves. *)
Theorem shifts_move_one_bit_to_VF (instr : instruction_t) (s : Chip8) :
  wf s -> 0 <= X instr < 15 -> 0 <= Y instr < 16 ->
  let operand := if copy_vy_to_vx_in_shift s then getV s (Y instr) else getV s (X instr) in
  (N instr = 0x6 ->
     exists s', handle_8_instr instr s = Done s' /\
       getV s' (X instr) = operand / 2 /\ getV s' 0xF = operand mod 2 /\
       (forall j, 0 <= j < 15 -> j <> X instr -> getV s' j = getV s j)) /\
  (N instr = 0xE ->
     exists s', handle_8_instr instr s = Done s' /\
       getV s' (X instr) = (2 * operand) mod 256 /\ getV s' 0xF = operand / 128 /\
       (forall j, 0 <= j < 15 -> j <> X instr -> getV s' j = getV s j)).
Proof.
  intros Hwf HX HY operand.
  pose proof (shape_V s (wf_shape s Hwf)) as Hlen.
  set (s1 := if copy_vy_to_vx_in_shift s then setV (X instr) (getV s (Y instr)) s else s).
  assert (length (V s1) = 16%nat) as Hlen1
    by (unfold s1; destruct (copy_vy_to_vx_in_shift s); by rewrite ?length_V_setV).
  assert (getV s1 (X instr) = operand) as Hop.
  { unfold s1, operand. destruct (copy_vy_to_vx_in_shift s); [| done].
    rewrite getV_setV by (done || lia). by rewrite Z.eqb_refl. }
  assert (forall j, 0 <= j -> j <> X instr -> getV s1 j = getV s j) as Hother.
  { intros j Hj Hne. unfold s1. destruct (copy_vy_to_vx_in_shift s); [| done].
    rewrite getV_setV by (done || lia). destruct (Z.eqb_spec (X instr) j); [lia | done]. }
  split; intros HN; unfold handle_8_instr; rewrite HN; cbv zeta; fold s1;
    eexists; (split; [reflexivity |]);
    rewrite !getV_setV by (rewrite ?length_V_setV; done || lia);
    rewrite !Hop, Z.eqb_refl;
    (destruct (Z.eqb_spec 15 (X instr)); [lia |]).
  - split; [by rewrite Z.shiftr_div_pow2 by lia |].
    split; [change 1 with (Z.ones 1); by rewrite Z.land_ones by lia |].
    intros j Hj Hne. rewrite !getV_setV by (rewrite ?length_V_setV; done || lia).
    destruct (Z.eqb_spec 15 j); [lia |]. destruct (Z.eqb_spec (X instr) j); [lia |].
    apply Hother; lia.
  - split; [unfold u8; rewrite Z.shiftl_mul_pow2 by lia; f_equal; lia |].
    split; [by rewrite Z.shiftr_div_pow2 by lia |].
    intros j Hj Hne. rewrite !getV_setV by (rewrite ?length_V_setV; done || lia).
    destruct (Z.eqb_spec 15 j); [lia |]. destruct (Z.eqb_spec (X instr) j); [lia |].
    apply Hother; lia.
Qed.

Lemma shifts_move_one_bit_to_VF_witness :
  exists s', handle_8_instr (decode 0x8016)
               (machine 0 (<[0%nat := 0x81]> zero_regs)) = Done s' /\
    getV s' 0 = 0x81 / 2 /\ getV s' 0xF = 0x81 mod 2.
Proof.
  destruct (shifts_move_one_bit_to_VF (decode 0x8016)
              (machine 0 (<[0%nat := 0x81]> zero_regs))) as [H6 _];
    [ vm_compute; reflexivity
    | vm_compute; split; [discriminate | reflexivity]
    | vm_compute; split; [discriminate | reflexivity] |].
  destruct (H6 eq_refl) as (s' & Hrun & Hhalf & Hbit & _).
  exists s'. split; [exact Hrun |]. split; [exact Hhalf | exact Hbit].
Defined.

(** X12.  The operations that set no flag: [6XNN], [7XNN] and [8XY0] to [8XY3]
    write [V[X]] and leave every other register as it was, [VF] with
    them; in particular [7XNN] wraps modulo 256 without a carry. *)
Theorem flagless_operations (instr : instruction_t) (s : Chip8) :
  wf s -> 0 <= X instr < 16 -> 0 <= Y instr < 16 ->
  let vx := getV s (X instr) in
  let vy := getV s (Y instr) in
  let writes_VX_only (o : outcome Chip8) (v : Z) :=
    exists s', o = Done s' /\
      getV s' (X instr) = v /\
      (forall j, 0 <= j < 16 -> j <> X instr -> getV s' j = getV s j) /\
      s' = with_V (V s') s in
  writes_VX_only (handle_6_instr instr s) (NN instr) /\
  writes_VX_only (handle_7_instr instr s) ((vx + NN instr) mod 256) /\
  (N instr = 0x0 -> writes_VX_only (handle_8_instr instr s) vy) /\
  (N instr = 0x1 -> writes_VX_only (handle_8_instr instr s) (Z.lor vx vy)) /\
  (N instr = 0x2 -> writes_VX_only (handle_8_instr instr s) (Z.land vx vy)) /\
  (N instr = 0x3 -> writes_VX_only (handle_8_instr instr s) (Z.lxor vx vy)).
Proof.
  intros Hwf HX HY vx vy writes_VX_only.
  pose proof (shape_V s (wf_shape s Hwf)) as Hlen.
  assert (forall v, writes_VX_only (Done (setV (X instr) v s)) v) as Hset.
  { intros v. eexists. split; [reflexivity |]. split; [| split; [| by destruct s]].
    - rewrite getV_setV by (done || lia). by rewrite Z.eqb_refl.
    - intros j Hj Hne. rewrite getV_setV by (done || lia).
      destruct (Z.eqb_spec (X instr) j); [lia | done]. }
  split; [apply Hset |]. split; [apply Hset |].
  repeat split; intros HN; unfold handle_8_instr; rewrite HN; apply Hset.
Qed.

Lemma flagless_operations_witness :
  exists s', handle_7_instr (decode 0x70FF) (machine 0 (replicate 16 3)) = Done s' /\
    getV s' 0 = (3 + 0xFF) mod 256 /\ getV s' 0xF = 3.
Proof.
  destruct (flagless_operations (decode 0x70FF) (machine 0 (replicate 16 3)))
    as (_ & (s' & Hrun & Hsum & Hrest & _) & _);
    [ vm_compute; reflexivity
    | vm_compute; split; [discriminate | reflexivity]
    | vm_compute; split; [discriminate | reflexivity] |].
  exists s'. split; [exact Hrun |]. split; [exact Hsum |].
  apply (Hrest 0xF); [lia | vm_compute; discriminate].
Defined.

(** ** [CXNN] *)

(** X13.  [CXNN] with a random byte [rnd]: [V[X]] ends as [rnd & NN], so no bit
    that is clear in [NN] is ever set in it, and no other register moves. *)
Theorem random_byte_is_masked (rnd : Z) (instr : instruction_t) (s : Chip8) :
  wf s -> 0 <= X instr < 16 -> byte rnd -> byte (NN instr) ->
  exists s', handle_C_instr rnd instr s = Done s' /\
    getV s' (X instr) = Z.land rnd (NN instr) /\
    (forall n, Z.testbit (getV s' (X instr)) n = true -> Z.testbit (NN instr) n = true) /\
    0 <= getV s' (X instr) <= NN instr /\
    (forall j, 0 <= j < 16 -> j <> X instr -> getV s' j = getV s j).
Proof.
  intros Hwf HX Hrnd HNN.
  pose proof (shape_V s (wf_shape s Hwf)) as Hlen.
  pose proof (byte_land rnd (NN instr) Hrnd HNN) as Hland. unfold byte in *.
  unfold handle_C_instr. eexists. split; [reflexivity |].
  assert (getV (setV (X instr) (u8 (Z.land rnd (NN instr))) s) (X instr)
          = Z.land rnd (NN instr)) as Hval.
  { rewrite getV_setV by (done || lia). rewrite Z.eqb_refl. apply Z.mod_small. lia. }
  rewrite Hval. split; [done |]. split; [| split].
  - intros n. rewrite Z.land_spec. by intros [_ ?]%andb_true_iff.
  - split; [lia |].
    assert (Z.land rnd (NN instr) + Z.land (Z.lnot rnd) (NN instr) = NN instr) as Hsplit.
    { rewrite Z.add_nocarry_lxor.
      - apply Z.bits_inj'. intros n Hn.
        rewrite Z.lxor_spec, !Z.land_spec, Z.lnot_spec by done.
        by destruct (Z.testbit rnd n), (Z.testbit (NN instr) n).
      - apply Z.bits_inj'. intros n Hn.
        rewrite !Z.land_spec, Z.lnot_spec, Z.bits_0 by done.
        by destruct (Z.testbit rnd n), (Z.testbit (NN instr) n). }
    assert (0 <= Z.land (Z.lnot rnd) (NN instr)) by (apply Z.land_nonneg; lia). lia.
  - intros j Hj Hne. rewrite getV_setV by (done || lia).
    destruct (Z.eqb_spec (X instr) j); [lia | done].
Qed.

Lemma random_byte_is_masked_witness :
  exists s', handle_C_instr 0xAB (decode 0xC30F) (machine 0 zero_regs) = Done s' /\
    0 <= getV s' 3 <= 0x0F.
Proof.
  destruct (random_byte_is_masked 0xAB (decode 0xC30F) (machine 0 zero_regs))
    as (s' & Hrun & _ & _ & Hle & _);
    [ vm_compute; reflexivity
    | vm_compute; split; [discriminate | reflexivity]
    | vm_compute; split; [discriminate | reflexivity]
    | vm_compute; split; [discriminate | reflexivity] |].
  exists s'. split; [exact Hrun | exact Hle].
Defined.

(** ** Keys *)

(** X14.  [EX9E] and [EXA1]: with [V[X]] a key number below 16 exactly one of
    the two skips, the first when that key is pressed and the second when
    it is not; [V[X]] is not masked, and with 16 or more in it
    [keyboard.test] throws [std::out_of_range]. *)
Theorem key_skips_need_a_key_number (instr : instruction_t) (s : Chip8) :
  wf s -> 0 <= X instr < 16 -> NN instr = 0x9E \/ NN instr = 0xA1 ->
  (getV s (X instr) < 16 ->
     handle_E_instr instr s =
       Done (skip_if (if NN instr =? 0x9E then pressed s (getV s (X instr))
                      else negb (pressed s (getV s (X instr)))) s)) /\
  (16 <= getV s (X instr) -> handle_E_instr instr s = Fault bitset_out_of_range).
Proof.
  intros Hwf HX HNN.
  pose proof (shape_keyboard s (wf_shape s Hwf)) as Hkb.
  pose proof (getV_byte s (X instr) Hwf HX) as Hv.
  split; intros Hkey.
  - unfold handle_E_instr.
    rewrite bitset_test_in_range by (rewrite Hkb; lia).
    by destruct HNN as [-> | ->].
  - assert (bitset_test (keyboard s) (getV s (X instr)) = Fault bitset_out_of_range) as Hthrow.
    { unfold bitset_test. rewrite Hkb.
      destruct (Z.ltb_spec (getV s (X instr)) (Z.of_nat 16)); [lia |].
      by rewrite andb_false_r. }
    unfold handle_E_instr. rewrite Hthrow. by destruct HNN as [-> | ->].
Qed.

Lemma key_skips_need_a_key_number_witness :
  handle_E_instr (decode 0xE09E) (machine 0 (replicate 16 0x10)) = Fault bitset_out_of_range.
Proof.
  destruct (key_skips_need_a_key_number (decode 0xE09E) (machine 0 (replicate 16 0x10)))
    as [_ Hthrow];
    [ vm_compute; reflexivity
    | vm_compute; split; [discriminate | reflexivity]
    | left; reflexivity |].
  apply Hthrow. vm_compute. discriminate.
Defined.

(** ** Family F *)

Lemma handle_F_default (instr : instruction_t) (s : Chip8) :
  NN instr ∉ [0x07; 0x0A; 0x15; 0x18; 0x1E; 0x29; 0x33; 0x55; 0x65] ->
  handle_F_instr instr s = Done s.
Proof.
  rewrite !not_elem_of_cons. intros (H1 & H2 & H3 & H4 & H5 & H6 & H7 & H8 & H9 & _).
  unfold handle_F_instr. generalize dependent (NN instr). intros z **.
  case_literal z.
Qed.

(** X15.  Family F has no [default] case: a step that fetches [FXNN] with a
    second byte that is none of the nine defined ones moves [PC] past the
    instruction and does nothing else, where families 0, 8 and E reach
    [std::unreachable()]. *)
Theorem unknown_FX_is_skipped (rnd : Z) (s : Chip8) :
  wf s -> PC s + 1 < 4096 ->
  ram s !!! Z.to_nat (PC s) / 16 = 0xF ->
  ram s !!! Z.to_nat (PC s + 1) ∉ [0x07; 0x0A; 0x15; 0x18; 0x1E; 0x29; 0x33; 0x55; 0x65] ->
  cpu_next_instr rnd s = Done (with_PC (PC s + 2) s).
Proof.
  rewrite wf_sound. intros Hs Hpc Hfam Hlo.
  rewrite (step_at rnd s Hs Hpc).
  destruct (fields_of_bytes (ram s !!! Z.to_nat (PC s)) (ram s !!! Z.to_nat (PC s + 1)))
    as (Hw & _ & _ & _ & HNN & _); [apply byte_lookup_total, (sound_ram s Hs) .. |].
  unfold dispatch. rewrite Hw, Hfam. apply handle_F_default. by rewrite HNN.
Qed.

Lemma unknown_FX_is_skipped_witness :
  cpu_next_instr 0 (machine_with [0xF1; 0xFF] 0 zero_regs)
    = Done (with_PC 0x202 (machine_with [0xF1; 0xFF] 0 zero_regs)).
Proof.
  apply (unknown_FX_is_skipped 0 (machine_with [0xF1; 0xFF] 0 zero_regs));
    [ vm_compute; reflexivity | vm_compute; reflexivity | vm_compute; reflexivity |].
  rewrite !not_elem_of_cons. vm_compute.
  repeat split; try discriminate. apply not_elem_of_nil.
Defined.

(** X16.  [FX33] with its three cells inside [ram]: the cells at [I], [I+1] and
    [I+2] receive three decimal digits that make up [V[X]] again, and
    nothing else in the machine changes. *)
Theorem bcd_digits_recompose (instr : instruction_t) (s : Chip8) :
  wf s -> 0 <= X instr < 16 -> NN instr = 0x33 -> I s + 2 < 4096 ->
  exists s', handle_F_instr instr s = Done s' /\
    let digit k := ram s' !!! Z.to_nat (I s + k) in
    100 * digit 0 + 10 * digit 1 + digit 2 = getV s (X instr) /\
    0 <= digit 0 < 10 /\ 0 <= digit 1 < 10 /\ 0 <= digit 2 < 10 /\
    (forall a, 0 <= a -> a < I s \/ I s + 2 < a ->
       ram s' !!! Z.to_nat a = ram s !!! Z.to_nat a) /\
    s' = with_ram (ram s') s.
Proof.
  intros Hwf HX HNN Hmem.
  destruct (wf_shape s Hwf) as [Hram _ _ HI _ _ _ _ _ _].
  pose proof (getV_byte s (X instr) Hwf HX) as Hv.
  unfold handle_F_instr. rewrite HNN.
  rewrite ram_set_inside by (rewrite Hram; lia). cbn [bind].
  rewrite ram_set_inside by (simpl; rewrite length_insert, Hram; lia). cbn [bind].
  rewrite ram_set_inside by (simpl; rewrite !length_insert, Hram; lia).
  eexists. split; [reflexivity |]. simpl.
  change (getV (with_ram _ s) (X instr)) with (getV s (X instr)).
  change (getV (with_ram _ (with_ram _ s)) (X instr)) with (getV s (X instr)).
  set (v := getV s (X instr)) in *.
  assert (forall k, 0 <= k <= 2 ->
            <[Z.to_nat (I s) := (v / 100) mod 10]>
              (<[Z.to_nat (I s + 1) := (v / 10) mod 10]>
                 (<[Z.to_nat (I s + 2) := v mod 10]> (ram s))) !!! Z.to_nat (I s + k)
            = if k =? 0 then (v / 100) mod 10
              else if k =? 1 then (v / 10) mod 10 else v mod 10) as Hdigits.
  { intros k Hk. rewrite !list_lookup_total_insert, !length_insert, Hram.
    repeat case_decide; destruct (Z.eqb_spec k 0), (Z.eqb_spec k 1); try done; lia. }
  rewrite !Hdigits by lia. simpl.
  split; [Z.div_mod_to_equations; lia |].
  split; [apply Z.mod_pos_bound; lia |].
  split; [apply Z.mod_pos_bound; lia |].
  split; [apply Z.mod_pos_bound; lia |].
  split; [| by destruct s].
  intros a Ha Hout. rewrite !list_lookup_total_insert_ne by lia. done.
Qed.

Lemma bcd_digits_recompose_witness :
  exists s', handle_F_instr (decode 0xF033) (machine 0x300 (replicate 16 234)) = Done s' /\
    100 * (ram s' !!! Z.to_nat (0x300 + 0)) + 10 * (ram s' !!! Z.to_nat (0x300 + 1))
      + ram s' !!! Z.to_nat (0x300 + 2) = 234.
Proof.
  destruct (bcd_digits_recompose (decode 0xF033) (machine 0x300 (replicate 16 234)))
    as (s' & Hrun & Hsum & _);
    [ vm_compute; reflexivity
    | vm_compute; split; [discriminate | reflexivity]
    | reflexivity
    | vm_compute; reflexivity |].
  exists s'. split; [exact Hrun | exact Hsum].
Defined.

(** A counting loop without exit test, with an invariant that follows the
    counter. *)
Lemma for_loop_count {St : Type} (P : Z -> St -> Prop)
    (body : Z -> St -> outcome St) (n : nat) (a : Z) (s : St) :
  (forall i s1, a <= i < a + Z.of_nat n -> P i s1 ->
     exists s2, body i s1 = Done s2 /\ P (i + 1) s2) ->
  P a s ->
  exists s', for_loop (seqZ a (Z.of_nat n)) (fun _ => true) body s = Done s'
    /\ P (a + Z.of_nat n) s'.
Proof.
  revert a s. induction n as [| n IH]; intros a s Hbody Hstart.
  - rewrite seqZ_nil by lia. exists s. split; [done |]. by rewrite Z.add_0_r.
  - rewrite seqZ_cons by lia. replace (Z.pred (Z.of_nat (S n))) with (Z.of_nat n) by lia.
    simpl. destruct (Hbody a s) as (s1 & Hrun & Hnext); [lia | done |].
    rewrite Hrun. simpl. change (Z.succ a) with (a + 1).
    destruct (IH (a + 1) s1) as (s' & Hloop & Hend).
    + intros i s2 Hi. apply Hbody. lia.
    + done.
    + exists s'. split; [done |]. by replace (a + Z.of_nat (S n)) with (a + 1 + Z.of_nat n) by lia.
Qed.

Lemma bump_I_inside (instr : instruction_t) (s : Chip8) :
  0 <= I s -> 0 <= X instr -> I s + X instr < 4096 ->
  I (bump_I instr s) = (if FX55_FX65_modify_I s then I s + X instr + 1 else I s).
Proof.
  intros HI HX Hmem. unfold bump_I. destruct (FX55_FX65_modify_I s); [| done].
  simpl. unfold u16. rewrite Z.mod_small by lia. lia.
Qed.

Lemma store_registers_core (instr : instruction_t) (s : Chip8) :
  wf s -> 0 <= X instr < 16 -> NN instr = 0x55 -> I s + X instr < 4096 ->
  exists s', handle_F_instr instr s = Done s' /\
    (forall i, 0 <= i <= X instr -> ram s' !!! Z.to_nat (I s + i) = getV s i) /\
    (forall a, 0 <= a -> a < I s \/ I s + X instr < a ->
       ram s' !!! Z.to_nat a = ram s !!! Z.to_nat a) /\
    length (ram s') = 4096%nat /\
    V s' = V s /\
    I s' = (if FX55_FX65_modify_I s then I s + X instr + 1 else I s) /\
    s' = with_I (I s') (with_ram (ram s') s).
Proof.
  intros Hwf HX HNN Hmem.
  destruct (wf_shape s Hwf) as [Hram _ _ HI _ _ _ _ _ _].
  unfold handle_F_instr. rewrite HNN.
  destruct (for_loop_count
              (fun k s1 =>
                 (forall i, 0 <= i < k -> ram s1 !!! Z.to_nat (I s + i) = getV s i) /\
                 (forall a, 0 <= a -> a < I s \/ I s + k <= a ->
                    ram s1 !!! Z.to_nat a = ram s !!! Z.to_nat a) /\
                 length (ram s1) = 4096%nat /\
                 s1 = with_ram (ram s1) s)
              store_reg (Z.to_nat (X instr + 1)) 0 s)
    as (s1 & Hloop & Hcells & Hrest & Hlen & Hs1).
  - intros k s2 Hk (Hcells & Hrest & Hlen & Hs2).
    assert (I s2 = I s) as HI2 by (by rewrite Hs2).
    assert (getV s2 k = getV s k) as HV2 by (by rewrite Hs2).
    unfold store_reg. rewrite ram_set_inside by (rewrite Hlen, HI2; lia).
    eexists. split; [reflexivity |]. simpl. rewrite HI2, HV2.
    split; [| split; [| split; [by rewrite length_insert | by rewrite Hs2 at 2]]].
    + intros i Hi. destruct (decide (i = k)) as [-> | Hne].
      * rewrite list_lookup_total_insert_eq by lia. done.
      * rewrite list_lookup_total_insert_ne by lia. apply Hcells. lia.
    + intros a Ha Hout. rewrite list_lookup_total_insert_ne by lia. apply Hrest; lia.
  - split; [intros i Hi; lia |]. split; [done |]. split; [done | by destruct s].
  - rewrite Z2Nat.id in Hloop, Hcells, Hrest by lia. rewrite Hloop. cbn [bind].
    assert (I s1 = I s) as HI1 by (by rewrite Hs1).
    assert (FX55_FX65_modify_I s1 = FX55_FX65_modify_I s) as Hq by (by rewrite Hs1).
    eexists. split; [reflexivity |].
    split; [intros i Hi; unfold bump_I; destruct (FX55_FX65_modify_I s1); apply Hcells; lia |].
    split; [intros a Ha Hout; unfold bump_I; destruct (FX55_FX65_modify_I s1);
            apply Hrest; lia |].
    split; [by unfold bump_I; destruct (FX55_FX65_modify_I s1) |].
    split; [unfold bump_I; destruct (FX55_FX65_modify_I s1); by rewrite Hs1 |].
    split; [rewrite bump_I_inside by lia; by rewrite Hq, HI1 |].
    unfold bump_I. destruct (FX55_FX65_modify_I s1); rewrite Hs1; destruct s; reflexivity.
Qed.

(** X17.  [FX55] with its cells inside [ram]: the cells [I .. I+X] receive
    [V[0] .. V[X]], every other cell and every register stay as they
    were, and [I] moves to [I + X + 1] exactly when the switch
    [FX55_FX65_modify_I] is on. *)
Theorem store_registers_to_ram (instr : instruction_t) (s : Chip8) :
  wf s -> 0 <= X instr < 16 -> NN instr = 0x55 -> I s + X instr < 4096 ->
  exists s', handle_F_instr instr s = Done s' /\
    (forall i, 0 <= i <= X instr -> ram s' !!! Z.to_nat (I s + i) = getV s i) /\
    (forall a, 0 <= a -> a < I s \/ I s + X instr < a ->
       ram s' !!! Z.to_nat a = ram s !!! Z.to_nat a) /\
    V s' = V s /\
    I s' = (if FX55_FX65_modify_I s then I s + X instr + 1 else I s) /\
    s' = with_I (I s') (with_ram (ram s') s).
Proof.
  intros Hwf HX HNN Hmem.
  destruct (store_registers_core instr s Hwf HX HNN Hmem)
    as (s' & Hrun & Hcells & Hrest & _ & HV & HI & Hs').
  exists s'. repeat split; done.
Qed.

Lemma store_registers_to_ram_witness :
  exists s', handle_F_instr (decode 0xF255) (machine 0x300 (seqZ 1 16)) = Done s' /\
    ram s' !!! Z.to_nat (0x300 + 2) = getV (machine 0x300 (seqZ 1 16)) 2.
Proof.
  destruct (store_registers_to_ram (decode 0xF255) (machine 0x300 (seqZ 1 16)))
    as (s' & Hrun & Hcells & _);
    [ vm_compute; reflexivity
    | vm_compute; split; [discriminate | reflexivity]
    | reflexivity
    | vm_compute; reflexivity |].
  exists s'. split; [exact Hrun |]. apply Hcells. vm_compute. split; discriminate.
Defined.

Lemma load_registers_core (instr : instruction_t) (s : Chip8) :
  length (ram s) = 4096%nat -> length (V s) = 16%nat -> 0 <= I s ->
  0 <= X instr < 16 -> NN instr = 0x65 -> I s + X instr < 4096 ->
  exists s', handle_F_instr instr s = Done s' /\
    (forall i, 0 <= i <= X instr -> getV s' i = ram s !!! Z.to_nat (I s + i)) /\
    (forall j, X instr < j -> getV s' j = getV s j) /\
    length (V s') = 16%nat /\
    I s' = (if FX55_FX65_modify_I s then I s + X instr + 1 else I s) /\
    s' = with_I (I s') (with_V (V s') s).
Proof.
  intros Hram HV HI HX HNN Hmem.
  unfold handle_F_instr. rewrite HNN.
  destruct (for_loop_count
              (fun k s1 =>
                 (forall i, 0 <= i < k -> getV s1 i = ram s !!! Z.to_nat (I s + i)) /\
                 (forall j, k <= j -> getV s1 j = getV s j) /\
                 length (V s1) = 16%nat /\
                 s1 = with_V (V s1) s)
              load_reg (Z.to_nat (X instr + 1)) 0 s)
    as (s1 & Hloop & Hregs & Hrest & Hlen & Hs1).
  - intros k s2 Hk (Hregs & Hrest & Hlen & Hs2).
    assert (I s2 = I s) as HI2 by (by rewrite Hs2).
    assert (ram s2 = ram s) as Hram2 by (by rewrite Hs2).
    unfold load_reg, ram_get. rewrite HI2, Hram2.
    rewrite array_get_inside by (rewrite Hram; lia). cbn [bind].
    eexists. split; [reflexivity |].
    split; [| split; [| split; [by rewrite length_V_setV | rewrite Hs2; destruct s; reflexivity]]].
    + intros i Hi. rewrite getV_setV by (done || lia).
      destruct (Z.eqb_spec k i) as [-> | Hne]; [done | apply Hregs; lia].
    + intros j Hj. rewrite getV_setV by (done || lia).
      destruct (Z.eqb_spec k j); [lia | apply Hrest; lia].
  - split; [intros i Hi; lia |]. split; [done |]. split; [done | by destruct s].
  - rewrite Z2Nat.id in Hloop, Hregs, Hrest by lia. rewrite Hloop. cbn [bind].
    assert (I s1 = I s) as HI1 by (by rewrite Hs1).
    assert (FX55_FX65_modify_I s1 = FX55_FX65_modify_I s) as Hq by (by rewrite Hs1).
    assert (forall j, getV (bump_I instr s1) j = getV s1 j) as Hsame
      by (intros j; unfold bump_I; by destruct (FX55_FX65_modify_I s1)).
    eexists. split; [reflexivity |].
    split; [intros i Hi; rewrite Hsame; apply Hregs; lia |].
    split; [intros j Hj; rewrite Hsame; apply Hrest; lia |].
    split; [unfold bump_I; by destruct (FX55_FX65_modify_I s1) |].
    split; [rewrite bump_I_inside by lia; by rewrite Hq, HI1 |].
    unfold bump_I. destruct (FX55_FX65_modify_I s1); rewrite Hs1; destruct s; reflexivity.
Qed.

(** X18.  [FX65] with its cells inside [ram]: [V[0] .. V[X]] receive the cells
    [I .. I+X], the registers above [X] and all of [ram] stay as they
    were, and [I] moves to [I + X + 1] exactly when the switch is on. *)
Theorem load_registers_from_ram (instr : instruction_t) (s : Chip8) :
  wf s -> 0 <= X instr < 16 -> NN instr = 0x65 -> I s + X instr < 4096 ->
  exists s', handle_F_instr instr s = Done s' /\
    (forall i, 0 <= i <= X instr -> getV s' i = ram s !!! Z.to_nat (I s + i)) /\
    (forall j, X instr < j -> getV s' j = getV s j) /\
    ram s' = ram s /\
    I s' = (if FX55_FX65_modify_I s then I s + X instr + 1 else I s) /\
    s' = with_I (I s') (with_V (V s') s).
Proof.
  intros Hwf HX HNN Hmem.
  destruct (wf_shape s Hwf) as [Hram _ _ HI HV _ _ _ _ _].
  destruct (load_registers_core instr s) as (s' & Hrun & Hregs & Hrest & _ & HI' & Hs');
    try done; [lia |].
  exists s'. repeat split; try done. by rewrite Hs'.
Qed.

Lemma load_registers_from_ram_witness :
  exists s', handle_F_instr (decode 0xF465) (machine 0 zero_regs) = Done s' /\
    getV s' 4 = ram (machine 0 zero_regs) !!! Z.to_nat (0 + 4).
Proof.
  destruct (load_registers_from_ram (decode 0xF465) (machine 0 zero_regs))
    as (s' & Hrun & Hregs & _);
    [ vm_compute; reflexivity
    | vm_compute; split; [discriminate | reflexivity]
    | reflexivity
    | vm_compute; reflexivity |].
  exists s'. split; [exact Hrun |]. apply Hregs. vm_compute. split; discriminate.
Defined.



(** ** Timers over frames *)

Lemma main_timer_tick_effect (c : Chip8) :
  byte (delay_timer c) -> byte (sound_timer c) ->
  main_timer_tick c =
    with_sound_timer (Z.max 0 (sound_timer c - 1))
      (with_delay_timer (Z.max 0 (delay_timer c - 1)) c).
Proof.
  unfold byte. intros Hd Hs.
  unfold main_timer_tick, get_delay_timer, get_sound_timer,
    decrement_delay_timer, decrement_sound_timer, u8.
  destruct (Z.gtb_spec (delay_timer c) 0); simpl;
    destruct (Z.gtb_spec (sound_timer c) 0); simpl;
    rewrite ?Z.mod_small by lia;
    destruct c; unfold with_sound_timer, with_delay_timer; simpl in *; f_equal; lia.
Qed.

Lemma timer_ticks_effect (n : nat) (c : Chip8) :
  byte (delay_timer c) -> byte (sound_timer c) ->
  timer_ticks n c =
    with_sound_timer (Z.max 0 (sound_timer c - Z.of_nat n))
      (with_delay_timer (Z.max 0 (delay_timer c - Z.of_nat n)) c).
Proof.
  unfold byte. intros Hd Hs. induction n as [| n IH].
  - unfold timer_ticks. simpl. destruct c; unfold with_sound_timer, with_delay_timer; simpl in *; f_equal; lia.
  - unfold timer_ticks in *. simpl Nat.iter. rewrite IH.
    rewrite main_timer_tick_effect by (unfold byte; simpl; lia).
    destruct c; unfold with_sound_timer, with_delay_timer; simpl in *; f_equal; lia.
Qed.

(** X20.  A timer set from a register and left to the loop of [main] counts
    down one per frame and stops at 0: after [n] frames [FX07] reads
    [max 0 (t - n)] for a delay timer set to [t] by [FX15], and the sound
    timer set by [FX18] holds the same; the frames touch nothing but the
    two timers. *)
Theorem timers_count_down_and_stop (n : nat) (set get : instruction_t) (s : Chip8) :
  wf s -> 0 <= X set < 16 -> 0 <= X get < 16 -> NN get = 0x07 ->
  (NN set = 0x15 ->
     exists s1 s2, handle_F_instr set s = Done s1 /\
       handle_F_instr get (timer_ticks n s1) = Done s2 /\
       getV s2 (X get) = Z.max 0 (getV s (X set) - Z.of_nat n)) /\
  (NN set = 0x18 ->
     exists s1, handle_F_instr set s = Done s1 /\
       sound_timer (timer_ticks n s1) = Z.max 0 (getV s (X set) - Z.of_nat n) /\
       timer_ticks n s1
         = with_sound_timer (sound_timer (timer_ticks n s1))
             (with_delay_timer (delay_timer (timer_ticks n s1)) s)).
Proof.
  intros Hwf Hset Hget HNNget.
  destruct (wf_shape s Hwf) as [_ _ _ _ HV _ Hd Hs _ _].
  pose proof (getV_byte s (X set) Hwf Hset) as Hv.
  split; intros HNN; unfold handle_F_instr at 1; rewrite HNN.
  - eexists. eexists. split; [reflexivity |].
    rewrite timer_ticks_effect by (unfold byte; simpl; lia).
    unfold handle_F_instr. rewrite HNNget. split; [reflexivity |].
    rewrite getV_setV by (done || lia). by rewrite Z.eqb_refl.
  - eexists. split; [reflexivity |].
    rewrite timer_ticks_effect by (unfold byte; simpl; lia).
    split; [reflexivity | by destruct s].
Qed.

Lemma timers_count_down_and_stop_witness :
  exists s1 s2,
    handle_F_instr (decode 0xF015) (machine 0 (replicate 16 5)) = Done s1 /\
    handle_F_instr (decode 0xF107) (timer_ticks 9 s1) = Done s2 /\
    getV s2 1 = Z.max 0 (5 - 9).
Proof.
  destruct (timers_count_down_and_stop 9 (decode 0xF015) (decode 0xF107)
              (machine 0 (replicate 16 5))) as [Hdelay _];
    [ vm_compute; reflexivity
    | vm_compute; split; [discriminate | reflexivity]
    | vm_compute; split; [discriminate | reflexivity]
    | reflexivity |].
  destruct (Hdelay eq_refl) as (s1 & s2 & Hrun1 & Hrun2 & Hread).
  exists s1, s2. split; [exact Hrun1 |]. split; [exact Hrun2 | exact Hread].
Defined.

(** ** More on drawing *)

Lemma completed_draw_reads_inside_ram (instr : instruction_t) (s s' : Chip8) :
  wf s -> handle_D_instr instr s = Done s' -> rows_in_ram instr s.
Proof.
  intros Hwf Hrun.
  destruct (wf_shape s Hwf) as [Hram _ _ HI HV _ _ _ Hscr _].
  destruct (DXYN_bounds instr s) as [_ Hbad]; [done | done | done | lia |].
  intros r Hr Hyr. rewrite Hram.
  destruct (Z.le_gt_cases (I s + Z.min (N instr) (32 - origin_y instr s)) 4096); [lia |].
  rewrite Hbad in Hrun by lia. discriminate.
Qed.

(** X21.  A draw that completes changes the screen and [V[0xF]] and nothing
    else: memory, [I], [PC], the stack, the timers, the keypad and the
    registers [V[0] .. V[0xE]] are as before.  A sprite of height 0 draws
    nothing and still resets [V[0xF]] to 0. *)
Theorem draw_touches_screen_and_flag_only (instr : instruction_t) (s s' : Chip8) :
  wf s -> handle_D_instr instr s = Done s' ->
  s' = with_screen (screen s') (with_V (V s') s) /\
  (forall j, 0 <= j < 15 -> getV s' j = getV s j) /\
  (N instr <= 0 -> screen s' = screen s /\ getV s' 0xF = 0).
Proof.
  intros Hwf Hrun.
  destruct (wf_shape s Hwf) as [Hram _ _ HI HV _ _ _ Hscr _].
  pose proof (completed_draw_reads_inside_ram instr s s' Hwf Hrun) as Hrows.
  destruct (handle_D_effect instr s) as (s2 & Hrun2 & Hpix & HVs & Hlen & Hrest);
    [done | done | lia | done |].
  rewrite Hrun2 in Hrun. injection Hrun as <-.
  split; [done |]. split.
  - intros j Hj. unfold getV. rewrite HVs. apply list_lookup_total_insert_ne. lia.
  - intros HN.
    assert (drawn_pixels instr s = []) as Hnone
      by (unfold drawn_pixels, sprite_pixels; by rewrite seqZ_nil by lia).
    rewrite Hnone in Hpix, HVs. split.
    + apply (list_eq_pointwise _ _ 2048); [done | done |].
      intros i Hi. specialize (Hpix (Z.of_nat i)). unfold pixel in Hpix.
      rewrite Nat2Z.id in Hpix. rewrite Hpix by lia.
      rewrite bool_decide_eq_false_2 by apply not_elem_of_nil. apply xorb_false_r.
    + by rewrite (getV_flag_value _ _ _ HV HVs).
Qed.

Lemma draw_touches_screen_and_flag_only_witness :
  exists s', handle_D_instr (decode 0xD010) (machine 0 (replicate 16 9)) = Done s' /\
    screen s' = screen (machine 0 (replicate 16 9)) /\ getV s' 0xF = 0.
Proof.
  assert (exists s', handle_D_instr (decode 0xD010) (machine 0 (replicate 16 9)) = Done s')
    as (s' & Hrun) by (eexists; vm_compute; reflexivity).
  exists s'. split; [exact Hrun |].
  destruct (draw_touches_screen_and_flag_only (decode 0xD010) (machine 0 (replicate 16 9)) s')
    as (_ & _ & Hempty); [vm_compute; reflexivity | exact Hrun |].
  apply Hempty. vm_compute. discriminate.
Defined.

(** X22.  A draw on a dark screen reports no collision and lights exactly the
    set bits of the sprite that fall on the screen; the cell in which the
    loop of [main] paints such a pixel is column [x + c], row [y + r] for
    bit [7 - c] of sprite row [r]. *)
Theorem sprite_appears_on_dark_screen (instr : instruction_t) (s s' : Chip8) :
  wf s -> (forall q, 0 <= q < 2048 -> pixel s q = false) ->
  handle_D_instr instr s = Done s' ->
  getV s' 0xF = 0 /\
  forall q, 0 <= q < 2048 ->
    (pixel s' q = true <->
     exists r c, 0 <= r < N instr /\ 0 <= c < 8 /\
       Z.testbit (ram s !!! Z.to_nat (I s + r)) (7 - c) = true /\
       render_cell q = (origin_x instr s + c, origin_y instr s + r)).
Proof.
  intros Hwf Hdark Hrun.
  destruct (wf_shape s Hwf) as [Hram _ _ HI HV _ _ _ Hscr _].
  pose proof (completed_draw_reads_inside_ram instr s s' Hwf Hrun) as Hrows.
  destruct (handle_D_effect instr s) as (s2 & Hrun2 & Hpix & HVs & Hlen & Hrest);
    [done | done | lia | done |].
  rewrite Hrun2 in Hrun. injection Hrun as <-.
  assert (0 <= origin_x instr s < 64) as Hx by (apply Z.mod_pos_bound; lia).
  assert (0 <= origin_y instr s < 32) as Hy by (apply Z.mod_pos_bound; lia).
  split.
  - rewrite (getV_flag_value _ _ _ HV HVs).
    replace (existsb (pixel s) (drawn_pixels instr s)) with false; [done |].
    symmetry. apply not_true_iff_false. intros (q & Hq & Hlit)%existsb_elem.
    rewrite Hdark in Hlit; [done |].
    apply elem_of_drawn_pixels, plotted_on_screen in Hq; lia.
  - intros q Hq. rewrite Hpix, Hdark by lia. rewrite xorb_false_l.
    rewrite bool_decide_eq_true, elem_of_drawn_pixels. unfold render_cell. split.
    + intros (r & c & Hr & Hyr & Hc & Hxc & Hbit & ->). exists r, c.
      repeat split; try done; try lia. f_equal.
      * replace ((origin_y instr s + r) * 64 + origin_x instr s + c)
          with (origin_x instr s + c + (origin_y instr s + r) * 64) by lia.
        rewrite Z.mod_add by lia. apply Z.mod_small. lia.
      * replace ((origin_y instr s + r) * 64 + origin_x instr s + c)
          with (origin_x instr s + c + (origin_y instr s + r) * 64) by lia.
        rewrite Z.div_add by lia. rewrite Z.div_small by lia. lia.
    + intros (r & c & Hr & Hc & Hbit & [= Hcol Hrow]). exists r, c.
      repeat split; try done; try lia; Z.div_mod_to_equations; lia.
Qed.

Lemma sprite_appears_on_dark_screen_witness :
  exists s', handle_D_instr (decode 0xD015) (machine 0 zero_regs) = Done s' /\
    getV s' 0xF = 0.
Proof.
  assert (exists s', handle_D_instr (decode 0xD015) (machine 0 zero_regs) = Done s')
    as (s' & Hrun) by (eexists; vm_compute; reflexivity).
  exists s'. split; [exact Hrun |].
  destruct (sprite_appears_on_dark_screen (decode 0xD015) (machine 0 zero_regs) s')
    as [Hflag _]; [vm_compute; reflexivity | | exact Hrun | exact Hflag].
  intros q Hq. unfold pixel.
  change (screen (machine 0 zero_regs)) with (replicate 2048 false).
  apply lookup_total_replicate_2. lia.
Defined.

(** ** Loading *)

(** X24.  [load] of a program shorter than [MAX_PROG_SIZE]: the bytes land at
    [0x200] in order, every other cell of [ram] (the font below [0x200]
    among them) keeps its value, and no other field changes: [load] does
    not reset [PC], the registers or the screen. *)
Theorem load_places_program (prog : list Z) (s : Chip8) :
  wf s -> Z.of_nat (length prog) < MAX_PROG_SIZE ->
  exists s', load prog s = Done s' /\
    (forall i, (i < length prog)%nat -> ram s' !!! (512 + i)%nat = prog !!! i) /\
    (forall a, (a < 512 \/ 512 + length prog <= a)%nat -> ram s' !!! a = ram s !!! a) /\
    length (ram s') = 4096%nat /\
    s' = with_ram (ram s') s.
Proof.
  intros Hwf Hlen. pose proof (shape_ram s (wf_shape s Hwf)) as Hram.
  destruct (load_accepts_below_budget prog s Hwf Hlen) as (Hrun & _ & _).
  unfold MAX_PROG_SIZE in Hlen.
  eexists. split; [exact Hrun |]. simpl. split; [| split; [| split]].
  - intros i Hi. rewrite list_lookup_total_inserts by lia. f_equal. lia.
  - intros a [Ha | Ha].
    + by apply list_lookup_total_inserts_lt.
    + apply list_lookup_total_inserts_ge. lia.
  - by rewrite length_inserts.
  - done.
Qed.

Lemma load_places_program_witness :
  exists s', load [0xA2; 0x2A] (machine 0 zero_regs) = Done s' /\
    ram s' !!! (512 + 1)%nat = [0xA2; 0x2A] !!! 1%nat.
Proof.
  destruct (load_places_program [0xA2; 0x2A] (machine 0 zero_regs))
    as (s' & Hrun & Hprog & _); [vm_compute; reflexivity | vm_compute; reflexivity |].
  exists s'. split; [exact Hrun |]. apply Hprog. simpl. lia.
Defined.

Lemma length_read_rom (file : list Z) : length (read_rom file) = 1024%nat.
Proof.
  unfold read_rom. rewrite length_take, length_app, length_replicate. lia.
Qed.

Lemma read_rom_lookup (file : list Z) (i : nat) :
  (i < 1024)%nat ->
  read_rom file !!! i = if decide (i < length file)%nat then file !!! i else 0.
Proof.
  intros Hi. unfold read_rom. rewrite lookup_total_take_lt by done.
  case_decide.
  - by apply lookup_total_app_l.
  - rewrite lookup_total_app_r by lia. apply lookup_total_replicate_2. lia.
Qed.

(** X25.  The program load of [main] cannot fail the assertion of [load],
    whatever the file holds: exactly 1024 bytes go to [0x200 .. 0x5FF], the
    first 1024 bytes of the file and zeros after its end, so a longer file
    is cut off without notice; the rest of [ram] keeps its value. *)
Theorem main_loads_first_kilobyte (file : list Z) (c : Chip8) :
  wf c ->
  exists c', main_load file c = Done c' /\
    (forall i, (i < 1024)%nat ->
       ram c' !!! (512 + i)%nat
         = if decide (i < length file)%nat then file !!! i else 0) /\
    (forall a, (a < 512 \/ 1536 <= a)%nat -> ram c' !!! a = ram c !!! a) /\
    c' = with_ram (ram c') c.
Proof.
  intros Hwf. pose proof (shape_ram c (wf_shape c Hwf)) as Hram.
  unfold main_load, load. rewrite length_read_rom.
  change (Z.of_nat 1024 <? MAX_PROG_SIZE) with true. cbv iota.
  change (Z.to_nat PC_RESET_VALUE) with 512%nat.
  eexists. split; [reflexivity |]. cbn [ram with_ram]. split; [| split; [| done]].
  - intros i Hi. rewrite list_lookup_total_inserts by (rewrite ?length_read_rom; lia).
    replace (512 + i - 512)%nat with i by lia. by apply read_rom_lookup.
  - intros a [Ha | Ha].
    + by apply list_lookup_total_inserts_lt.
    + apply list_lookup_total_inserts_ge. rewrite length_read_rom. lia.
Qed.

Lemma main_loads_first_kilobyte_witness :
  exists c', main_load (replicate 2000 0xFF) (machine 0 zero_regs) = Done c' /\
    ram c' !!! (512 + 1023)%nat = 0xFF /\
    ram c' !!! 1536%nat = ram (machine 0 zero_regs) !!! 1536%nat.
Proof.
  destruct (main_loads_first_kilobyte (replicate 2000 0xFF) (machine 0 zero_regs))
    as (c' & Hrun & Hin & Hout & _); [vm_compute; reflexivity |].
  exists c'. split; [exact Hrun |]. split.
  - rewrite Hin by lia. reflexivity.
  - apply Hout. right. lia.
Defined.

(** ** Call and return as steps *)

(** X7.  A step that fetches [2NNN] jumps to [NNN] and pushes the address of
    the instruction after the call; when [00EE] stands at [NNN], the next
    step pops it, and the machine is as before the call except that [PC]
    is past it. *)
Theorem call_step_then_return_step (rnd1 rnd2 : Z) (s : Chip8) :
  wf s -> PC s + 1 < 4096 ->
  let hi := ram s !!! Z.to_nat (PC s) in
  let lo := ram s !!! Z.to_nat (PC s + 1) in
  let target := 256 * (hi mod 16) + lo in
  hi / 16 = 0x2 ->
  exists s1, cpu_next_instr rnd1 s = Done s1 /\
    PC s1 = target /\ stack s1 = (PC s + 2) :: stack s /\
    (target + 1 < 4096 ->
     ram s !!! Z.to_nat target = 0x00 -> ram s !!! Z.to_nat (target + 1) = 0xEE ->
     cpu_next_instr rnd2 s1 = Done (with_PC (PC s + 2) s)).
Proof.
  rewrite wf_sound. intros Hs Hpc hi lo target Hfam.
  pose proof (sound_PC s Hs) as HPC. unfold word16 in HPC.
  assert (byte hi /\ byte lo) as [Hhi Hlo]
    by (split; apply byte_lookup_total, (sound_ram s Hs)).
  destruct (fields_of_bytes hi lo Hhi Hlo) as (Hw & _ & _ & _ & _ & HNNN).
  rewrite (step_at rnd1 s Hs Hpc). fold hi lo.
  unfold dispatch. rewrite Hw, Hfam. unfold handle_2_instr. rewrite HNNN. fold target.
  set (s1 := with_PC target (with_stack (PC (with_PC (PC s + 2) s)
                                         :: stack (with_PC (PC s + 2) s))
                               (with_PC (PC s + 2) s))).
  exists s1. split; [done |]. split; [done |]. split; [done |].
  intros Htarget H00 HEE.
  assert (0 <= target) as H0 by (unfold target, byte in *; Z.div_mod_to_equations; lia).
  assert (sound s1) as Hs1.
  { apply sound_with_PC; [| unfold word16; lia].
    apply sound_with_stack; [apply sound_with_PC; [done | unfold word16; lia] |].
    apply Forall_cons. split; [simpl; unfold word16; lia | apply (sound_stack s Hs)]. }
  rewrite (step_at rnd2 s1 Hs1) by done.
  change (ram s1) with (ram s). change (PC s1) with target. rewrite H00, HEE.
  change (dispatch rnd2 (256 * 0 + 238) (with_PC (target + 2) s1))
    with (Done (with_stack (stack s) (with_PC (PC s + 2) (with_PC (target + 2) s1)))).
  reflexivity.
Qed.

Lemma call_step_then_return_step_witness :
  let s := machine_with [0x22; 0x04; 0x00; 0x00; 0x00; 0xEE] 0 zero_regs in
  exists s1, cpu_next_instr 0 s = Done s1 /\ PC s1 = 0x204 /\
    cpu_next_instr 0 s1 = Done (with_PC 0x202 s).
Proof.
  cbv zeta. set (s := machine_with [0x22; 0x04; 0x00; 0x00; 0x00; 0xEE] 0 zero_regs).
  destruct (call_step_then_return_step 0 0 s) as (s1 & Hcall & Hpc & _ & Hret);
    [vm_compute; reflexivity | vm_compute; reflexivity | vm_compute; reflexivity |].
  exists s1. split; [exact Hcall |]. split; [exact Hpc |].
  apply Hret; vm_compute; reflexivity.
Defined.

(** ** Straight-line instructions *)

Lemma handle_8_keeps_PC instr s s' : handle_8_instr instr s = Done s' -> PC s' = PC s.
Proof.
  unfold handle_8_instr. generalize (N instr). intros z.
  switch_cases; try discriminate; intros [= <-];
    by destruct (copy_vy_to_vx_in_shift s).
Qed.

Lemma handle_D_keeps_PC instr s s' : handle_D_instr instr s = Done s' -> PC s' = PC s.
Proof.
  unfold handle_D_instr.
  apply (for_loop_inv (fun s1 => PC s1 = PC s)); [| done].
  intros r s1 s2 _ Hs1. unfold draw_row.
  destruct (ram_get s1 (I s1 + r)) as [b | f]; [cbn [bind] | discriminate].
  apply (for_loop_inv (fun s3 => PC s3 = PC s)); [| done].
  intros c s3 s4 _ Hs3. unfold draw_bit.
  destruct (Z.testbit b (7 - c)); [| by intros [= <-]].
  destruct (bitset_test _ _) as [lit | f]; [cbn [bind] | discriminate].
  destruct (bitset_flip _ _) as [scr | f]; [cbn [bind] | discriminate].
  intros [= <-]. by destruct lit.
Qed.

Lemma ram_set_keeps_PC i v s s' : ram_set i v s = Done s' -> PC s' = PC s.
Proof.
  unfold ram_set. destruct (array_set _ _ _); [simpl | discriminate]. by intros [= <-].
Qed.

Lemma handle_F_keeps_PC instr s s' :
  NN instr <> 0x0A -> handle_F_instr instr s = Done s' -> PC s' = PC s.
Proof.
  unfold handle_F_instr. generalize (NN instr). intros z Hne.
  switch_cases; try (by intros [= <-]); try done.
  all: lazymatch goal with
       | |- context [load_reg] =>
           destruct (for_loop (seqZ 0 (X instr + 1)) (fun _ => true) load_reg s)
             as [s1 | f] eqn:Hloop; [simpl | discriminate];
           intros [= <-];
           assert (PC s1 = PC s) as <-;
           [ apply (for_loop_inv (fun s2 => PC s2 = PC s) _ _ _ _ _) in Hloop;
             [done | | done];
             intros i a b _ Ha; unfold load_reg;
             destruct (ram_get a (I a + i)); [simpl | discriminate];
             by intros [= <-]
           | unfold bump_I; by destruct (FX55_FX65_modify_I s1) ]
       | |- context [store_reg] =>
           destruct (for_loop (seqZ 0 (X instr + 1)) (fun _ => true) store_reg s)
             as [s1 | f] eqn:Hloop; [simpl | discriminate];
           intros [= <-];
           assert (PC s1 = PC s) as <-;
           [ apply (for_loop_inv (fun s2 => PC s2 = PC s) _ _ _ _ _) in Hloop;
             [done | | done];
             intros i a b _ Ha Hstep; apply ram_set_keeps_PC in Hstep; congruence
           | unfold bump_I; by destruct (FX55_FX65_modify_I s1) ]
       | |- context [ram_set] =>
           destruct (ram_set (I s + 2) (getV s (X instr) mod 10) s)
             as [s1 | f] eqn:H1; [simpl | discriminate];
           destruct (ram_set (I s1 + 1) ((getV s1 (X instr) / 10) mod 10) s1)
             as [s2 | f] eqn:H2; [simpl | discriminate];
           intros H3; apply ram_set_keeps_PC in H1, H2, H3; congruence
       | |- context [ram_get] =>
           destruct (ram_get s (Z.land (getV s (X instr)) 15));
             [simpl | discriminate]; by intros [= <-]
       end.
Qed.

(** X26.  The instructions that neither jump nor skip nor wait leave [PC] two
    past themselves: a completed step that fetches an instruction of the
    families 6, 7, 8, A, C, D or F other than [FX0A] ends with
    [PC = PC + 2]. *)
Theorem straight_line_steps_advance_PC_by_two (rnd : Z) (s s' : Chip8) :
  wf s -> PC s + 1 < 4096 ->
  let hi := ram s !!! Z.to_nat (PC s) in
  let lo := ram s !!! Z.to_nat (PC s + 1) in
  hi / 16 ∈ [0x6; 0x7; 0x8; 0xA; 0xC; 0xD; 0xF] ->
  ~ (hi / 16 = 0xF /\ lo = 0x0A) ->
  cpu_next_instr rnd s = Done s' -> PC s' = PC s + 2.
Proof.
  rewrite wf_sound. intros Hs Hpc hi lo Hfam Hwait.
  rewrite (step_at rnd s Hs Hpc). fold hi lo.
  destruct (fields_of_bytes hi lo) as (Hw & _ & _ & _ & HNN & _);
    [apply byte_lookup_total, (sound_ram s Hs) .. |].
  unfold dispatch. rewrite Hw.
  repeat (apply elem_of_cons in Hfam as [Heq | Hfam];
          [rewrite Heq in *; clear Heq |]); [.. | by apply elem_of_nil in Hfam].
  - by intros [= <-].
  - by intros [= <-].
  - intros Hrun. by apply handle_8_keeps_PC in Hrun.
  - by intros [= <-].
  - by intros [= <-].
  - intros Hrun. by apply handle_D_keeps_PC in Hrun.
  - intros Hrun. apply handle_F_keeps_PC in Hrun; [done |].
    rewrite HNN. intros Hlo. by apply Hwait.
Qed.

Lemma straight_line_steps_advance_PC_by_two_witness :
  exists s', cpu_next_instr 0 (machine_with [0x61; 0x2A] 0 zero_regs) = Done s' /\
    PC s' = 0x200 + 2.
Proof.
  assert (exists s', cpu_next_instr 0 (machine_with [0x61; 0x2A] 0 zero_regs) = Done s')
    as (s' & Hrun) by (eexists; vm_compute; reflexivity).
  exists s'. split; [exact Hrun |].
  apply (straight_line_steps_advance_PC_by_two 0 (machine_with [0x61; 0x2A] 0 zero_regs) s');
    [ vm_compute; reflexivity | vm_compute; reflexivity | | | exact Hrun ].
  - vm_compute. left.
  - vm_compute. intros [Hf _]. discriminate Hf.
Defined.

(** ** What a step never writes *)

Section Frame.
Context {T : Type} (part : Chip8 -> T).
Hypothesis part_V : forall v s, part (with_V v s) = part s.
Hypothesis part_ram : forall m s, part (with_ram m s) = part s.
Hypothesis part_screen : forall scr s, part (with_screen scr s) = part s.
Hypothesis part_I : forall i s, part (with_I i s) = part s.
Hypothesis part_PC : forall pc s, part (with_PC pc s) = part s.
Hypothesis part_stack : forall st s, part (with_stack st s) = part s.

Lemma part_setV i v s : part (setV i v s) = part s.
Proof using part_V. apply part_V. Qed.

Lemma part_skip_if b s : part (skip_if b s) = part s.
Proof using part_PC. unfold skip_if. by destruct b. Qed.

Lemma fetch_frame s w s1 : fetch s = Done (w, s1) -> part s1 = part s.
Proof using part_PC.
  unfold fetch. destruct (ram_get s (PC s)); [simpl | discriminate].
  destruct (ram_get _ _); [simpl | discriminate].
  intros [= _ <-]. by rewrite !part_PC.
Qed.

Lemma handle_0_frame instr s s' : handle_0_instr instr s = Done s' -> part s' = part s.
Proof using part_screen part_PC part_stack.
  unfold handle_0_instr. generalize (NNN instr). intros z.
  switch_cases; try discriminate.
  - destruct (stack s); [discriminate |]. intros [= <-]. by rewrite part_stack, part_PC.
  - intros [= <-]. apply part_screen.
Qed.

Lemma handle_8_frame instr s s' : handle_8_instr instr s = Done s' -> part s' = part s.
Proof using part_V.
  unfold handle_8_instr. generalize (N instr). intros z.
  switch_cases; try discriminate; intros [= <-];
    rewrite ?part_setV; destruct (copy_vy_to_vx_in_shift s); by rewrite ?part_setV.
Qed.

Lemma handle_D_frame instr s s' : handle_D_instr instr s = Done s' -> part s' = part s.
Proof using part_V part_screen.
  unfold handle_D_instr.
  apply (for_loop_inv (fun s1 => part s1 = part s)); [| apply part_setV].
  intros r s1 s2 _ Hs1. unfold draw_row.
  destruct (ram_get s1 (I s1 + r)) as [b | f]; [cbn [bind] | discriminate].
  apply (for_loop_inv (fun s3 => part s3 = part s)); [| done].
  intros c s3 s4 _ Hs3. unfold draw_bit.
  destruct (Z.testbit b (7 - c)); [| by intros [= <-]].
  destruct (bitset_test _ _) as [lit | f]; [cbn [bind] | discriminate].
  destruct (bitset_flip _ _) as [scr | f]; [cbn [bind] | discriminate].
  intros [= <-]. rewrite part_screen. destruct lit; by rewrite ?part_setV.
Qed.

Lemma handle_E_frame instr s s' : handle_E_instr instr s = Done s' -> part s' = part s.
Proof using part_PC.
  unfold handle_E_instr. generalize (NN instr). intros z.
  switch_cases; try discriminate;
    (destruct (bitset_test _ _); [simpl | discriminate]);
    intros [= <-]; apply part_skip_if.
Qed.

Lemma ram_set_frame i v s s' : ram_set i v s = Done s' -> part s' = part s.
Proof using part_ram.
  unfold ram_set. destruct (array_set _ _ _); [simpl | discriminate].
  intros [= <-]. apply part_ram.
Qed.

Lemma bump_I_frame instr s : part (bump_I instr s) = part s.
Proof using part_I. unfold bump_I. destruct (FX55_FX65_modify_I s); by rewrite ?part_I. Qed.

Lemma handle_F_frame instr s s' :
  (NN instr = 0x15 -> forall t, part (with_delay_timer t s) = part s) ->
  (NN instr = 0x18 -> forall t, part (with_sound_timer t s) = part s) ->
  handle_F_instr instr s = Done s' -> part s' = part s.
Proof using part_V part_ram part_I part_PC.
  unfold handle_F_instr. generalize (NN instr). intros z Hdelay Hsound.
  switch_cases; try (by intros [= <-]).
  all: lazymatch goal with
       | |- context [load_reg] =>
           destruct (for_loop (seqZ 0 (X instr + 1)) (fun _ => true) load_reg s)
             as [s1 | f] eqn:Hloop; [simpl | discriminate];
           intros [= <-]; rewrite bump_I_frame;
           apply (for_loop_inv (fun s2 => part s2 = part s) _ _ _ _ _) in Hloop;
           [done | | done];
           intros i a b _ Ha; unfold load_reg;
           destruct (ram_get a (I a + i)); [simpl | discriminate];
           intros [= <-]; by rewrite part_setV
       | |- context [store_reg] =>
           destruct (for_loop (seqZ 0 (X instr + 1)) (fun _ => true) store_reg s)
             as [s1 | f] eqn:Hloop; [simpl | discriminate];
           intros [= <-]; rewrite bump_I_frame;
           apply (for_loop_inv (fun s2 => part s2 = part s) _ _ _ _ _) in Hloop;
           [done | | done];
           intros i a b _ Ha Hstep; apply ram_set_frame in Hstep; congruence
       | |- context [ram_set] =>
           destruct (ram_set (I s + 2) (getV s (X instr) mod 10) s)
             as [s1 | f] eqn:H1; [simpl | discriminate];
           destruct (ram_set (I s1 + 1) ((getV s1 (X instr) / 10) mod 10) s1)
             as [s2 | f] eqn:H2; [simpl | discriminate];
           intros H3; apply ram_set_frame in H1, H2, H3; congruence
       | |- context [ram_get] =>
           destruct (ram_get s (Z.land (getV s (X instr)) 15));
             [simpl | discriminate]; intros [= <-]; apply part_I
       | |- context [scan_keys] =>
           destruct (scan_keys (seqZ 0 KEYBOARD_SIZE) (keyboard s))
             as [[k |] | f]; simpl; try discriminate; intros [= <-];
           [apply part_setV | apply part_PC]
       | |- context [with_delay_timer] => intros [= <-]; by apply Hdelay
       | |- context [with_sound_timer] => intros [= <-]; by apply Hsound
       | |- context [with_I] => intros [= <-]; apply part_I
       | |- context [setV] => intros [= <-]; apply part_setV
       end.
Qed.

Lemma dispatch_frame rnd w s s' :
  (Z.shiftr w 12 = 0xF -> NN (decode w) = 0x15 ->
     forall t, part (with_delay_timer t s) = part s) ->
  (Z.shiftr w 12 = 0xF -> NN (decode w) = 0x18 ->
     forall t, part (with_sound_timer t s) = part s) ->
  dispatch rnd w s = Done s' -> part s' = part s.
Proof using All.
  unfold dispatch. generalize (Z.shiftr w 12). intros z Hdelay Hsound.
  switch_cases; try (by intros [= <-]);
    first
      [ apply handle_0_frame | apply handle_8_frame | apply handle_D_frame
      | apply handle_E_frame
      | apply handle_F_frame; [by apply Hdelay | by apply Hsound]
      | intros [= <-];
        by rewrite ?part_setV, ?part_skip_if, ?part_PC, ?part_stack, ?part_I ].
Qed.
End Frame.

(** X27.  No step writes the keypad or a quirk switch, and the only
    instructions that write a timer are [FX15] (delay) and [FX18] (sound):
    after every other completed step the timers are as before, so counting
    down is left to the host. *)
Theorem step_leaves_keypad_switches_timers (rnd : Z) (s s' : Chip8) :
  cpu_next_instr rnd s = Done s' ->
  keyboard s' = keyboard s /\
  copy_vy_to_vx_in_shift s' = copy_vy_to_vx_in_shift s /\
  make_BNNN_into_BXNN s' = make_BNNN_into_BXNN s /\
  FX55_FX65_modify_I s' = FX55_FX65_modify_I s /\
  (forall w s1, fetch s = Done (w, s1) ->
     ~ (Z.shiftr w 12 = 0xF /\ NN (decode w) = 0x15) ->
     delay_timer s' = delay_timer s) /\
  (forall w s1, fetch s = Done (w, s1) ->
     ~ (Z.shiftr w 12 = 0xF /\ NN (decode w) = 0x18) ->
     sound_timer s' = sound_timer s).
Proof.
  unfold cpu_next_instr.
  destruct (fetch s) as [[w s1] | f] eqn:Hfetch; [simpl | discriminate].
  intros Hrun.
  assert (forall {T} (part : Chip8 -> T),
            (forall v c, part (with_V v c) = part c) ->
            (forall m c, part (with_ram m c) = part c) ->
            (forall scr c, part (with_screen scr c) = part c) ->
            (forall i c, part (with_I i c) = part c) ->
            (forall pc c, part (with_PC pc c) = part c) ->
            (forall st c, part (with_stack st c) = part c) ->
            (Z.shiftr w 12 = 0xF -> NN (decode w) = 0x15 ->
               forall t, part (with_delay_timer t s1) = part s1) ->
            (Z.shiftr w 12 = 0xF -> NN (decode w) = 0x18 ->
               forall t, part (with_sound_timer t s1) = part s1) ->
            part s' = part s) as Hframe.
  { intros T part H1 H2 H3 H4 H5 H6 Hd Hs.
    rewrite <- (fetch_frame part H5 s w s1 Hfetch).
    by apply (dispatch_frame part H1 H2 H3 H4 H5 H6 rnd w). }
  split; [by apply (Hframe _ keyboard) |].
  split; [by apply (Hframe _ copy_vy_to_vx_in_shift) |].
  split; [by apply (Hframe _ make_BNNN_into_BXNN) |].
  split; [by apply (Hframe _ FX55_FX65_modify_I) |].
  split; intros w' s1' [= <- <-] Hnot.
  - apply (Hframe _ delay_timer); try done. intros Hf HNN. destruct Hnot. done.
  - apply (Hframe _ sound_timer); try done. intros Hf HNN. destruct Hnot. done.
Qed.

Lemma step_leaves_keypad_switches_timers_witness :
  exists s', cpu_next_instr 0 (machine_with [0xF0; 0x18] 0 (replicate 16 7)) = Done s' /\
    keyboard s' = keyboard (machine_with [0xF0; 0x18] 0 (replicate 16 7)).
Proof.
  assert (exists s', cpu_next_instr 0 (machine_with [0xF0; 0x18] 0 (replicate 16 7)) = Done s')
    as (s' & Hrun) by (eexists; vm_compute; reflexivity).
  exists s'. split; [exact Hrun |].
  apply (step_leaves_keypad_switches_timers 0 _ s' Hrun).
Defined.

(** ** Drawing two sprites *)

Lemma drawn_pixels_same (instr : instruction_t) (s s1 : Chip8) :
  ram s1 = ram s -> I s1 = I s ->
  getV s1 (X instr) = getV s (X instr) -> getV s1 (Y instr) = getV s (Y instr) ->
  drawn_pixels instr s1 = drawn_pixels instr s.
Proof.
  intros Hram HI HX HY. unfold drawn_pixels, origin_x, origin_y.
  by rewrite Hram, HI, HX, HY.
Qed.

Lemma draw_then_draw (a b : instruction_t) (s : Chip8) :
  wf s -> 0 <= X b < 15 -> 0 <= Y b < 15 ->
  I s + Z.min (N a) (32 - origin_y a s) <= 4096 ->
  I s + Z.min (N b) (32 - origin_y b s) <= 4096 ->
  exists s1 s2,
    handle_D_instr a s = Done s1 /\ handle_D_instr b s1 = Done s2 /\
    length (screen s2) = 2048%nat /\
    forall q, 0 <= q ->
      pixel s2 q = xorb (xorb (pixel s q) (bool_decide (q ∈ drawn_pixels a s)))
                     (bool_decide (q ∈ drawn_pixels b s)).
Proof.
  intros Hwf HX HY Hma Hmb.
  destruct (wf_shape s Hwf) as [Hram _ _ HI HV _ _ _ Hscr _].
  destruct (handle_D_effect a s) as (s1 & Hrun1 & Hpix1 & HV1 & Hlen1 & Hrest1);
    [done | done | lia | by apply rows_in_ram_of_bound |].
  assert (ram s1 = ram s) as Hram1 by (by rewrite Hrest1).
  assert (I s1 = I s) as HI1 by (by rewrite Hrest1).
  assert (length (V s1) = 16%nat) as HVlen1 by (by rewrite HV1, length_insert).
  assert (forall i, 0 <= i < 15 -> getV s1 i = getV s i) as Hregs.
  { intros i Hi. unfold getV. rewrite HV1. apply list_lookup_total_insert_ne. lia. }
  pose proof (drawn_pixels_same b s s1 Hram1 HI1 (Hregs _ HX) (Hregs _ HY)) as Hsame.
  destruct (handle_D_effect b s1) as (s2 & Hrun2 & Hpix2 & _ & Hlen2 & _);
    [done | done | lia | |].
  { apply rows_in_ram_of_bound; [by rewrite Hram1 |].
    unfold origin_y. rewrite HI1, (Hregs _ HY). done. }
  exists s1, s2. split; [done |]. split; [done |]. split; [done |].
  intros q Hq. by rewrite Hpix2, Hpix1, Hsame.
Qed.

(** X23.  Two sprites drawn one after the other give the same screen in either
    order (the origin registers being other than [V[0xF]], which the first
    draw overwrites, and the sprite rows inside [ram]): the pixels are
    combined by exclusive or. *)
Theorem draws_commute_on_screen (a b : instruction_t) (s : Chip8) :
  wf s ->
  0 <= X a < 15 -> 0 <= Y a < 15 -> 0 <= X b < 15 -> 0 <= Y b < 15 ->
  I s + Z.min (N a) (32 - origin_y a s) <= 4096 ->
  I s + Z.min (N b) (32 - origin_y b s) <= 4096 ->
  exists sa sab sb sba,
    handle_D_instr a s = Done sa /\ handle_D_instr b sa = Done sab /\
    handle_D_instr b s = Done sb /\ handle_D_instr a sb = Done sba /\
    screen sab = screen sba.
Proof.
  intros Hwf HXa HYa HXb HYb Hma Hmb.
  destruct (draw_then_draw a b s) as (sa & sab & Ha & Hab & Hlab & Hpab); try done.
  destruct (draw_then_draw b a s) as (sb & sba & Hb & Hba & Hlba & Hpba); try done.
  exists sa, sab, sb, sba. repeat (split; [done |]).
  apply (list_eq_pointwise _ _ 2048); [done | done |].
  intros i Hi. specialize (Hpab (Z.of_nat i)). specialize (Hpba (Z.of_nat i)).
  unfold pixel in Hpab, Hpba. rewrite Nat2Z.id in Hpab, Hpba.
  rewrite Hpab, Hpba by lia.
  by destruct (screen s !!! i), (bool_decide _), (bool_decide _).
Qed.

Lemma draws_commute_on_screen_witness :
  let s := machine 0 (<[0%nat := 2]> (<[1%nat := 3]> (<[2%nat := 4]> zero_regs))) in
  exists sa sab sb sba,
    handle_D_instr (decode 0xD015) s = Done sa /\
    handle_D_instr (decode 0xD125) sa = Done sab /\
    handle_D_instr (decode 0xD125) s = Done sb /\
    handle_D_instr (decode 0xD015) sb = Done sba /\
    screen sab = screen sba.
Proof.
  cbv zeta.
  apply (draws_commute_on_screen (decode 0xD015) (decode 0xD125));
    [ vm_compute; reflexivity
    | vm_compute; split; [discriminate | reflexivity]
    | vm_compute; split; [discriminate | reflexivity]
    | vm_compute; split; [discriminate | reflexivity]
    | vm_compute; split; [discriminate | reflexivity]
    | vm_compute; discriminate
    | vm_compute; discriminate ].
Defined.

(** ** Jumps *)

(** X28.  Steps that fetch [1NNN], [ANNN] or [BNNN]: [1NNN] puts [NNN] in [PC],
    [ANNN] puts it in [I] and moves on, and [BNNN] jumps to [NNN] plus
    [V[0]], or plus [V[X]] when the switch [make_BNNN_into_BXNN] is on;
    the sum is not reduced, so it can point up to 255 bytes past the end
    of [ram].  Nothing else changes. *)
Theorem jump_steps (rnd : Z) (s : Chip8) :
  wf s -> PC s + 1 < 4096 ->
  let hi := ram s !!! Z.to_nat (PC s) in
  let lo := ram s !!! Z.to_nat (PC s + 1) in
  let nnn := 256 * (hi mod 16) + lo in
  let offset := getV s (if make_BNNN_into_BXNN s then hi mod 16 else 0) in
  0 <= nnn < 4096 /\ 0 <= offset < 256 /\
  (hi / 16 = 0x1 -> cpu_next_instr rnd s = Done (with_PC nnn s)) /\
  (hi / 16 = 0xA -> cpu_next_instr rnd s = Done (with_I nnn (with_PC (PC s + 2) s))) /\
  (hi / 16 = 0xB -> cpu_next_instr rnd s = Done (with_PC (offset + nnn) s)).
Proof.
  rewrite wf_sound. intros Hs Hpc hi lo nnn offset.
  assert (byte hi /\ byte lo) as [Hhi Hlo]
    by (split; apply byte_lookup_total, (sound_ram s Hs)).
  assert (0 <= nnn < 4096) as Hnnn
    by (unfold nnn, byte in *; Z.div_mod_to_equations; lia).
  assert (0 <= offset < 256) as Hoff by (apply (byte_getV s _ Hs)).
  split; [done |]. split; [done |].
  destruct (fields_of_bytes hi lo Hhi Hlo) as (Hw & HX & _ & _ & _ & HNNN).
  rewrite (step_at rnd s Hs Hpc). fold hi lo. unfold dispatch. rewrite Hw.
  repeat split; intros ->.
  - unfold handle_1_instr. rewrite HNNN. fold nnn. by destruct s.
  - unfold handle_A_instr. by rewrite HNNN.
  - unfold handle_B_instr. rewrite HNNN, HX. fold nnn.
    change (make_BNNN_into_BXNN (with_PC (PC s + 2) s)) with (make_BNNN_into_BXNN s).
    change (getV (with_PC (PC s + 2) s)) with (getV s). fold offset.
    unfold u16. rewrite Z.mod_small by lia. by destruct s.
Qed.

Lemma jump_steps_witness :
  cpu_next_instr 0 (machine_with [0xB3; 0x00] 0 (replicate 16 0xFF))
    = Done (with_PC (0xFF + 0x300) (machine_with [0xB3; 0x00] 0 (replicate 16 0xFF))).
Proof.
  destruct (jump_steps 0 (machine_with [0xB3; 0x00] 0 (replicate 16 0xFF)))
    as (_ & _ & _ & _ & HB); [vm_compute; reflexivity | vm_compute; reflexivity |].
  rewrite HB by (vm_compute; reflexivity). reflexivity.
Defined.
